(** * Fast_api_with_mongo: repository, cache client and serializer

    A shallow embedding of the core of the service:
    - [src/database/repositories/crud.py]  (MongoDBCRUDRepository),
    - [src/database/repositories/user.py], [src/services/user.py],
      [src/api/dto/user.py]                (user creation path),
    - [src/common/serializers/orjson_serializer.py] (OrjsonSerializer),
    - [src/common/cache/redis.py]          (RedisCache).

    The document store, the cache server and the JSON codec are libraries
    outside the repository; each is given an executable model here, next to
    the code that calls it. *)

From Stdlib Require Import List String Ascii ZArith NArith Bool Lia.
Import ListNotations.
Local Open Scope string_scope.
Local Open Scope Z_scope.

(** ** Python values *)

(** A Python [str] is represented by the bytes of its UTF-8 encoding, and
    [bytes] by the same carrier; [str.encode('utf-8')] is then the identity
    on the representation. *)
Definition bytes := string.

Unset Elimination Schemes.
Inductive Value : Type :=
| VNone
| VBool (b : bool)
| VInt (z : Z)
| VStr (s : string)
| VObjectId (oid : N)                   (* bson.ObjectId, a 96-bit number *)
| VList (l : list Value)
| VTuple (l : list Value)
| VDict (d : list (string * Value)).    (* insertion-ordered, string keys *)
Set Elimination Schemes.

(** A dict with string keys, in insertion order. *)
Definition Dict := list (string * Value).
Definition Document := Dict.

Section ValueInduction.
Variable P : Value -> Prop.
Hypothesis HNone : P VNone.
Hypothesis HBool : forall b, P (VBool b).
Hypothesis HInt : forall z, P (VInt z).
Hypothesis HStr : forall s, P (VStr s).
Hypothesis HOid : forall n, P (VObjectId n).
Hypothesis HList : forall l, Forall P l -> P (VList l).
Hypothesis HTuple : forall l, Forall P l -> P (VTuple l).
Hypothesis HDict : forall d, Forall (fun kv => P (snd kv)) d -> P (VDict d).

Fixpoint Value_ind (v : Value) : P v :=
  match v with
  | VNone => HNone
  | VBool b => HBool b
  | VInt z => HInt z
  | VStr s => HStr s
  | VObjectId n => HOid n
  | VList l =>
      HList l ((fix all (l : list Value) : Forall P l :=
                  match l with
                  | [] => Forall_nil _
                  | x :: r => Forall_cons x (Value_ind x) (all r)
                  end) l)
  | VTuple l =>
      HTuple l ((fix all (l : list Value) : Forall P l :=
                   match l with
                   | [] => Forall_nil _
                   | x :: r => Forall_cons x (Value_ind x) (all r)
                   end) l)
  | VDict d =>
      HDict d ((fix all (d : Dict) : Forall (fun kv => P (snd kv)) d :=
                  match d with
                  | [] => Forall_nil _
                  | kv :: r => Forall_cons kv (Value_ind (snd kv)) (all r)
                  end) d)
  end.
End ValueInduction.

(** Structural equality of values (BSON comparison of same-typed values;
    [True] and [1] are different values here, as they are in BSON). *)
Fixpoint Value_eqb (a b : Value) {struct a} : bool :=
  match a, b with
  | VNone, VNone => true
  | VBool x, VBool y => Bool.eqb x y
  | VInt x, VInt y => Z.eqb x y
  | VStr x, VStr y => String.eqb x y
  | VObjectId x, VObjectId y => N.eqb x y
  | VList xs, VList ys | VTuple xs, VTuple ys =>
      (fix go (xs ys : list Value) : bool :=
         match xs, ys with
         | [], [] => true
         | x :: xs', y :: ys' => Value_eqb x y && go xs' ys'
         | _, _ => false
         end) xs ys
  | VDict xs, VDict ys =>
      (fix go (xs ys : Dict) : bool :=
         match xs, ys with
         | [], [] => true
         | (k, x) :: xs', (k', y) :: ys' =>
             String.eqb k k' && Value_eqb x y && go xs' ys'
         | _, _ => false
         end) xs ys
  | _, _ => false
  end.

(** Python truthiness ([if x:]). An [ObjectId] defines neither [__bool__]
    nor [__len__], so it is always truthy. *)
Definition truthy (v : Value) : bool :=
  match v with
  | VNone => false
  | VBool b => b
  | VInt z => negb (z =? 0)
  | VStr s => negb (String.eqb s "")
  | VObjectId _ => true
  | VList l | VTuple l => match l with [] => false | _ => true end
  | VDict d => match d with [] => false | _ => true end
  end.

(** ** Dict operations *)

(** [d.get(k)] as an option ([None] when the key is absent). *)
Fixpoint dict_lookup (k : string) (d : Dict) : option Value :=
  match d with
  | [] => None
  | (k', v) :: r => if String.eqb k k' then Some v else dict_lookup k r
  end.

(** [d[k] = v]: overwrite in place, or append a new key at the end. *)
Fixpoint dict_set (k : string) (v : Value) (d : Dict) : Dict :=
  match d with
  | [] => [(k, v)]
  | (k', v') :: r =>
      if String.eqb k k' then (k', v) :: r else (k', v') :: dict_set k v r
  end.

(** [item.get(k)]: [None] (the Python value) when the key is absent. *)
Definition dict_get (k : string) (d : Dict) : Value :=
  match dict_lookup k d with Some v => v | None => VNone end.

(** [d.update(p)], the field-merge applied by [$set]. *)
Definition dict_merge (d p : Dict) : Dict :=
  fold_left (fun acc kv => dict_set (fst kv) (snd kv) acc) p d.

(** ** Exceptions and results *)

Inductive Exn : Type :=
| TypeError (msg : string)
| KeyError (key : string)
| ValueError (msg : string)
| RuntimeError (msg : string)
| AttributeError (msg : string)
| DuplicateKeyError
| WriteError (msg : string)
| BulkWriteError
| RedisError (msg : string)
| JSONEncodeError (msg : string)
| JSONDecodeError (msg : string)
| CancelledError.                       (* a BaseException, not an Exception *)

(** [isinstance(e, Exception)]: what an [except Exception] clause catches. *)
Definition is_Exception (e : Exn) : bool :=
  match e with
  | CancelledError => false
  | _ => true
  end.

Inductive Result (A : Type) : Type :=
| Ok (a : A)
| Err (e : Exn).
Arguments Ok {A} a.
Arguments Err {A} e.

(** ** Text rendering: [str()] and [repr()] *)

Definition digit_char (d : N) : ascii :=
  if (d <? 10)%N then ascii_of_N (48 + d) else ascii_of_N (87 + d).

(** Digits of [n] in base [b], most significant first, prepended to [acc].
    [fuel] bounds the number of digits produced. *)
Fixpoint digits_acc (b : N) (fuel : nat) (n : N) (acc : string) : string :=
  match fuel with
  | O => acc
  | S f =>
      let acc' := String (digit_char (n mod b)) acc in
      if (n / b =? 0)%N then acc' else digits_acc b f (n / b) acc'
  end.

(** A number has no more decimal or hexadecimal digits than binary ones. *)
Definition N_to_dec (n : N) : string :=
  digits_acc 10 (S (N.to_nat (N.size n))) n "".
Definition N_to_hex (n : N) : string :=
  digits_acc 16 (S (N.to_nat (N.size n))) n "".

Definition Z_to_dec (z : Z) : string :=
  match z with
  | Z0 => "0"
  | Zpos p => N_to_dec (Npos p)
  | Zneg p => String "-" (N_to_dec (Npos p))
  end.

Fixpoint zeros (k : nat) (s : string) : string :=
  match k with
  | O => s
  | S k' => String "0" (zeros k' s)
  end.

Definition zero_pad (width : nat) (s : string) : string :=
  zeros (width - String.length s) s.

(** [str(ObjectId)]: 24 lower-case hexadecimal digits. *)
Definition ObjectId_str (oid : N) : string := zero_pad 24 (N_to_hex oid).

(** The double-quote character. *)
Definition dquote : ascii := "034"%char.

Fixpoint string_mem (c : ascii) (s : string) : bool :=
  match s with
  | EmptyString => false
  | String c' r => Ascii.eqb c c' || string_mem c r
  end.

(** [repr] of a [str]: single quotes unless the text holds a single quote
    and no double quote; backslash, the quote and control characters are
    escaped. Bytes of non-ASCII characters are kept as they are. *)
Definition repr_char (q : ascii) (c : ascii) : string :=
  let n := N_of_ascii c in
  if Ascii.eqb c "\" then "\\"
  else if Ascii.eqb c q then String "\" (String q "")
  else if (n =? 10)%N then "\n"
  else if (n =? 13)%N then "\r"
  else if (n =? 9)%N then "\t"
  else if ((n <? 32) || (n =? 127))%N
       then "\x" ++ String (digit_char (n / 16)) (String (digit_char (n mod 16)) "")
  else String c "".

Fixpoint repr_chars (q : ascii) (s : string) : string :=
  match s with
  | EmptyString => ""
  | String c r => repr_char q c ++ repr_chars q r
  end.

Definition str_repr (s : string) : string :=
  let q : ascii :=
    if string_mem "'" s && negb (string_mem dquote s) then dquote else "'"%char in
  String q (repr_chars q s ++ String q "").

Fixpoint join (sep : string) (l : list string) : string :=
  match l with
  | [] => ""
  | [x] => x
  | x :: r => x ++ sep ++ join sep r
  end.

Fixpoint py_repr (v : Value) : string :=
  match v with
  | VNone => "None"
  | VBool true => "True"
  | VBool false => "False"
  | VInt z => Z_to_dec z
  | VStr s => str_repr s
  | VObjectId oid => "ObjectId('" ++ ObjectId_str oid ++ "')"
  | VList l => "[" ++ join ", " (map py_repr l) ++ "]"
  | VTuple l =>
      match l with
      | [x] => "(" ++ py_repr x ++ ",)"
      | _ => "(" ++ join ", " (map py_repr l) ++ ")"
      end
  | VDict d =>
      "{" ++ join ", " (map (fun kv => str_repr (fst kv) ++ ": " ++ py_repr (snd kv)) d)
          ++ "}"
  end.

(** [str(v)]. *)
Definition py_str (v : Value) : string :=
  match v with
  | VStr s => s
  | VObjectId oid => ObjectId_str oid
  | _ => py_repr v
  end.

(** ** The document store

    A model of the MongoDB collection behind [self._collection]: documents
    in natural (insertion) order and the driver's ObjectId generator.
    Queries are matched on top-level fields, by equality or with [$in];
    updates are [$set] on top-level fields. *)

Record Collection : Type := mkCollection {
  docs : list Document;
  next_oid : N
}.

Definition starts_with_dollar (k : string) : bool :=
  match k with
  | String c _ => Ascii.eqb c "$"
  | EmptyString => false
  end.

(** A criterion [{"$in": [...]}] is set membership; anything else is
    equality. A missing field compares as null. *)
Definition criterion_holds (crit : Value) (field : option Value) : bool :=
  let v := match field with Some v => v | None => VNone end in
  match crit with
  | VDict [(op, VList cands)] =>
      if String.eqb op "$in" then existsb (Value_eqb v) cands
      else Value_eqb v crit
  | _ => Value_eqb v crit
  end.

Definition matches (q : Dict) (d : Document) : bool :=
  forallb (fun kv => criterion_holds (snd kv) (dict_lookup (fst kv) d)) q.

(** The driver refuses a filter that is not a mapping. *)
Definition as_filter (q : Value) : Result Dict :=
  match q with
  | VDict d => Ok d
  | _ => Err (TypeError "filter must be an instance of dict")
  end.

(** The store refuses an array as [_id], and an embedded document with
    operator-like field names. *)
Definition valid_id (v : Value) : bool :=
  match v with
  | VList _ | VTuple _ => false
  | VDict d => negb (existsb (fun kv => starts_with_dollar (fst kv)) d)
  | _ => true
  end.

(** A stored document carries [_id] as its first field. *)
Definition with_id (id : Value) (values : Dict) : Document :=
  ("_id", id) :: filter (fun kv => negb (String.eqb (fst kv) "_id")) values.

Definition has_id (id : Value) (d : Document) : bool :=
  Value_eqb (dict_get "_id" d) id.

Record InsertOneResult : Type := { inserted_id : Value }.
Record InsertManyResult : Type := { inserted_ids : list Value }.
Record UpdateResult : Type := { matched_count : Z; modified_count : Z }.
Record DeleteResult : Type := { deleted_count : Z }.

Definition result_modified_count (result : UpdateResult) : Z :=
  modified_count result.

(** [insert_one]: the driver adds a fresh ObjectId when the document has no
    [_id]; the store rejects a duplicate. *)
Definition store_insert_one (values : Dict) (st : Collection)
  : Result InsertOneResult * Collection :=
  let '(id, next) :=
    match dict_lookup "_id" values with
    | Some id => (id, next_oid st)
    | None => (VObjectId (next_oid st), N.succ (next_oid st))
    end in
  if negb (valid_id id) then
    (Err (WriteError "invalid _id"), mkCollection (docs st) next)
  else if existsb (has_id id) (docs st) then
    (Err DuplicateKeyError, mkCollection (docs st) next)
  else
    (Ok {| inserted_id := id |},
     mkCollection (docs st ++ [with_id id values]) next).

(** [insert_many] (ordered): documents are inserted one by one; the first
    failure stops the batch and leaves the earlier ones in place. *)
Fixpoint insert_each (data : list Dict) (st : Collection)
  : Result (list Value) * Collection :=
  match data with
  | [] => (Ok [], st)
  | values :: rest =>
      match store_insert_one values st with
      | (Ok r, st1) =>
          match insert_each rest st1 with
          | (Ok ids, st2) => (Ok (inserted_id r :: ids), st2)
          | (Err e, st2) => (Err e, st2)
          end
      | (Err _, st1) => (Err BulkWriteError, st1)
      end
  end.

Definition store_insert_many (data : list Dict) (st : Collection)
  : Result InsertManyResult * Collection :=
  match data with
  | [] => (Err (TypeError "documents must be a non-empty list"), st)
  | _ =>
      match insert_each data st with
      | (Ok ids, st1) => (Ok {| inserted_ids := ids |}, st1)
      | (Err e, st1) => (Err e, st1)
      end
  end.

Definition store_find_one (q : Dict) (st : Collection) : option Document :=
  find (matches q) (docs st).

(** [find(q).skip(offset).limit(limit).to_list(None)]. A negative skip is
    refused; a limit of 0 means no limit and a negative one counts as its
    absolute value. *)
Definition store_find (q : Dict) (offset limit : option Z) (st : Collection)
  : Result (list Document) :=
  let found := filter (matches q) (docs st) in
  match offset with
  | Some o =>
      if o <? 0 then Err (ValueError "skip must be >= 0")
      else
        let skipped := skipn (Z.to_nat o) found in
        match limit with
        | Some l => Ok (if l =? 0 then skipped else firstn (Z.abs_nat l) skipped)
        | None => Ok skipped
        end
  | None =>
      match limit with
      | Some l => Ok (if l =? 0 then found else firstn (Z.abs_nat l) found)
      | None => Ok found
      end
  end.

(** The update document must be [{"$set": {...}}]. *)
Definition parse_update (u : Dict) : Result Dict :=
  match u with
  | [] => Err (ValueError "update cannot be empty")
  | [(op, arg)] =>
      if String.eqb op "$set" then
        match arg with
        | VDict p => Ok p
        | _ => Err (WriteError "modifiers operate on fields")
        end
      else if starts_with_dollar op then Err (WriteError "unknown modifier")
      else Err (ValueError "update only works with $ operators")
  | (op, _) :: _ =>
      if starts_with_dollar op then Err (WriteError "unknown modifier")
      else Err (ValueError "update only works with $ operators")
  end.

(** [$set] on one document: a field-merge; [_id] is immutable. *)
Definition apply_set (p : Dict) (d : Document) : Result Document :=
  match dict_lookup "_id" p with
  | Some id =>
      if has_id id d then Ok (dict_merge d p)
      else Err (WriteError "_id is immutable")
  | None => Ok (dict_merge d p)
  end.

Definition changed (d d' : Document) : Z :=
  if Value_eqb (VDict d) (VDict d') then 0 else 1.

(** Apply [$set p] to the first match ([multi = false]) or to every match
    ([multi = true]) of [q], in natural order. A write error stops the
    operation and keeps what was already written. *)
Fixpoint update_docs (multi : bool) (q p : Dict) (ds : list Document)
  : list Document * Result UpdateResult :=
  match ds with
  | [] => ([], Ok {| matched_count := 0; modified_count := 0 |})
  | d :: r =>
      if matches q d then
        match apply_set p d with
        | Err e => (d :: r, Err e)
        | Ok d' =>
            if multi then
              let '(r', res) := update_docs multi q p r in
              (d' :: r',
               match res with
               | Ok u => Ok {| matched_count := 1 + matched_count u;
                               modified_count := changed d d' + modified_count u |}
               | Err e => Err e
               end)
            else
              (d' :: r, Ok {| matched_count := 1; modified_count := changed d d' |})
        end
      else
        let '(r', res) := update_docs multi q p r in (d :: r', res)
  end.

Definition store_update (multi : bool) (filter : Value) (update : Dict)
    (st : Collection) : Result UpdateResult * Collection :=
  match as_filter filter with
  | Err e => (Err e, st)
  | Ok q =>
      match parse_update update with
      | Err e => (Err e, st)
      | Ok p =>
          let '(ds, res) := update_docs multi q p (docs st) in
          (res, mkCollection ds (next_oid st))
      end
  end.

Definition store_delete_many (q : Dict) (st : Collection)
  : DeleteResult * Collection :=
  ({| deleted_count := Z.of_nat (List.length (filter (matches q) (docs st))) |},
   mkCollection (filter (fun d => negb (matches q d)) (docs st)) (next_oid st)).

Definition store_count_documents (q : Dict) (limit : option Z) (st : Collection)
  : Z :=
  let n := Z.of_nat (List.length (filter (matches q) (docs st))) in
  match limit with
  | Some l => if l <=? 0 then n else Z.min l n
  | None => n
  end.

(** The operations the repository awaits on the collection. *)
Inductive MongoCmd : Type -> Type :=
| InsertOne (values : Dict) : MongoCmd InsertOneResult
| InsertMany (data : list Dict) : MongoCmd InsertManyResult
| FindOne (q : Dict) : MongoCmd (option Document)
| Find (q : Dict) (offset limit : option Z) : MongoCmd (list Document)
| UpdateOne (filter : Value) (update : Dict) : MongoCmd UpdateResult
| UpdateMany (filter : Value) (update : Dict) : MongoCmd UpdateResult
| DeleteMany (q : Dict) : MongoCmd DeleteResult
| CountDocuments (q : Dict) (limit : option Z) : MongoCmd Z.

Definition handle {R : Type} (c : MongoCmd R) (st : Collection)
  : Result R * Collection :=
  match c in MongoCmd R return Result R * Collection with
  | InsertOne values => store_insert_one values st
  | InsertMany data => store_insert_many data st
  | FindOne q => (Ok (store_find_one q st), st)
  | Find q offset limit => (store_find q offset limit st, st)
  | UpdateOne f u => store_update false f u st
  | UpdateMany f u => store_update true f u st
  | DeleteMany q => let '(r, st') := store_delete_many q st in (Ok r, st')
  | CountDocuments q limit => (Ok (store_count_documents q limit st), st)
  end.

(** ** Coroutines

    An [async def] over the collection: it returns, raises, or awaits one
    store operation and continues with its reply. *)
Inductive Coro (A : Type) : Type :=
| Return (a : A)
| Raise (e : Exn)
| Await {R : Type} (c : MongoCmd R) (k : R -> Coro A).
Arguments Return {A} a.
Arguments Raise {A} e.
Arguments Await {A R} c k.

Fixpoint bind {A B : Type} (m : Coro A) (f : A -> Coro B) : Coro B :=
  match m with
  | Return a => f a
  | Raise e => Raise e
  | Await c k => Await c (fun r => bind (k r) f)
  end.

Notation "x <- m ;; k" := (bind m (fun x => k))
  (at level 61, m at next level, right associativity).

(** Other clients of the store: [others] lists what they do to the
    collection just before each successive store operation of the
    coroutine (nothing once the list is exhausted). *)
Definition Interference := list (Collection -> Collection).

Fixpoint run {A : Type} (others : Interference) (m : Coro A) (st : Collection)
  : Result A * Collection :=
  match m with
  | Return a => (Ok a, st)
  | Raise e => (Err e, st)
  | Await c k =>
      let st0 := match others with f :: _ => f st | [] => st end in
      match handle c st0 with
      | (Ok r, st1) => run (tl others) (k r) st1
      | (Err e, st1) => (Err e, st1)
      end
  end.

(** The coroutine alone on the store. *)
Definition run_alone {A : Type} (m : Coro A) (st : Collection)
  : Result A * Collection := run [] m st.

(** ** [MongoDBCRUDRepository] (src/database/repositories/crud.py) *)

Module MongoDBCRUDRepository.

(** [select]: first match with its [_id] turned into a string, or [None].
    [document["_id"]] raises [KeyError] on a document without that key. *)
Definition select (query : Dict) : Coro (option Document) :=
  Await (FindOne query) (fun document =>
    match document with
    | Some document =>
        if truthy (VDict document) then
          match dict_lookup "_id" document with
          | Some id => Return (Some (dict_set "_id" (VStr (py_str id)) document))
          | None => Raise (KeyError "_id")
          end
        else Return None
    | None => Return None
    end).

(** [create]: insert, then re-read by the reported identifier. The
    re-read result is subscripted without a check for [None]. *)
Definition create (values : Dict) : Coro (option Document) :=
  Await (InsertOne values) (fun result =>
    if truthy (inserted_id result) then
      document <- select [("_id", inserted_id result)] ;;
      match document with
      | None => Raise (TypeError "'NoneType' object is not subscriptable")
      | Some document =>
          match dict_lookup "_id" document with
          | Some id => Return (Some (dict_set "_id" (VStr (py_str id)) document))
          | None => Raise (KeyError "_id")
          end
      end
    else Return None).

Definition select_many (query : Dict) (offset limit : option Z)
  : Coro (list Document) :=
  Await (Find query offset limit) (fun documents => Return documents).

Definition create_many (data : list Dict) : Coro (list Document) :=
  Await (InsertMany data) (fun result =>
    select_many [("_id", VDict [("$in", VList (inserted_ids result))])]
                None None).

Definition update (query : Dict) (update : Dict) : Coro (option Document) :=
  Await (UpdateOne (VDict query) [("$set", VDict update)]) (fun _ =>
    select query).

(** The loop of [update_many], entered with the running total
    [modified_count]. *)
Fixpoint update_many_from (modified_count : Z) (data : list Dict) : Coro Z :=
  match data with
  | [] => Return modified_count
  | item :: rest =>
      let query := dict_get "query" item in
      let update := dict_get "update" item in
      if truthy query && truthy update then
        Await (UpdateMany query [("$set", update)]) (fun result =>
          update_many_from (modified_count + result_modified_count result) rest)
      else update_many_from modified_count rest
  end.

Definition update_many (data : list Dict) : Coro Z :=
  update_many_from 0 data.

Definition delete (query : Dict) : Coro (list Document) :=
  deleted_documents <- select_many query None None ;;
  Await (DeleteMany query) (fun _ => Return deleted_documents).

(** [exists] in the source. *)
Definition exists_ (query : Dict) : Coro bool :=
  Await (CountDocuments query (Some 1)) (fun count => Return (count >? 0)).

Definition count (query : Dict) : Coro Z :=
  Await (CountDocuments query None) (fun n => Return n).

End MongoDBCRUDRepository.

(** ** [UserDTO] (src/api/dto/user.py) *)

Record UserDTO : Type := mkUserDTO {
  client_id : string;
  crm_url : string;
  crm_api_key : string;
  module_name : string;
  module_code : string;
  active : option bool;
  freeze : option bool;
  model_fields_set : list string   (* the fields given by the caller *)
}.

(** [UserDTO()]: every field at its default, none set. *)
Definition UserDTO_default : UserDTO :=
  mkUserDTO "" "" "" "" "" (Some false) (Some false) [].

Definition of_optional_bool (b : option bool) : Value :=
  match b with
  | Some b => VBool b
  | None => VNone
  end.

(** [model_dump()]: every declared field, in declaration order. *)
Definition model_dump (u : UserDTO) : Dict :=
  [ ("client_id", VStr (client_id u));
    ("crm_url", VStr (crm_url u));
    ("crm_api_key", VStr (crm_api_key u));
    ("module_name", VStr (module_name u));
    ("module_code", VStr (module_code u));
    ("active", of_optional_bool (active u));
    ("freeze", of_optional_bool (freeze u)) ].

Definition is_None (v : Value) : bool :=
  match v with
  | VNone => true
  | _ => false
  end.

(** [model_dump(exclude_none=True)]: fields whose value is [None] are left
    out; nothing else is. *)
Definition model_dump_exclude_none (u : UserDTO) : Dict :=
  filter (fun kv => negb (is_None (snd kv))) (model_dump u).

(** ** [UserRepository] (src/database/repositories/user.py) *)

Module UserRepository.

Definition get_by_client_id (client : string) : Coro (option Document) :=
  MongoDBCRUDRepository.select [("client_id", VStr client)].

Definition create (user : UserDTO) : Coro (option Document) :=
  MongoDBCRUDRepository.create (model_dump_exclude_none user).

End UserRepository.

(** ** [UserService] (src/services/user.py) *)

Module UserService.

Definition get_user (user_id : string) : Coro (option Document) :=
  UserRepository.get_by_client_id user_id.

Definition create (user : UserDTO) : Coro (option Document) :=
  UserRepository.create user.

End UserService.

(** ** The JSON codec

    A model of [orjson.dumps] and [orjson.loads] over the values above:
    compact output, tuples written as arrays, integers within 64 bits, no
    support for [ObjectId]. Numbers with a fraction or an exponent, or
    beyond 64 bits, are floats for the library; this model has no floats
    and reading rejects them. *)

Module Orjson.

Definition hex2 (n : N) : string :=
  String (digit_char (n / 16)) (String (digit_char (n mod 16)) "").

Definition escape_char (c : ascii) : string :=
  let n := N_of_ascii c in
  if Ascii.eqb c dquote then String "\" (String dquote "")
  else if Ascii.eqb c "\" then "\\"
  else if (n =? 8)%N then "\b"
  else if (n =? 12)%N then "\f"
  else if (n =? 10)%N then "\n"
  else if (n =? 13)%N then "\r"
  else if (n =? 9)%N then "\t"
  else if (n <? 32)%N then "\u00" ++ hex2 n
  else String c "".

Fixpoint escape (s : string) : string :=
  match s with
  | EmptyString => ""
  | String c r => escape_char c ++ escape r
  end.

Definition quote (s : string) : string :=
  String dquote (escape s ++ String dquote "").

Definition int_in_range (z : Z) : bool :=
  (- 2 ^ 63 <=? z) && (z <? 2 ^ 64).

(** What [dumps] accepts. *)
Fixpoint serializable (v : Value) : bool :=
  match v with
  | VNone | VBool _ | VStr _ => true
  | VInt z => int_in_range z
  | VObjectId _ => false
  | VList l | VTuple l => forallb serializable l
  | VDict d => forallb (fun kv => serializable (snd kv)) d
  end.

Fixpoint print (v : Value) : string :=
  match v with
  | VNone => "null"
  | VBool true => "true"
  | VBool false => "false"
  | VInt z => Z_to_dec z
  | VStr s => quote s
  | VObjectId _ => ""
  | VList l | VTuple l => "[" ++ join "," (map print l) ++ "]"
  | VDict d =>
      "{" ++ join "," (map (fun kv => quote (fst kv) ++ ":" ++ print (snd kv)) d)
          ++ "}"
  end.

(** Why [dumps] refuses a value: the first offence it meets while writing,
    an integer beyond 64 bits or an object of a type it does not know. *)
Fixpoint refusal (v : Value) : option string :=
  match v with
  | VNone | VBool _ | VStr _ => None
  | VInt z =>
      if int_in_range z then None else Some "Integer exceeds 64-bit range"
  | VObjectId _ => Some "Type is not JSON serializable: ObjectId"
  | VList l | VTuple l =>
      (fix first (l : list Value) : option string :=
         match l with
         | [] => None
         | x :: r =>
             match refusal x with
             | Some msg => Some msg
             | None => first r
             end
         end) l
  | VDict d =>
      (fix first (d : Dict) : option string :=
         match d with
         | [] => None
         | (_, x) :: r =>
             match refusal x with
             | Some msg => Some msg
             | None => first r
             end
         end) d
  end.

Definition dumps (obj : Value) : Result bytes :=
  match refusal obj with
  | None => Ok (print obj)
  | Some msg => Err (JSONEncodeError msg)
  end.

(** *** Reading *)

Definition is_ws (c : ascii) : bool :=
  let n := N_of_ascii c in
  ((n =? 32) || (n =? 9) || (n =? 10) || (n =? 13))%N.

Fixpoint skip_ws (s : string) : string :=
  match s with
  | String c r => if is_ws c then skip_ws r else s
  | EmptyString => ""
  end.

Definition is_digit (c : ascii) : bool :=
  let n := N_of_ascii c in ((48 <=? n) && (n <=? 57))%N.

Definition digit_val (c : ascii) : N := N_of_ascii c - 48.

Fixpoint read_digits (s : string) (acc : N) : N * string :=
  match s with
  | String c r =>
      if is_digit c then read_digits r (acc * 10 + digit_val c) else (acc, s)
  | EmptyString => (acc, "")
  end.

Definition hex_val (c : ascii) : option N :=
  let n := N_of_ascii c in
  if ((48 <=? n) && (n <=? 57))%N then Some (n - 48)%N
  else if ((97 <=? n) && (n <=? 102))%N then Some (n - 87)%N
  else if ((65 <=? n) && (n <=? 70))%N then Some (n - 55)%N
  else None.

Definition hex4 (a b c d : ascii) : option N :=
  match hex_val a, hex_val b, hex_val c, hex_val d with
  | Some a, Some b, Some c, Some d => Some (((a * 16 + b) * 16 + c) * 16 + d)%N
  | _, _, _, _ => None
  end.

Definition utf8 (cp : N) : string :=
  (if cp <? 128 then String (ascii_of_N cp) ""
   else if cp <? 2048 then
     String (ascii_of_N (192 + cp / 64))
       (String (ascii_of_N (128 + cp mod 64)) "")
   else if cp <? 65536 then
     String (ascii_of_N (224 + cp / 4096))
       (String (ascii_of_N (128 + (cp / 64) mod 64))
          (String (ascii_of_N (128 + cp mod 64)) ""))
   else
     String (ascii_of_N (240 + cp / 262144))
       (String (ascii_of_N (128 + (cp / 4096) mod 64))
          (String (ascii_of_N (128 + (cp / 64) mod 64))
             (String (ascii_of_N (128 + cp mod 64)) ""))))%N.

Definition simple_escape (e : ascii) : option ascii :=
  if Ascii.eqb e dquote then Some dquote
  else if Ascii.eqb e "\" then Some "\"%char
  else if Ascii.eqb e "/" then Some "/"%char
  else if Ascii.eqb e "b" then Some (ascii_of_N 8)
  else if Ascii.eqb e "f" then Some (ascii_of_N 12)
  else if Ascii.eqb e "n" then Some (ascii_of_N 10)
  else if Ascii.eqb e "r" then Some (ascii_of_N 13)
  else if Ascii.eqb e "t" then Some (ascii_of_N 9)
  else None.

Definition prepend (p : string) (r : option (string * string))
  : option (string * string) :=
  match r with
  | Some (s, rest) => Some (p ++ s, rest)
  | None => None
  end.

(** The text of a string after its opening quote, and what follows the
    closing quote. *)
Fixpoint read_string (s : string) : option (string * string) :=
  match s with
  | EmptyString => None
  | String c r =>
      if Ascii.eqb c dquote then Some ("", r)
      else if Ascii.eqb c "\" then
        match r with
        | String e r1 =>
            if Ascii.eqb e "u" then
              match r1 with
              | String h1 (String h2 (String h3 (String h4 r2))) =>
                  match hex4 h1 h2 h3 h4 with
                  | Some cp =>
                      if ((55296 <=? cp) && (cp <? 56320))%N then
                        match r2 with
                        | String b (String u (String g1 (String g2
                            (String g3 (String g4 r3))))) =>
                            match hex4 g1 g2 g3 g4 with
                            | Some lo =>
                                if Ascii.eqb b "\" && Ascii.eqb u "u" &&
                                   ((56320 <=? lo) && (lo <? 57344))%N
                                then prepend
                                       (utf8 (65536 + (cp - 55296) * 1024
                                              + (lo - 56320))%N)
                                       (read_string r3)
                                else None
                            | None => None
                            end
                        | _ => None
                        end
                      else if ((56320 <=? cp) && (cp <? 57344))%N then None
                      else prepend (utf8 cp) (read_string r2)
                  | None => None
                  end
              | _ => None
              end
            else
              match simple_escape e with
              | Some b => prepend (String b "") (read_string r1)
              | None => None
              end
        | EmptyString => None
        end
      else if (N_of_ascii c <? 32)%N then None
      else prepend (String c "") (read_string r)
  end.

Definition starts_fraction (s : string) : bool :=
  match s with
  | String c _ => Ascii.eqb c "." || Ascii.eqb c "e" || Ascii.eqb c "E"
  | EmptyString => false
  end.

Definition read_number (s : string) : Result (Value * string) :=
  let '(negative, s1) :=
    match s with
    | String c r => if Ascii.eqb c "-" then (true, r) else (false, s)
    | EmptyString => (false, s)
    end in
  match s1 with
  | String c r =>
      if negb (is_digit c) then Err (JSONDecodeError "unexpected character")
      else if Ascii.eqb c "0" &&
              match r with String c' _ => is_digit c' | EmptyString => false end
      then Err (JSONDecodeError "leading zero")
      else
        let '(n, rest) := read_digits s1 0 in
        if starts_fraction rest then Err (JSONDecodeError "float")
        else
          let z := if negative then - Z.of_N n else Z.of_N n in
          if int_in_range z then Ok (VInt z, rest)
          else Err (JSONDecodeError "float")
  | EmptyString => Err (JSONDecodeError "unexpected end of data")
  end.

Definition expect (word : string) (v : Value) (s : string)
  : Result (Value * string) :=
  if String.prefix word s
  then Ok (v, String.substring (String.length word)
                (String.length s - String.length word) s)
  else Err (JSONDecodeError "unexpected character").

(** [d[k] = v] for each member in turn: a repeated key keeps its first
    position and its last value. *)
Definition dict_of_members (members : list (string * Value)) : Dict :=
  fold_left (fun acc kv => dict_set (fst kv) (snd kv) acc) members [].

Fixpoint read_value (fuel : nat) (s : string) : Result (Value * string) :=
  match fuel with
  | O => Err (JSONDecodeError "recursion limit")
  | S f =>
      match skip_ws s with
      | EmptyString => Err (JSONDecodeError "unexpected end of data")
      | String c r as s' =>
          if Ascii.eqb c dquote then
            match read_string r with
            | Some (text, rest) => Ok (VStr text, rest)
            | None => Err (JSONDecodeError "invalid string")
            end
          else if Ascii.eqb c "[" then
            match skip_ws r with
            | String c' rest as r' =>
                if Ascii.eqb c' "]" then Ok (VList [], rest)
                else
                  match read_items f r' with
                  | Ok (l, rest) => Ok (VList l, rest)
                  | Err e => Err e
                  end
            | EmptyString => Err (JSONDecodeError "unexpected end of data")
            end
          else if Ascii.eqb c "{" then
            match skip_ws r with
            | String c' rest as r' =>
                if Ascii.eqb c' "}" then Ok (VDict [], rest)
                else
                  match read_members f r' with
                  | Ok (m, rest) => Ok (VDict (dict_of_members m), rest)
                  | Err e => Err e
                  end
            | EmptyString => Err (JSONDecodeError "unexpected end of data")
            end
          else if Ascii.eqb c "n" then expect "null" VNone s'
          else if Ascii.eqb c "t" then expect "true" (VBool true) s'
          else if Ascii.eqb c "f" then expect "false" (VBool false) s'
          else read_number s'
      end
  end

with read_items (fuel : nat) (s : string) : Result (list Value * string) :=
  match fuel with
  | O => Err (JSONDecodeError "recursion limit")
  | S f =>
      match read_value f s with
      | Ok (v, rest) =>
          match skip_ws rest with
          | String c r =>
              if Ascii.eqb c "," then
                match read_items f r with
                | Ok (l, rest') => Ok (v :: l, rest')
                | Err e => Err e
                end
              else if Ascii.eqb c "]" then Ok ([v], r)
              else Err (JSONDecodeError "expected , or ]")
          | EmptyString => Err (JSONDecodeError "unexpected end of data")
          end
      | Err e => Err e
      end
  end

with read_members (fuel : nat) (s : string)
  : Result (list (string * Value) * string) :=
  match fuel with
  | O => Err (JSONDecodeError "recursion limit")
  | S f =>
      match skip_ws s with
      | String q r =>
          if negb (Ascii.eqb q dquote) then Err (JSONDecodeError "expected a key")
          else
            match read_string r with
            | Some (key, rest) =>
                match skip_ws rest with
                | String c r1 =>
                    if negb (Ascii.eqb c ":") then Err (JSONDecodeError "expected :")
                    else
                      match read_value f r1 with
                      | Ok (v, rest1) =>
                          match skip_ws rest1 with
                          | String c' r2 =>
                              if Ascii.eqb c' "," then
                                match read_members f r2 with
                                | Ok (m, rest') => Ok ((key, v) :: m, rest')
                                | Err e => Err e
                                end
                              else if Ascii.eqb c' "}" then Ok ([(key, v)], r2)
                              else Err (JSONDecodeError "expected , or }")
                          | EmptyString =>
                              Err (JSONDecodeError "unexpected end of data")
                          end
                      | Err e => Err e
                      end
                | EmptyString => Err (JSONDecodeError "unexpected end of data")
                end
            | None => Err (JSONDecodeError "invalid string")
            end
      | EmptyString => Err (JSONDecodeError "unexpected end of data")
      end
  end.

(** Every nested value costs at least one byte, so the length of the
    input bounds the recursion. *)
Definition loads (data : bytes) : Result Value :=
  match read_value (S (String.length data)) data with
  | Ok (v, rest) =>
      match skip_ws rest with
      | EmptyString => Ok v
      | String _ _ => Err (JSONDecodeError "trailing characters")
      end
  | Err e => Err e
  end.

End Orjson.

(** ** [OrjsonSerializer] (src/common/serializers/orjson_serializer.py) *)

(** What [loads] is given: [bytes], or [str] when the client decodes. *)
Inductive Payload : Type :=
| PBytes (b : bytes)
| PStr (s : string).

Module OrjsonSerializer.

Definition dumps (obj : Value) : Result bytes := Orjson.dumps obj.

Definition loads (data : Payload) : Result Value :=
  let data := match data with
              | PStr s => s          (* data.encode('utf-8') *)
              | PBytes b => b
              end in
  Orjson.loads data.

Definition dumps_str (obj : Value) : Result string :=
  match Orjson.dumps obj with
  | Ok b => Ok b                     (* .decode('utf-8') *)
  | Err e => Err e
  end.

End OrjsonSerializer.

(** ** The cache server

    What [RedisCache] asks of [redis.asyncio.Redis]: each command takes the
    client to its next state and replies or raises. *)

Class RedisClient (C : Type) : Type := {
  redis_ping : C -> Result unit * C;
  redis_get : string -> C -> Result (option Payload) * C;
  redis_set : string -> bytes -> C -> Result unit * C;
  redis_setex : string -> Z -> bytes -> C -> Result unit * C;
  redis_delete : list string -> C -> Result Z * C;
  redis_exists : string -> C -> Result Z * C;
  redis_expire : string -> Z -> C -> Result bool * C;
  redis_mget : list string -> C -> Result (list (option Payload)) * C;
  redis_mset : list (string * bytes) -> C -> Result unit * C;
  (* a pipeline of [setex] commands, executed at once *)
  redis_pipeline_setex : list (string * bytes) -> Z -> C -> Result unit * C;
  redis_scan_iter : string -> C -> Result (list string) * C;
  redis_ttl : string -> C -> Result Z * C;
  redis_aclose : C -> Result unit * C
}.

(** *** An in-memory server *)

Record Entry : Type := mkEntry {
  entry_data : bytes;
  expires_at : option Z
}.

Record MemRedis : Type := mkMemRedis {
  entries : list (string * Entry);
  now : Z;                       (* the server's clock, in seconds *)
  decode_responses : bool
}.

Definition live (t : Z) (e : Entry) : bool :=
  match expires_at e with
  | Some x => t <? x
  | None => true
  end.

Fixpoint entry_lookup (k : string) (es : list (string * Entry)) : option Entry :=
  match es with
  | [] => None
  | (k', e) :: r => if String.eqb k k' then Some e else entry_lookup k r
  end.

(** The entry of [k], if there is one and it has not expired. *)
Definition mem_find (k : string) (m : MemRedis) : option Entry :=
  match entry_lookup k (entries m) with
  | Some e => if live (now m) e then Some e else None
  | None => None
  end.

Definition entry_remove (k : string) (es : list (string * Entry))
  : list (string * Entry) :=
  filter (fun ke => negb (String.eqb k (fst ke))) es.

Definition mem_put (k : string) (e : Entry) (m : MemRedis) : MemRedis :=
  mkMemRedis ((k, e) :: entry_remove k (entries m)) (now m) (decode_responses m).

Definition mem_drop (k : string) (m : MemRedis) : MemRedis :=
  mkMemRedis (entry_remove k (entries m)) (now m) (decode_responses m).

Definition mem_reply (m : MemRedis) (e : Entry) : Payload :=
  if decode_responses m then PStr (entry_data e) else PBytes (entry_data e).

Definition mem_get (k : string) (m : MemRedis) : option Payload :=
  option_map (mem_reply m) (mem_find k m).

Fixpoint mem_delete (keys : list string) (m : MemRedis) : Z * MemRedis :=
  match keys with
  | [] => (0, m)
  | k :: r =>
      let hit := match mem_find k m with Some _ => 1 | None => 0 end in
      let '(n, m') := mem_delete r (mem_drop k m) in
      (hit + n, m')
  end.

(** Glob patterns of [SCAN ... MATCH]: [*], [?] and literal characters. *)
Fixpoint glob (p s : string) : bool :=
  match p with
  | EmptyString => match s with EmptyString => true | _ => false end
  | String c p' =>
      if Ascii.eqb c "*" then
        (fix star (s : string) : bool :=
           glob p' s || match s with
                        | String _ s' => star s'
                        | EmptyString => false
                        end) s
      else
        match s with
        | String c' s' => (Ascii.eqb c "?" || Ascii.eqb c c') && glob p' s'
        | EmptyString => false
        end
  end.

Definition mem_setex (k : string) (ttl : Z) (v : bytes) (m : MemRedis)
  : Result unit * MemRedis :=
  if ttl <=? 0 then (Err (RedisError "invalid expire time in 'setex' command"), m)
  else (Ok tt, mem_put k (mkEntry v (Some (now m + ttl))) m).

#[export] Instance MemRedis_client : RedisClient MemRedis := {
  redis_ping m := (Ok tt, m);
  redis_get k m := (Ok (mem_get k m), m);
  redis_set k v m := (Ok tt, mem_put k (mkEntry v None) m);
  redis_setex := mem_setex;
  redis_delete keys m := let '(n, m') := mem_delete keys m in (Ok n, m');
  redis_exists k m :=
    (Ok (match mem_find k m with Some _ => 1 | None => 0 end), m);
  redis_expire k ttl m :=
    match mem_find k m with
    | Some e =>
        (Ok true,
         if ttl <=? 0 then mem_drop k m
         else mem_put k (mkEntry (entry_data e) (Some (now m + ttl))) m)
    | None => (Ok false, m)
    end;
  redis_mget keys m := (Ok (map (fun k => mem_get k m) keys), m);
  redis_mset items m :=
    (Ok tt, fold_left (fun m kv => mem_put (fst kv) (mkEntry (snd kv) None) m)
                      items m);
  redis_pipeline_setex items ttl m :=
    if ttl <=? 0 then (Err (RedisError "invalid expire time in 'setex' command"), m)
    else (Ok tt,
          fold_left (fun m kv =>
                       mem_put (fst kv) (mkEntry (snd kv) (Some (now m + ttl))) m)
                    items m);
  redis_scan_iter pattern m :=
    (Ok (map fst (filter (fun ke => live (now m) (snd ke) && glob pattern (fst ke))
                         (entries m))), m);
  redis_ttl k m :=
    (Ok (match mem_find k m with
         | Some e => match expires_at e with
                     | Some x => x - now m
                     | None => -1
                     end
         | None => -2
         end), m);
  redis_aclose m := (Ok tt, m)
}.

(** *** A server that cannot be reached: every command raises. *)

Record DownRedis : Type := mkDownRedis { down_error : Exn }.

#[export] Instance DownRedis_client : RedisClient DownRedis := {
  redis_ping c := (Err (down_error c), c);
  redis_get _ c := (Err (down_error c), c);
  redis_set _ _ c := (Err (down_error c), c);
  redis_setex _ _ _ c := (Err (down_error c), c);
  redis_delete _ c := (Err (down_error c), c);
  redis_exists _ c := (Err (down_error c), c);
  redis_expire _ _ c := (Err (down_error c), c);
  redis_mget _ c := (Err (down_error c), c);
  redis_mset _ c := (Err (down_error c), c);
  redis_pipeline_setex _ _ c := (Err (down_error c), c);
  redis_scan_iter _ c := (Err (down_error c), c);
  redis_ttl _ c := (Err (down_error c), c);
  redis_aclose c := (Err (down_error c), c)
}.

(** ** [RedisCache] (src/common/cache/redis.py) *)

Definition exn_str (e : Exn) : string :=
  match e with
  | TypeError m | ValueError m | RuntimeError m | AttributeError m
  | WriteError m | RedisError m | JSONEncodeError m | JSONDecodeError m => m
  | KeyError k => str_repr k
  | DuplicateKeyError => "duplicate key error"
  | BulkWriteError => "batch op errors occurred"
  | CancelledError => ""
  end.

Inductive Level : Type := INFO | ERROR.

Module RedisCache.

(** The part of the object that the operations read and write: the client
    ([None] until [connect]) and what was sent to the logger. *)
Record t (C : Type) : Type := mk {
  _client : option C;
  log : list (Level * string)
}.
Arguments mk {C} _ _.
Arguments _client {C} _.
Arguments log {C} _.

Section Operations.
Context {C : Type} `{RedisClient C}.

(** A method body: it reads and writes [self], and returns or raises. *)
Definition Method (A : Type) : Type := t C -> Result A * t C.

Definition ret {A : Type} (a : A) : Method A := fun self => (Ok a, self).

Definition raise {A : Type} (e : Exn) : Method A := fun self => (Err e, self).

Definition seq {A B : Type} (m : Method A) (k : A -> Method B) : Method B :=
  fun self =>
    match m self with
    | (Ok a, self') => k a self'
    | (Err e, self') => (Err e, self')
    end.

Notation "x <~ m ;;; k" := (seq m (fun x => k))
  (at level 61, m at next level, right associativity).
Notation "m ;;; k" := (seq m (fun _ => k))
  (at level 61, right associativity).

(** [try: body  except Exception as e: handler e]. *)
Definition try_except {A : Type} (body : Method A) (handler : Exn -> Method A)
  : Method A :=
  fun self =>
    match body self with
    | (Ok a, self') => (Ok a, self')
    | (Err e, self') =>
        if is_Exception e then handler e self' else (Err e, self')
    end.

Definition lift {A : Type} (r : Result A) : Method A := fun self => (r, self).

Definition logger (level : Level) (msg : string) : Method unit :=
  fun self => (Ok tt, mk (_client self) (log self ++ [(level, msg)])).

(** [await self._client.<command>(...)]. *)
Definition call {A : Type} (command : C -> Result A * C) : Method A :=
  fun self =>
    match _client self with
    | Some c => let '(r, c') := command c in (r, mk (Some c') (log self))
    | None => (Err (AttributeError "'NoneType' object has no attribute"), self)
    end.

Definition _ensure_connected : Method unit :=
  fun self =>
    match _client self with
    | Some _ => (Ok tt, self)
    | None =>
        (Err (RuntimeError "Redis client not connected. Call connect() first."),
         self)
    end.

(** [connect]: [client] is the freshly built [redis.Redis] object, pool
    included. The logged message also names host, port and db, which are
    not part of the state kept here. *)
Definition connect (client : C) : Method unit :=
  try_except
    ((fun self => (Ok tt, mk (Some client) (log self))) ;;;
     call redis_ping ;;;
     logger INFO "Redis connected")
    (fun e =>
       logger ERROR ("Failed to connect to Redis: " ++ exn_str e) ;;;
       raise e).

Definition close : Method unit :=
  fun self =>
    match _client self with
    | Some _ => (call redis_aclose ;;; logger INFO "Redis connection closed") self
    | None => (Ok tt, self)
    end.

Definition get (key : string) : Method Value :=
  _ensure_connected ;;;
  try_except
    (data <~ call (redis_get key) ;;;
     match data with
     | None => ret VNone
     | Some data => lift (OrjsonSerializer.loads data)
     end)
    (fun e =>
       logger ERROR ("Redis GET error for key '" ++ key ++ "': " ++ exn_str e) ;;;
       ret VNone).

(** [if ttl:] on an [Optional[int]]. *)
Definition ttl_given (ttl : option Z) : option Z :=
  match ttl with
  | Some n => if n =? 0 then None else Some n
  | None => None
  end.

Definition set (key : string) (value : Value) (ttl : option Z) : Method bool :=
  _ensure_connected ;;;
  try_except
    (data <~ lift (OrjsonSerializer.dumps value) ;;;
     match ttl_given ttl with
     | Some ttl => call (redis_setex key ttl data)
     | None => call (redis_set key data)
     end ;;;
     ret true)
    (fun e =>
       logger ERROR ("Redis SET error for key '" ++ key ++ "': " ++ exn_str e) ;;;
       ret false).

Definition delete (key : string) : Method bool :=
  _ensure_connected ;;;
  try_except
    (result <~ call (redis_delete [key]) ;;;
     ret (result >? 0))
    (fun e =>
       logger ERROR ("Redis DELETE error for key '" ++ key ++ "': " ++ exn_str e) ;;;
       ret false).

(** [exists] in the source. *)
Definition exists_ (key : string) : Method bool :=
  _ensure_connected ;;;
  try_except
    (result <~ call (redis_exists key) ;;;
     ret (result >? 0))
    (fun e =>
       logger ERROR ("Redis EXISTS error for key '" ++ key ++ "': " ++ exn_str e) ;;;
       ret false).

Definition expire (key : string) (ttl : Z) : Method bool :=
  _ensure_connected ;;;
  try_except
    (result <~ call (redis_expire key ttl) ;;;
     ret result)
    (fun e =>
       logger ERROR ("Redis EXPIRE error for key '" ++ key ++ "': " ++ exn_str e) ;;;
       ret false).

(** The loop of [get_many] over [zip(keys, values)], filling [result]. *)
Fixpoint get_many_fill (result : Dict) (pairs : list (string * option Payload))
  : Result Dict :=
  match pairs with
  | [] => Ok result
  | (key, value) :: rest =>
      match value with
      | Some value =>
          match OrjsonSerializer.loads value with
          | Ok v => get_many_fill (dict_set key v result) rest
          | Err e => Err e
          end
      | None => get_many_fill result rest
      end
  end.

Definition get_many (keys : list string) : Method Dict :=
  _ensure_connected ;;;
  match keys with
  | [] => ret []
  | _ =>
      try_except
        (values <~ call (redis_mget keys) ;;;
         lift (get_many_fill [] (combine keys values)))
        (fun e =>
           logger ERROR ("Redis MGET error: " ++ exn_str e) ;;;
           ret [])
  end.

(** [{k: dumps(v) for k, v in data.items()}]. *)
Fixpoint serialize_items (data : Dict) : Result (list (string * bytes)) :=
  match data with
  | [] => Ok []
  | (k, v) :: rest =>
      match OrjsonSerializer.dumps v with
      | Ok b =>
          match serialize_items rest with
          | Ok l => Ok ((k, b) :: l)
          | Err e => Err e
          end
      | Err e => Err e
      end
  end.

Definition set_many (data : Dict) (ttl : option Z) : Method bool :=
  _ensure_connected ;;;
  match data with
  | [] => ret true
  | _ =>
      try_except
        (serialized <~ lift (serialize_items data) ;;;
         match ttl_given ttl with
         | Some ttl => call (redis_pipeline_setex serialized ttl)
         | None => call (redis_mset serialized)
         end ;;;
         ret true)
        (fun e =>
           logger ERROR ("Redis MSET error: " ++ exn_str e) ;;;
           ret false)
  end.

Definition delete_many (keys : list string) : Method Z :=
  _ensure_connected ;;;
  match keys with
  | [] => ret 0
  | _ =>
      try_except
        (result <~ call (redis_delete keys) ;;;
         ret result)
        (fun e =>
           logger ERROR ("Redis DELETE MANY error: " ++ exn_str e) ;;;
           ret 0)
  end.

Definition clear_pattern (pattern : string) : Method Z :=
  _ensure_connected ;;;
  try_except
    (keys <~ call (redis_scan_iter pattern) ;;;
     match keys with
     | [] => ret 0
     | _ => call (redis_delete keys)
     end)
    (fun e =>
       logger ERROR ("Redis CLEAR PATTERN error for '" ++ pattern ++ "': "
                     ++ exn_str e) ;;;
       ret 0).

Definition ttl (key : string) : Method Z :=
  _ensure_connected ;;;
  try_except
    (call (redis_ttl key))
    (fun e =>
       logger ERROR ("Redis TTL error for key '" ++ key ++ "': " ++ exn_str e) ;;;
       ret (-2)).

Definition ping : Method bool :=
  _ensure_connected ;;;
  try_except
    (call redis_ping ;;; ret true)
    (fun e =>
       logger ERROR ("Redis PING error: " ++ exn_str e) ;;;
       ret false).

End Operations.

End RedisCache.

(** ** Notions used to state the properties *)

(** Python's [==] on values: [bool] is a subclass of [int], sequences of
    different types are never equal, dicts compare without regard to
    order. *)
Fixpoint py_eq (a b : Value) {struct a} : bool :=
  match a, b with
  | VNone, VNone => true
  | VBool x, VBool y => Bool.eqb x y
  | VBool x, VInt y | VInt y, VBool x => (if x then 1 else 0) =? y
  | VInt x, VInt y => x =? y
  | VStr x, VStr y => String.eqb x y
  | VObjectId x, VObjectId y => N.eqb x y
  | VList xs, VList ys | VTuple xs, VTuple ys =>
      (fix go (xs ys : list Value) : bool :=
         match xs, ys with
         | [], [] => true
         | x :: xs', y :: ys' => py_eq x y && go xs' ys'
         | _, _ => false
         end) xs ys
  | VDict xs, VDict ys =>
      Nat.eqb (List.length xs) (List.length ys) &&
      (fix go (xs : Dict) : bool :=
         match xs with
         | [] => true
         | (k, x) :: xs' =>
             match dict_lookup k ys with
             | Some y => py_eq x y
             | None => false
             end && go xs'
         end) xs
  | _, _ => false
  end.

(** A Python dict holds each key once. *)
Fixpoint unique_keys (d : Dict) : bool :=
  match d with
  | [] => true
  | (k, _) :: r => negb (existsb (fun kv => String.eqb k (fst kv)) r) && unique_keys r
  end.

Fixpoint well_formed (v : Value) : bool :=
  match v with
  | VList l | VTuple l => forallb well_formed l
  | VDict d => unique_keys d && forallb (fun kv => well_formed (snd kv)) d
  | _ => true
  end.

(** Values of the JSON data model: no tuple anywhere. *)
Fixpoint json_native (v : Value) : bool :=
  match v with
  | VTuple _ => false
  | VList l => forallb json_native l
  | VDict d => forallb (fun kv => json_native (snd kv)) d
  | _ => true
  end.

(** The value with every tuple turned into a list. *)
Fixpoint as_json (v : Value) : Value :=
  match v with
  | VList l | VTuple l => VList (map as_json l)
  | VDict d => VDict (map (fun kv => (fst kv, as_json (snd kv))) d)
  | _ => v
  end.

(** [update_many] as the specification words it: an item is skipped only
    when its query or its patch is missing; every other item is applied,
    and the counts of modified documents are added up. *)
Fixpoint update_many_as_specified (data : list Dict) (st : Collection)
  : Result Z * Collection :=
  match data with
  | [] => (Ok 0, st)
  | item :: rest =>
      if is_None (dict_get "query" item) || is_None (dict_get "update" item)
      then update_many_as_specified rest st
      else
        match store_update true (dict_get "query" item)
                           [("$set", dict_get "update" item)] st with
        | (Ok r, st1) =>
            match update_many_as_specified rest st1 with
            | (Ok n, st2) => (Ok (modified_count r + n), st2)
            | (Err e, st2) => (Err e, st2)
            end
        | (Err e, st1) => (Err e, st1)
        end
  end.

(** The test the code makes on a batch item. *)
Definition applied (item : Dict) : bool :=
  truthy (dict_get "query" item) && truthy (dict_get "update" item).

(** A field of the input that the caller did not set, or that is empty. *)
Definition is_empty (v : Value) : bool :=
  match v with
  | VNone => true
  | VStr s => String.eqb s ""
  | _ => false
  end.

Definition unset_or_empty (u : UserDTO) (field : string) : bool :=
  negb (existsb (String.eqb field) (model_fields_set u))
  || is_empty (dict_get field (model_dump u)).

(** The documents that [$set p] on the matches of [q] would change. *)
Definition modified_by (q p : Dict) (d : Document) : bool :=
  matches q d && negb (Value_eqb (VDict d) (VDict (dict_merge d p))).

(** The last binding of a key in a list of fields. *)
Definition last_binding (k : string) (p : Dict) : option Value :=
  dict_lookup k (rev p).

Definition empty_collection : Collection := mkCollection [] 0.


(** What may follow a number: the end of the data, or a character that
    cannot continue it. *)
Definition number_stop (rest : string) : bool :=
  match rest with
  | EmptyString => true
  | String c _ => negb (Orjson.is_digit c) && negb (Orjson.starts_fraction rest)
  end.

(** Reading back what [print] wrote for [v], whatever follows it. *)
Definition reads_back (v : Value) : Prop :=
  Orjson.serializable v = true ->
  well_formed v = true ->
  forall fuel rest,
    (String.length (Orjson.print v) < fuel)%nat ->
    number_stop rest = true ->
    Orjson.read_value fuel (Orjson.print v ++ rest) = Ok (as_json v, rest).

(** One member of an object, as written. *)
Definition print_member (kv : string * Value) : string :=
  Orjson.quote (fst kv) ++ ":" ++ Orjson.print (snd kv).

(** ** Notions used for the store's invariant and for sequences of calls *)

(** Every stored document carries an [_id]. *)
Definition well_identified (d : Document) : bool :=
  match dict_lookup "_id" d with
  | Some _ => true
  | None => false
  end.

(** No two documents of the list carry the same [_id]. *)
Fixpoint ids_unique (ds : list Document) : bool :=
  match ds with
  | [] => true
  | d :: r => negb (existsb (has_id (dict_get "_id" d)) r) && ids_unique r
  end.

Definition store_ok (st : Collection) : bool :=
  forallb well_identified (docs st) && ids_unique (docs st).

(** The documents that a batch insert stores: each under its identifier. *)
Definition stored_as (ids : list Value) (data : list Dict) : list Document :=
  map (fun p => with_id (fst p) (snd p)) (combine ids data).

(** A patch in which no key is repeated, as in any Python dict; for a batch
    item, its [update] entry when that is a dict. *)
Definition patch_ok (item : Dict) : bool :=
  match dict_get "update" item with
  | VDict p => unique_keys p
  | _ => true
  end.

(** ** Notions used for the cache server *)


(** The message that [_ensure_connected] raises with. *)
Definition not_connected : Exn :=
  RuntimeError "Redis client not connected. Call connect() first.".

(** A key that the server holds and that has not expired. *)
Definition present (m : MemRedis) (k : string) : bool :=
  match mem_find k m with
  | Some _ => true
  | None => false
  end.

(** The keys that a scan for [pattern] yields. *)
Definition scanned (pattern : string) (m : MemRedis) : list string :=
  map fst (filter (fun ke => live (now m) (snd ke) && glob pattern (fst ke))
                  (entries m)).

(** ** [async_mongo_client] (src/database/core/connection.py) *)

Definition default_kwargs : Dict :=
  [ ("maxPoolSize", VInt 20);
    ("minPoolSize", VInt 5);
    ("maxIdleTimeMS", VInt 60000);
    ("serverSelectionTimeoutMS", VInt 5000) ].

(** [{**default_kwargs, **kwargs}]. *)
Definition merged_kwargs (kwargs : Dict) : Dict := dict_merge default_kwargs kwargs.

(** The call [async_mongo_client(uri, **kwargs)], and the keyword arguments
    that it calls [AsyncIOMotorClient] with: [host=uri] and the merged ones.
    [uri] is a named parameter, so a call that also passes it as a keyword
    raises [TypeError] before the body runs; in the body, the call of the
    client raises [TypeError] when [host] is named twice. *)
Definition async_mongo_client (uri : string) (kwargs : Dict) : Result Dict :=
  match dict_lookup "uri" kwargs with
  | Some _ =>
      Err (TypeError "async_mongo_client() got multiple values for argument 'uri'")
  | None =>
      match dict_lookup "host" (merged_kwargs kwargs) with
      | Some _ => Err (TypeError "got multiple values for keyword argument 'host'")
      | None => Ok (("host", VStr uri) :: merged_kwargs kwargs)
      end
  end.

(** ** [Base] (src/database/models/base.py) *)

(** What an attribute of a model object can hold: another model object, a
    list or a tuple, a dict, or any other value. *)
Unset Elimination Schemes.
Inductive PyObject : Type :=
| Plain (v : Value)
| Model (cls : string) (attrs : list (string * PyObject))
| ListOf (items : list PyObject)
| TupleOf (items : list PyObject)
| DictOf (d : list (string * PyObject)).
Set Elimination Schemes.

Section PyObjectInduction.
Variable P : PyObject -> Prop.
Hypothesis HPlain : forall v, P (Plain v).
Hypothesis HModel : forall cls attrs,
  Forall (fun kv => P (snd kv)) attrs -> P (Model cls attrs).
Hypothesis HListOf : forall items, Forall P items -> P (ListOf items).
Hypothesis HTupleOf : forall items, Forall P items -> P (TupleOf items).
Hypothesis HDictOf : forall d, Forall (fun kv => P (snd kv)) d -> P (DictOf d).

Fixpoint PyObject_ind (o : PyObject) : P o :=
  match o with
  | Plain v => HPlain v
  | Model cls attrs =>
      HModel cls attrs
        ((fix all (l : list (string * PyObject)) : Forall (fun kv => P (snd kv)) l :=
            match l with
            | [] => Forall_nil _
            | kv :: r => Forall_cons kv (PyObject_ind (snd kv)) (all r)
            end) attrs)
  | ListOf items =>
      HListOf items
        ((fix all (l : list PyObject) : Forall P l :=
            match l with
            | [] => Forall_nil _
            | x :: r => Forall_cons x (PyObject_ind x) (all r)
            end) items)
  | TupleOf items =>
      HTupleOf items
        ((fix all (l : list PyObject) : Forall P l :=
            match l with
            | [] => Forall_nil _
            | x :: r => Forall_cons x (PyObject_ind x) (all r)
            end) items)
  | DictOf d =>
      HDictOf d
        ((fix all (l : list (string * PyObject)) : Forall (fun kv => P (snd kv)) l :=
            match l with
            | [] => Forall_nil _
            | kv :: r => Forall_cons kv (PyObject_ind (snd kv)) (all r)
            end) d)
  end.
End PyObjectInduction.

(** [attr.startswith("_")]. *)
Definition is_private (attr : string) : bool :=
  match attr with
  | String c _ => Ascii.eqb c "_"
  | EmptyString => false
  end.

(** [self.as_dict()] for the object [self]: the attributes whose name does
    not start with an underscore; a model object becomes its own [as_dict],
    a list or tuple has its elements that are model objects converted, and
    anything else is taken as it is. *)
Fixpoint as_dict (self : PyObject) : list (string * PyObject) :=
  match self with
  | Model _ attrs =>
      (fix each (attrs : list (string * PyObject)) : list (string * PyObject) :=
         match attrs with
         | [] => []
         | (attr, value) :: rest =>
             if is_private attr then each rest
             else
               (attr,
                match value with
                | Model _ _ => DictOf (as_dict value)
                | ListOf items =>
                    ListOf (map (fun v => match v with
                                          | Model _ _ => DictOf (as_dict v)
                                          | _ => v
                                          end) items)
                | TupleOf items =>
                    TupleOf (map (fun v => match v with
                                           | Model _ _ => DictOf (as_dict v)
                                           | _ => v
                                           end) items)
                | _ => value
                end) :: each rest
         end) attrs
  | _ => []
  end.

(** What [as_dict] makes of one attribute value, and of one element of a
    list or tuple. *)
Definition as_dict_element (v : PyObject) : PyObject :=
  match v with
  | Model _ _ => DictOf (as_dict v)
  | _ => v
  end.

Definition as_dict_value (value : PyObject) : PyObject :=
  match value with
  | Model _ _ => DictOf (as_dict value)
  | ListOf items => ListOf (map as_dict_element items)
  | TupleOf items => TupleOf (map as_dict_element items)
  | _ => value
  end.

Fixpoint attr_lookup (k : string) (attrs : list (string * PyObject))
  : option PyObject :=
  match attrs with
  | [] => None
  | (k', v) :: r => if String.eqb k k' then Some v else attr_lookup k r
  end.

(** [isinstance(v, Base)]. *)
Definition is_model (v : PyObject) : bool :=
  match v with
  | Model _ _ => true
  | _ => false
  end.

(** No model object anywhere inside. *)
Fixpoint model_free (o : PyObject) : bool :=
  match o with
  | Plain _ => true
  | Model _ _ => false
  | ListOf items | TupleOf items => forallb model_free items
  | DictOf d => forallb (fun kv => model_free (snd kv)) d
  end.

(** Objects within the reach of [as_dict]: attributes hold plain values,
    model objects of the same kind, or lists and tuples whose elements are
    such model objects or hold no model object at all. *)
Fixpoint within_reach (o : PyObject) : bool :=
  match o with
  | Plain _ => true
  | Model _ attrs =>
      forallb (fun kv =>
                 match snd kv with
                 | Model _ _ => within_reach (snd kv)
                 | ListOf items | TupleOf items =>
                     forallb (fun v => match v with
                                       | Model _ _ => within_reach v
                                       | _ => model_free v
                                       end) items
                 | other => model_free other
                 end) attrs
  | other => model_free other
  end.

(** * Properties *)

(** ** Values and dicts *)

(** ** What the serializer accepts *)

(** [dumps] refuses exactly the values that are not [serializable]. *)
Lemma refusal_serializable : forall v,
  Orjson.serializable v = match Orjson.refusal v with
                          | None => true
                          | Some _ => false
                          end.
Proof.
  induction v using Value_ind; cbn [Orjson.serializable Orjson.refusal];
    try reflexivity.
  - now destruct (Orjson.int_in_range z).
  - induction H as [|x l Hx _ IH]; [reflexivity|].
    cbn [forallb]. rewrite Hx, IH.
    now destruct (Orjson.refusal x).
  - induction H as [|x l Hx _ IH]; [reflexivity|].
    cbn [forallb]. rewrite Hx, IH.
    now destruct (Orjson.refusal x).
  - induction H as [|[k x] d Hx _ IH]; [reflexivity|].
    cbn [forallb snd] in *. rewrite Hx, IH.
    now destruct (Orjson.refusal x).
Qed.

Lemma dumps_serializable : forall v,
  Orjson.serializable v = true -> Orjson.dumps v = Ok (Orjson.print v).
Proof.
  intros v H. unfold Orjson.dumps. rewrite refusal_serializable in H.
  now destruct (Orjson.refusal v).
Qed.

Lemma dumps_rejected : forall v,
  Orjson.serializable v = false ->
  exists msg, Orjson.dumps v = Err (JSONEncodeError msg).
Proof.
  intros v H. unfold Orjson.dumps. rewrite refusal_serializable in H.
  destruct (Orjson.refusal v) as [msg|]; [now exists msg | discriminate H].
Qed.

Lemma Value_eqb_refl : forall v, Value_eqb v v = true.
Proof.
  induction v using Value_ind; simpl.
  - reflexivity.
  - apply Bool.eqb_reflx.
  - apply Z.eqb_refl.
  - apply String.eqb_refl.
  - apply N.eqb_refl.
  - induction H as [|x l Hx _ IH]; [reflexivity|]. now rewrite Hx, IH.
  - induction H as [|x l Hx _ IH]; [reflexivity|]. now rewrite Hx, IH.
  - induction H as [|[k x] d Hx _ IH]; [reflexivity|].
    simpl in Hx. now rewrite String.eqb_refl, Hx, IH.
Qed.

Lemma Value_eqb_sound : forall a b, Value_eqb a b = true -> a = b.
Proof.
  induction a as [|x|x|x|x|l IH|l IH|d IH] using Value_ind;
    intros [|y|y|y|y|l'|l'|d'] H; try discriminate H; cbn [Value_eqb] in H.
  - reflexivity.
  - f_equal. now apply Bool.eqb_prop.
  - f_equal. now apply Z.eqb_eq.
  - f_equal. now apply String.eqb_eq.
  - f_equal. now apply N.eqb_eq.
  - f_equal. revert l' H.
    induction IH as [|x l Hx _ IHl]; intros [|y l'] H; try discriminate H;
      [reflexivity|].
    apply andb_true_iff in H. destruct H as [H1 H2].
    f_equal; [now apply Hx | now apply IHl].
  - f_equal. revert l' H.
    induction IH as [|x l Hx _ IHl]; intros [|y l'] H; try discriminate H;
      [reflexivity|].
    apply andb_true_iff in H. destruct H as [H1 H2].
    f_equal; [now apply Hx | now apply IHl].
  - f_equal. revert d' H.
    induction IH as [|[k x] d Hx _ IHd]; intros [|[k' y] d'] H;
      try discriminate H; [reflexivity|].
    apply andb_true_iff in H. destruct H as [H12 H3].
    apply andb_true_iff in H12. destruct H12 as [H1 H2].
    apply String.eqb_eq in H1. cbn [snd] in Hx.
    f_equal; [f_equal; [exact H1 | now apply Hx] | now apply IHd].
Qed.

Lemma dict_set_twice : forall k v v' d,
  dict_set k v (dict_set k v' d) = dict_set k v d.
Proof.
  intros k v v' d. induction d as [|[k0 v0] d IH]; cbn [dict_set].
  - now rewrite String.eqb_refl.
  - destruct (String.eqb k k0) eqn:E; cbn [dict_set]; rewrite E;
      [reflexivity | now rewrite IH].
Qed.

Lemma dict_lookup_set_same : forall k v d,
  dict_lookup k (dict_set k v d) = Some v.
Proof.
  intros k v d. induction d as [|[k' v'] d IH]; simpl.
  - now rewrite String.eqb_refl.
  - destruct (String.eqb k k') eqn:E; simpl; rewrite E; [reflexivity | exact IH].
Qed.

Lemma dict_lookup_set_other : forall k k' v d,
  String.eqb k k' = false ->
  dict_lookup k (dict_set k' v d) = dict_lookup k d.
Proof.
  intros k k' v d Hk. induction d as [|[k0 v0] d IH]; simpl.
  - now rewrite Hk.
  - destruct (String.eqb k' k0) eqn:E; simpl.
    + apply String.eqb_eq in E. subst k0. now rewrite Hk.
    + destruct (String.eqb k k0); [reflexivity | exact IH].
Qed.

(** ** The store *)

Lemma matches_id : forall id d,
  valid_id id = true -> matches [("_id", id)] d = has_id id d.
Proof.
  intros id d Hv. unfold matches, has_id, dict_get. simpl forallb.
  rewrite andb_true_r. unfold criterion_holds. simpl fst. simpl snd.
  destruct id as [| | | | |l|l|dd]; try reflexivity.
  destruct dd as [|[op arg] dd]; try reflexivity.
  destruct arg; try reflexivity; destruct dd as [|kv dd]; try reflexivity.
  simpl in Hv. rewrite orb_false_r in Hv. apply negb_true_iff in Hv.
  destruct (String.eqb op "$in") eqn:E; [|reflexivity].
  apply String.eqb_eq in E. subst op. discriminate Hv.
Qed.

Lemma has_id_with_id : forall id values, has_id id (with_id id values) = true.
Proof.
  intros. unfold has_id, with_id, dict_get. simpl. apply Value_eqb_refl.
Qed.

Lemma find_app_fresh : forall (A : Type) (f : A -> bool) l d,
  existsb f l = false -> f d = true -> find f (l ++ [d])%list = Some d.
Proof.
  intros A f l d Hl Hd. induction l as [|x l IH]; simpl in *.
  - now rewrite Hd.
  - apply orb_false_iff in Hl. destruct Hl as [Hx Hl]. rewrite Hx. auto.
Qed.

Lemma existsb_ext_eq : forall (A : Type) (f g : A -> bool) l,
  (forall x, f x = g x) -> existsb f l = existsb g l.
Proof.
  intros A f g l Hfg. induction l as [|x l IH]; simpl; [reflexivity|].
  now rewrite Hfg, IH.
Qed.

Lemma find_ext_eq : forall (A : Type) (f g : A -> bool) l,
  (forall x, f x = g x) -> find f l = find g l.
Proof.
  intros A f g l Hfg. induction l as [|x l IH]; simpl; [reflexivity|].
  now rewrite Hfg, IH.
Qed.

(** A successful [insert_one] reports a valid identifier that no stored
    document had, and appends the document under that identifier. *)
Lemma store_insert_one_ok : forall values st res st1,
  store_insert_one values st = (Ok res, st1) ->
  valid_id (inserted_id res) = true /\
  existsb (has_id (inserted_id res)) (docs st) = false /\
  docs st1 = (docs st ++ [with_id (inserted_id res) values])%list.
Proof.
  intros values st res st1 H. unfold store_insert_one in H.
  destruct (dict_lookup "_id" values) as [id|];
    (match type of H with
     | (if negb (valid_id ?i) then _ else _) = _ =>
         destruct (valid_id i) eqn:Hv; simpl in H; [|discriminate H];
         destruct (existsb (has_id i) (docs st)) eqn:Hd; [discriminate H|];
         inversion H; subst; simpl; auto
     end).
Qed.

Lemma store_find_one_inserted : forall values st res st1,
  store_insert_one values st = (Ok res, st1) ->
  store_find_one [("_id", inserted_id res)] st1
  = Some (with_id (inserted_id res) values).
Proof.
  intros values st res st1 H.
  destruct (store_insert_one_ok _ _ _ _ H) as (Hv & Hfresh & Hdocs).
  unfold store_find_one. rewrite Hdocs.
  rewrite (find_ext_eq _ _ (has_id (inserted_id res)))
    by (intro; now apply matches_id).
  apply find_app_fresh; [exact Hfresh | apply has_id_with_id].
Qed.

(** ** [create] *)

(** The document found under a truthy identifier carries it. *)
Lemma found_by_id : forall id st found,
  valid_id id = true ->
  truthy id = true ->
  store_find_one [("_id", id)] st = Some found ->
  dict_lookup "_id" found = Some id /\ truthy (VDict found) = true.
Proof.
  intros id st found Hv Ht Hfind. unfold store_find_one in Hfind.
  apply find_some in Hfind. destruct Hfind as [_ Hm].
  rewrite (matches_id id found Hv) in Hm. unfold has_id, dict_get in Hm.
  apply Value_eqb_sound in Hm.
  destruct (dict_lookup "_id" found) as [id'|] eqn:Hid.
  - subst id'. split; [reflexivity|].
    destruct found; [discriminate Hid | reflexivity].
  - subst id. discriminate Ht.
Qed.

(** C4, as amended. [create(values)] after an insert that succeeded, with
    other clients writing before the insert ([before]) and between the
    insert and the re-read ([between]). The insert always reports an
    identifier, and the document is stored under it. When that identifier
    is truthy (every identifier that the store assigns is), [create] reads
    the document under it from the store as it is at that moment and
    returns what it found there, with [_id] replaced by its string form;
    alone on the store, that is the document just inserted. When the
    identifier is falsy ([None], 0, the empty string, given by the caller
    as [_id]), [create] returns [None] without reading, although the
    document was inserted. *)
Theorem create_returns_reread_document :
  forall values st before between res st1,
    store_insert_one values (before st) = (Ok res, st1) ->
    store_find_one [("_id", inserted_id res)] st1
    = Some (with_id (inserted_id res) values)
    /\ (truthy (inserted_id res) = true ->
        forall found,
          store_find_one [("_id", inserted_id res)] (between st1) = Some found ->
          dict_lookup "_id" found = Some (inserted_id res)
          /\ run [before; between] (MongoDBCRUDRepository.create values) st
             = (Ok (Some (dict_set "_id" (VStr (py_str (inserted_id res))) found)),
                between st1))
    /\ (truthy (inserted_id res) = true ->
        run_alone (MongoDBCRUDRepository.create values) (before st)
        = (Ok (Some (dict_set "_id" (VStr (py_str (inserted_id res)))
                       (with_id (inserted_id res) values))),
           st1))
    /\ (truthy (inserted_id res) = false ->
        run [before; between] (MongoDBCRUDRepository.create values) st
        = (Ok None, st1)).
Proof.
  intros values st before between res st1 H.
  pose proof (store_find_one_inserted _ _ _ _ H) as Hstored.
  destruct (store_insert_one_ok _ _ _ _ H) as (Hvalid & _ & _).
  assert (Hread : forall others st0 st2 found,
            store_insert_one values
              match others with f :: _ => f st0 | [] => st0 end = (Ok res, st1) ->
            match tl others with f :: _ => f st1 | [] => st1 end = st2 ->
            truthy (inserted_id res) = true ->
            store_find_one [("_id", inserted_id res)] st2 = Some found ->
            run others (MongoDBCRUDRepository.create values) st0
            = (Ok (Some (dict_set "_id" (VStr (py_str (inserted_id res))) found)),
               st2)).
  { intros others st0 st2 found Hins Hst2 Ht Hfound.
    destruct (found_by_id _ _ _ Hvalid Ht Hfound) as [Hid Hnonempty].
    unfold MongoDBCRUDRepository.create. cbn [run handle]. rewrite Hins, Ht.
    unfold MongoDBCRUDRepository.select. cbn [bind run handle]. rewrite Hst2.
    rewrite Hfound, Hnonempty, Hid. cbn [bind run].
    rewrite dict_lookup_set_same. cbn [run py_str].
    now rewrite dict_set_twice. }
  split; [exact Hstored|]. split; [|split].
  - intros Ht found Hfound.
    split; [exact (proj1 (found_by_id _ _ _ Hvalid Ht Hfound))|].
    now apply Hread.
  - intro Ht. unfold run_alone. now apply Hread.
  - intro Hf. unfold MongoDBCRUDRepository.create. cbn [run handle].
    now rewrite H, Hf.
Qed.

Lemma create_returns_reread_document_witness :
  run [(fun st => st);
       (fun st => mkCollection
                    (map (fun d => dict_set "active" (VBool true) d) (docs st))
                    (next_oid st))]
      (MongoDBCRUDRepository.create [("client_id", VStr "acme")])
      empty_collection
  = (Ok (Some [("_id", VStr "000000000000000000000000");
               ("client_id", VStr "acme"); ("active", VBool true)]),
     mkCollection [[("_id", VObjectId 0); ("client_id", VStr "acme");
                    ("active", VBool true)]] 1).
Proof.
  destruct (create_returns_reread_document
              [("client_id", VStr "acme")] empty_collection
              (fun st => st)
              (fun st => mkCollection
                           (map (fun d => dict_set "active" (VBool true) d)
                                (docs st))
                           (next_oid st))
              {| inserted_id := VObjectId 0 |}
              (mkCollection [[("_id", VObjectId 0); ("client_id", VStr "acme")]] 1)
              eq_refl) as (_ & Hread & _).
  exact (proj2 (Hread eq_refl _ eq_refl)).
Defined.

(** C4, as stated, fails: for [create(_id=0, client_id="acme")] the insert
    succeeds and reports the identifier 0, under which the document is
    stored and found, yet [create] returns [None]. *)
Lemma create_with_falsy_id_returns_None :
  store_insert_one [("_id", VInt 0); ("client_id", VStr "acme")] empty_collection
  = (Ok {| inserted_id := VInt 0 |},
     mkCollection [[("_id", VInt 0); ("client_id", VStr "acme")]] 0)
  /\ run_alone (MongoDBCRUDRepository.create
                  [("_id", VInt 0); ("client_id", VStr "acme")])
               empty_collection
     = (Ok None, mkCollection [[("_id", VInt 0); ("client_id", VStr "acme")]] 0)
  /\ run_alone (MongoDBCRUDRepository.select [("_id", VInt 0)])
               (mkCollection [[("_id", VInt 0); ("client_id", VStr "acme")]] 0)
     = (Ok (Some [("_id", VStr "0"); ("client_id", VStr "acme")]),
        mkCollection [[("_id", VInt 0); ("client_id", VStr "acme")]] 0).
Proof. repeat split. Qed.

(** C9. When the insert reports a truthy identifier but the re-read finds
    no document (another client removed it in between), [create] subscripts
    the [None] it got and raises [TypeError]; it does not return [None]. *)
Theorem create_reread_none_raises : forall values st before between res st1,
  store_insert_one values (before st) = (Ok res, st1) ->
  truthy (inserted_id res) = true ->
  store_find_one [("_id", inserted_id res)] (between st1) = None ->
  run [before; between] (MongoDBCRUDRepository.create values) st
  = (Err (TypeError "'NoneType' object is not subscriptable"), between st1).
Proof.
  intros values st before between res st1 Hins Hid Hgone.
  unfold MongoDBCRUDRepository.create. simpl run. rewrite Hins, Hid.
  unfold MongoDBCRUDRepository.select. simpl. rewrite Hgone. reflexivity.
Qed.

Lemma create_reread_none_raises_witness :
  run [(fun st => st); (fun st => mkCollection [] (next_oid st))]
      (MongoDBCRUDRepository.create [("client_id", VStr "acme")])
      empty_collection
  = (Err (TypeError "'NoneType' object is not subscriptable"),
     mkCollection [] 1).
Proof.
  exact (create_reread_none_raises
           [("client_id", VStr "acme")] empty_collection
           (fun st => st) (fun st => mkCollection [] (next_oid st))
           {| inserted_id := VObjectId 0 |}
           (mkCollection [[("_id", VObjectId 0); ("client_id", VStr "acme")]] 1)
           eq_refl eq_refl eq_refl).
Defined.

(** ** [update] *)

Lemma dict_lookup_app : forall k (a b : Dict),
  dict_lookup k (a ++ b)%list
  = match dict_lookup k a with
    | Some v => Some v
    | None => dict_lookup k b
    end.
Proof.
  intros k a b. induction a as [|[k' v'] a IH]; simpl; [reflexivity|].
  destruct (String.eqb k k'); [reflexivity | exact IH].
Qed.

(** A field of the merged document is the patch's (last) value for it, or
    else what the document had. *)
Lemma dict_lookup_merge : forall p d k,
  dict_lookup k (dict_merge d p)
  = match last_binding k p with
    | Some v => Some v
    | None => dict_lookup k d
    end.
Proof.
  unfold dict_merge, last_binding.
  induction p as [|[k0 v0] p IH]; intros d k; simpl; [reflexivity|].
  rewrite IH, dict_lookup_app. simpl.
  destruct (dict_lookup k (rev p)); [reflexivity|].
  destruct (String.eqb k k0) eqn:E.
  - apply String.eqb_eq in E. subst k0. apply dict_lookup_set_same.
  - now apply dict_lookup_set_other.
Qed.

Lemma store_update_set : forall multi q p st,
  store_update multi (VDict q) [("$set", VDict p)] st
  = (snd (update_docs multi q p (docs st)),
     mkCollection (fst (update_docs multi q p (docs st))) (next_oid st)).
Proof.
  intros. unfold store_update. simpl.
  now destruct (update_docs multi q p (docs st)).
Qed.

Lemma update_docs_no_match : forall multi q p ds,
  existsb (matches q) ds = false ->
  update_docs multi q p ds
  = (ds, Ok {| matched_count := 0; modified_count := 0 |}).
Proof.
  intros multi q p ds. induction ds as [|d r IH]; simpl; intro H; [reflexivity|].
  apply orb_false_iff in H. destruct H as [Hd Hr].
  now rewrite Hd, (IH Hr).
Qed.

Lemma update_docs_first_match : forall q p pre d post,
  existsb (matches q) pre = false ->
  matches q d = true ->
  update_docs false q p (pre ++ d :: post)%list
  = match apply_set p d with
    | Ok d' =>
        ((pre ++ d' :: post)%list,
         Ok {| matched_count := 1; modified_count := changed d d' |})
    | Err e => ((pre ++ d :: post)%list, Err e)
    end.
Proof.
  intros q p pre d post Hpre Hd.
  induction pre as [|x pre IH]; simpl in *.
  - rewrite Hd. now destruct (apply_set p d).
  - apply orb_false_iff in Hpre. destruct Hpre as [Hx Hpre].
    rewrite Hx, (IH Hpre). now destruct (apply_set p d).
Qed.

Lemma apply_set_ok : forall p d d',
  apply_set p d = Ok d' -> d' = dict_merge d p.
Proof.
  intros p d d'. unfold apply_set.
  destruct (dict_lookup "_id" p); [destruct (has_id v d)|]; congruence.
Qed.

(** C1. [update(query, patch)], alone on the store. With no match nothing
    is written; otherwise the first match (and only it) gets the patch
    merged into its fields: fields named by the patch take its values, all
    others are kept. In both cases the result is what [select(query)], with
    the same query, returns on the store as it is after the write. This is
    not a re-read by identifier: a patch that changes a field the query
    matched on makes [update] return [None] while the updated document is
    still found by its [_id]. *)
Theorem update_sets_first_match_then_reselects :
  (forall st query patch,
      (existsb (matches query) (docs st) = false ->
       run_alone (MongoDBCRUDRepository.update query patch) st
       = run_alone (MongoDBCRUDRepository.select query) st)
      /\
      (forall pre d post,
          docs st = (pre ++ d :: post)%list ->
          existsb (matches query) pre = false ->
          matches query d = true ->
          match apply_set patch d with
          | Ok d' =>
              (forall k,
                  dict_lookup k d'
                  = match last_binding k patch with
                    | Some v => Some v
                    | None => dict_lookup k d
                    end) /\
              run_alone (MongoDBCRUDRepository.update query patch) st
              = run_alone (MongoDBCRUDRepository.select query)
                          (mkCollection (pre ++ d' :: post) (next_oid st))
          | Err e =>
              run_alone (MongoDBCRUDRepository.update query patch) st = (Err e, st)
          end))
  /\
  (exists st query patch found,
      fst (run_alone (MongoDBCRUDRepository.update query patch) st) = Ok None /\
      fst (run_alone (MongoDBCRUDRepository.select [("_id", VObjectId 0)])
             (snd (run_alone (MongoDBCRUDRepository.update query patch) st)))
      = Ok (Some found) /\
      dict_lookup "name" found = dict_lookup "name" patch).
Proof.
  split.
  - intros st query patch. split.
    + intro Hnone.
      unfold run_alone, MongoDBCRUDRepository.update. simpl run.
      rewrite store_update_set, (update_docs_no_match _ _ _ _ Hnone). simpl.
      now destruct st.
    + intros pre d post Hdocs Hpre Hd.
      unfold run_alone, MongoDBCRUDRepository.update. simpl run.
      rewrite store_update_set, Hdocs, (update_docs_first_match _ _ _ _ _ Hpre Hd).
      destruct (apply_set patch d) as [d'|e] eqn:Hset; simpl.
      * split; [|reflexivity].
        intro k. rewrite (apply_set_ok _ _ _ Hset). apply dict_lookup_merge.
      * rewrite <- Hdocs. now destruct st.
  - exists (mkCollection [[("_id", VObjectId 0); ("name", VStr "a")]] 1),
           [("name", VStr "a")], [("name", VStr "b")],
           [("_id", VStr "000000000000000000000000"); ("name", VStr "b")].
    repeat split; reflexivity.
Qed.

(** ** [update_many] *)

Lemma truthy_not_None : forall v, truthy v = true -> is_None v = false.
Proof. intros v H. destruct v; simpl in *; congruence. Qed.

(** The loop against the specification's wording, restricted to the items
    the code applies. *)
Lemma update_many_from_spec : forall data acc st,
  run_alone (MongoDBCRUDRepository.update_many_from acc data) st
  = match update_many_as_specified (filter applied data) st with
    | (Ok n, st') => (Ok (acc + n), st')
    | (Err e, st') => (Err e, st')
    end.
Proof.
  unfold run_alone.
  induction data as [|item rest IH]; intros acc st; simpl.
  - now rewrite Z.add_0_r.
  - unfold applied at 1.
    destruct (truthy (dict_get "query" item) && truthy (dict_get "update" item))
      eqn:Happ.
    + apply andb_true_iff in Happ. destruct Happ as [Hq Hu].
      simpl. rewrite (truthy_not_None _ Hq), (truthy_not_None _ Hu). simpl.
      destruct (store_update true (dict_get "query" item)
                  [("$set", dict_get "update" item)] st) as [[r|e] st1];
        [|reflexivity].
      rewrite IH. unfold result_modified_count.
      destruct (update_many_as_specified (filter applied rest) st1) as [[n|e] st2];
        [|reflexivity].
      now rewrite Z.add_assoc.
    + apply IH.
Qed.

(** [modified_count] of a [$set] on every match: the matches that the merge
    actually changes. *)
Lemma update_docs_modified_count : forall q p ds ds' u,
  update_docs true q p ds = (ds', Ok u) ->
  modified_count u = Z.of_nat (List.length (filter (modified_by q p) ds)).
Proof.
  intros q p ds. induction ds as [|d r IH]; intros ds' u H; simpl in H.
  - inversion H. reflexivity.
  - change (filter (modified_by q p) (d :: r))
      with (if modified_by q p d
            then d :: filter (modified_by q p) r
            else filter (modified_by q p) r).
    unfold modified_by at 1.
    destruct (matches q d) eqn:Hm.
    + rewrite andb_true_l.
      destruct (apply_set p d) as [d'|e] eqn:Hset; [|discriminate H].
      destruct (update_docs true q p r) as [r' [u'|e]] eqn:Hr;
        inversion H; subst; clear H.
      change (modified_count
                {| matched_count := 1 + matched_count u';
                   modified_count := changed d d' + modified_count u' |})
        with (changed d d' + modified_count u').
      rewrite (IH _ _ eq_refl), (apply_set_ok _ _ _ Hset). unfold changed.
      destruct (Value_eqb (VDict d) (VDict (dict_merge d p)));
        cbn [negb modified_count List.length]; lia.
    + rewrite andb_false_l.
      destruct (update_docs true q p r) as [r' res] eqn:Hr.
      inversion H; subst. now apply (IH r').
Qed.

(** C2, as amended. [update_many(batch)], alone on the store, behaves as
    the specification words it on the items the code applies: those whose
    query and patch are both present and non-empty, each applied in order to
    the store the previous ones left, the counts of modified documents added
    up. An item whose query or patch is missing, null or empty adds nothing
    and causes no store operation: with it the loop is the very same
    coroutine as without it, awaiting the same store operations and no
    other, whatever the running total and whatever other clients do. The
    count of one applied item is the number of matching documents that its
    merge changes. *)
Theorem update_many_sums_applied_items : forall data st,
  run_alone (MongoDBCRUDRepository.update_many data) st
  = update_many_as_specified (filter applied data) st
  /\ (forall item,
         applied item = false ->
         (forall acc,
            MongoDBCRUDRepository.update_many_from acc (item :: data)
            = MongoDBCRUDRepository.update_many_from acc data)
         /\ MongoDBCRUDRepository.update_many (item :: data)
            = MongoDBCRUDRepository.update_many data
         /\ (forall others,
               run others (MongoDBCRUDRepository.update_many (item :: data)) st
               = run others (MongoDBCRUDRepository.update_many data) st))
  /\ (forall q p n st',
         applied [("query", VDict q); ("update", VDict p)] = true ->
         run_alone (MongoDBCRUDRepository.update_many
                      [[("query", VDict q); ("update", VDict p)]]) st
         = (Ok n, st') ->
         n = Z.of_nat (List.length (filter (modified_by q p) (docs st)))).
Proof.
  intros data st. unfold MongoDBCRUDRepository.update_many. split; [|split].
  - rewrite update_many_from_spec.
    now destruct (update_many_as_specified (filter applied data) st) as [[n|e] st'].
  - intros item Hskip.
    assert (Hsame : forall acc,
              MongoDBCRUDRepository.update_many_from acc (item :: data)
              = MongoDBCRUDRepository.update_many_from acc data).
    { intro acc. cbn [MongoDBCRUDRepository.update_many_from].
      unfold applied in Hskip. now rewrite Hskip. }
    split; [exact Hsame|]. split; [apply Hsame|].
    intro others. now rewrite Hsame.
  - intros q p n st' Happ Hrun.
    rewrite update_many_from_spec in Hrun. simpl filter in Hrun.
    rewrite Happ in Hrun.
    change (update_many_as_specified [[("query", VDict q); ("update", VDict p)]] st)
      with (match store_update true (VDict q) [("$set", VDict p)] st with
            | (Ok r, st1) => (Ok (modified_count r + 0), st1)
            | (Err e, st1) => (Err e, st1)
            end) in Hrun.
    rewrite store_update_set in Hrun.
    destruct (update_docs true q p (docs st)) as [ds' [u|e]] eqn:Hup;
      cbn [fst snd] in Hrun; [|discriminate Hrun].
    inversion Hrun; subst. rewrite ?Z.add_0_l, ?Z.add_0_r.
    now apply (update_docs_modified_count _ _ _ _ _ Hup).
Qed.

(** C2, as stated, fails: an item with the empty query [{}] is not missing
    its query, and its patch would modify the stored document, yet the code
    skips it and returns 0. *)
Lemma update_many_skips_empty_query :
  run_alone (MongoDBCRUDRepository.update_many
               [[("query", VDict []); ("update", VDict [("active", VBool true)])]])
            (mkCollection [[("_id", VObjectId 0); ("active", VBool false)]] 1)
  = (Ok 0, mkCollection [[("_id", VObjectId 0); ("active", VBool false)]] 1)
  /\
  update_many_as_specified
    [[("query", VDict []); ("update", VDict [("active", VBool true)])]]
    (mkCollection [[("_id", VObjectId 0); ("active", VBool false)]] 1)
  = (Ok 1, mkCollection [[("_id", VObjectId 0); ("active", VBool true)]] 1).
Proof. split; reflexivity. Qed.

(** ** [delete] *)

(** C3. [delete(query)], with other clients writing before the read phase
    ([before]) and between the read and the delete phase ([between]):
    the result is exactly the documents that matched at the read phase; the
    delete phase then removes every document matching at that later time. A
    document that was not in the collection at the read phase is not in the
    result; in particular one that an insert adds after the read phase is
    not. *)
Theorem delete_returns_read_snapshot : forall query st before between,
  run [before; between] (MongoDBCRUDRepository.delete query) st
  = (Ok (filter (matches query) (docs (before st))),
     mkCollection
       (filter (fun d => negb (matches query d)) (docs (between (before st))))
       (next_oid (between (before st))))
  /\ (forall d,
         In d (filter (matches query) (docs (before st)))
         <-> In d (docs (before st)) /\ matches query d = true)
  /\ (forall d,
         ~ In d (docs (before st)) ->
         ~ In d (filter (matches query) (docs (before st))))
  /\ (forall values res st2,
         store_insert_one values (before st) = (Ok res, st2) ->
         In (with_id (inserted_id res) values) (docs st2) /\
         ~ In (with_id (inserted_id res) values)
              (filter (matches query) (docs (before st)))).
Proof.
  intros query st before between. split; [reflexivity|]. split; [|split].
  - intro d. apply filter_In.
  - intros d Hnew Hin. apply filter_In in Hin. tauto.
  - intros values res st2 Hins.
    destruct (store_insert_one_ok _ _ _ _ Hins) as (_ & Hfresh & Hdocs).
    split; [rewrite Hdocs; apply in_or_app; right; now left|].
    intro Hin. apply filter_In in Hin. destruct Hin as [Hin _].
    assert (Hex : existsb (has_id (inserted_id res)) (docs (before st)) = true).
    { apply existsb_exists. eexists. split; [exact Hin | apply has_id_with_id]. }
    congruence.
Qed.

(** ** Identifier forms *)

Lemma In_firstn : forall (A : Type) n (l : list A) x,
  In x (firstn n l) -> In x l.
Proof.
  intros A n. induction n as [|n IH]; intros [|y l] x H; simpl in *; try tauto.
  destruct H as [H|H]; [now left | right; now apply IH].
Qed.

Lemma In_skipn : forall (A : Type) n (l : list A) x,
  In x (skipn n l) -> In x l.
Proof.
  intros A n. induction n as [|n IH]; intros [|y l] x H; simpl in *; try tauto.
  right. now apply IH.
Qed.

(** [find] with a skip and a limit returns stored documents, as stored. *)
Lemma store_find_stored : forall q offset limit st ds,
  store_find q offset limit st = Ok ds ->
  forall d, In d ds -> In d (docs st) /\ matches q d = true.
Proof.
  intros q offset limit st ds H d Hd. apply filter_In. revert H.
  unfold store_find.
  destruct offset as [o|]; [destruct (o <? 0); [discriminate|]|];
    (destruct limit as [l|]; [destruct (l =? 0)|]);
    intro H; inversion H; subst; clear H;
    repeat (first [ apply In_firstn in Hd | apply In_skipn in Hd ]); exact Hd.
Qed.

Lemma run_select_many : forall others q offset limit st ds st',
  run others (MongoDBCRUDRepository.select_many q offset limit) st = (Ok ds, st') ->
  st' = match others with f :: _ => f st | [] => st end /\
  store_find q offset limit st' = Ok ds.
Proof.
  intros others q offset limit st ds st'.
  unfold MongoDBCRUDRepository.select_many. simpl run.
  destruct (store_find q offset limit
              match others with f :: _ => f st | [] => st end) as [r|e] eqn:E;
    intro H; inversion H; subst; auto.
Qed.

Lemma run_create_ok : forall values st res st1,
  store_insert_one values st = (Ok res, st1) ->
  truthy (inserted_id res) = true ->
  run_alone (MongoDBCRUDRepository.create values) st
  = (Ok (Some (dict_set "_id" (VStr (py_str (inserted_id res)))
                        (with_id (inserted_id res) values))),
     st1).
Proof.
  intros values st res st1 H Hid.
  pose proof (store_find_one_inserted _ _ _ _ H) as Hfind.
  unfold run_alone, MongoDBCRUDRepository.create. cbn [run handle]. rewrite H, Hid.
  unfold MongoDBCRUDRepository.select. cbn [bind run handle tl].
  rewrite Hfind. reflexivity.
Qed.

(** C10. The identifier is not returned in one form. [select] returns the
    first match with [_id] replaced by the string form of the stored
    identifier, and [create] returns the inserted document with [_id]
    replaced by the string form of the identifier it is stored under.
    [select_many] returns the stored documents as they are, [_id] in the
    store's own form, and so do [create_many] and [delete], whose results
    are those of [select_many]. On one store, [select] and [create] answer
    with a string where [select_many], [delete] and [create_many] answer
    with an [ObjectId]. *)
Theorem identifier_normalization_not_uniform :
  (forall q st d0 id,
      store_find_one q st = Some d0 ->
      dict_lookup "_id" d0 = Some id ->
      run_alone (MongoDBCRUDRepository.select q) st
      = (Ok (Some (dict_set "_id" (VStr (py_str id)) d0)), st)
      /\ dict_lookup "_id" (dict_set "_id" (VStr (py_str id)) d0)
         = Some (VStr (py_str id)))
  /\ (forall values st res st1,
         store_insert_one values st = (Ok res, st1) ->
         truthy (inserted_id res) = true ->
         In (with_id (inserted_id res) values) (docs st1)
         /\ dict_lookup "_id" (with_id (inserted_id res) values)
            = Some (inserted_id res)
         /\ run_alone (MongoDBCRUDRepository.create values) st
            = (Ok (Some (dict_set "_id" (VStr (py_str (inserted_id res)))
                           (with_id (inserted_id res) values))),
               st1)
         /\ dict_lookup "_id"
              (dict_set "_id" (VStr (py_str (inserted_id res)))
                 (with_id (inserted_id res) values))
            = Some (VStr (py_str (inserted_id res))))
  /\ (forall q st,
         run_alone (MongoDBCRUDRepository.select_many q None None) st
         = (Ok (filter (matches q) (docs st)), st))
  /\ (forall others q offset limit st ds st',
         run others (MongoDBCRUDRepository.select_many q offset limit) st
         = (Ok ds, st') ->
         forall d, In d ds -> In d (docs st'))
  /\ (forall data st res st1,
         store_insert_many data st = (Ok res, st1) ->
         run_alone (MongoDBCRUDRepository.create_many data) st
         = (Ok (filter (matches [("_id", VDict [("$in", VList (inserted_ids res))])])
                       (docs st1)),
            st1))
  /\ (forall q st,
         fst (run_alone (MongoDBCRUDRepository.delete q) st)
         = Ok (filter (matches q) (docs st)))
  /\ (let st := mkCollection [[("_id", VObjectId 7); ("client_id", VStr "acme")]] 8 in
      let q := [("client_id", VStr "acme")] in
      fst (run_alone (MongoDBCRUDRepository.select q) st)
      = Ok (Some [("_id", VStr "000000000000000000000007");
                  ("client_id", VStr "acme")])
      /\ fst (run_alone (MongoDBCRUDRepository.create [("client_id", VStr "new")]) st)
         = Ok (Some [("_id", VStr "000000000000000000000008");
                     ("client_id", VStr "new")])
      /\ fst (run_alone (MongoDBCRUDRepository.select_many q None None) st)
         = Ok [[("_id", VObjectId 7); ("client_id", VStr "acme")]]
      /\ fst (run_alone (MongoDBCRUDRepository.delete q) st)
         = Ok [[("_id", VObjectId 7); ("client_id", VStr "acme")]]
      /\ fst (run_alone (MongoDBCRUDRepository.create_many
                           [[("client_id", VStr "new")]]) st)
         = Ok [[("_id", VObjectId 8); ("client_id", VStr "new")]]).
Proof.
  split; [|split; [|split; [|split; [|split; [|split]]]]].
  - intros q st d0 id Hfind Hid.
    split; [|apply dict_lookup_set_same].
    unfold run_alone, MongoDBCRUDRepository.select. cbn [run handle].
    rewrite Hfind, Hid.
    destruct d0; [discriminate Hid | reflexivity].
  - intros values st res st1 Hins Ht.
    destruct (store_insert_one_ok _ _ _ _ Hins) as (_ & _ & Hdocs).
    split; [rewrite Hdocs; apply in_or_app; right; now left|].
    split; [reflexivity|].
    split; [now apply run_create_ok | apply dict_lookup_set_same].
  - reflexivity.
  - intros others q offset limit st ds st' H d Hd.
    destruct (run_select_many _ _ _ _ _ _ _ H) as [_ Hfind].
    now apply (store_find_stored _ _ _ _ _ Hfind).
  - intros data st res st1 Hins.
    unfold run_alone, MongoDBCRUDRepository.create_many,
      MongoDBCRUDRepository.select_many.
    cbn [run handle]. rewrite Hins. reflexivity.
  - intros q st. reflexivity.
  - repeat split.
Qed.

(** ** User creation *)

Lemma dict_lookup_without_id : forall k values,
  String.eqb k "_id" = false ->
  dict_lookup k (filter (fun kv => negb (String.eqb (fst kv) "_id")) values)
  = dict_lookup k values.
Proof.
  intros k values Hk. induction values as [|[k' v'] r IH]; [reflexivity|].
  cbn [filter fst]. destruct (String.eqb k' "_id") eqn:E; cbn [negb dict_lookup].
  - apply String.eqb_eq in E. subst k'. now rewrite Hk.
  - now rewrite IH.
Qed.

(** What [model_dump(exclude_none=True)] keeps of each declared field. *)
Lemma model_dump_exclude_none_lookup : forall user k,
  dict_lookup k (model_dump_exclude_none user)
  = match dict_lookup k (model_dump user) with
    | Some VNone => None
    | other => other
    end.
Proof.
  intros user k. unfold model_dump_exclude_none, model_dump.
  destruct (active user) as [a|]; destruct (freeze user) as [f|];
    cbn [filter snd is_None negb of_optional_bool dict_lookup];
    repeat match goal with
           | |- context [String.eqb k ?s] =>
               destruct (String.eqb_spec k s) as [->|_]
           end;
    reflexivity.
Qed.

(** C7, as amended. The service hands the repository's [create] the
    declared fields of the input whose value is not [None], each with its
    value; only [None]-valued fields are left out. After a successful insert
    the stored document holds, besides [_id], exactly those fields: defaults
    of fields the caller did not set and empty strings are stored too. *)
Theorem create_strips_only_None_fields : forall user,
  UserService.create user
  = MongoDBCRUDRepository.create (model_dump_exclude_none user)
  /\ (forall k,
         dict_lookup k (model_dump_exclude_none user)
         = match dict_lookup k (model_dump user) with
           | Some VNone => None
           | other => other
           end)
  /\ (forall st res st1,
         store_insert_one (model_dump_exclude_none user) st = (Ok res, st1) ->
         exists stored,
           In stored (docs st1) /\
           dict_lookup "_id" stored = Some (inserted_id res) /\
           forall k,
             String.eqb k "_id" = false ->
             dict_lookup k stored
             = match dict_lookup k (model_dump user) with
               | Some VNone => None
               | other => other
               end).
Proof.
  intro user. split; [reflexivity|]. split.
  - apply model_dump_exclude_none_lookup.
  - intros st res st1 H.
    destruct (store_insert_one_ok _ _ _ _ H) as (_ & _ & Hdocs).
    exists (with_id (inserted_id res) (model_dump_exclude_none user)).
    split; [rewrite Hdocs; apply in_or_app; right; now left|].
    split; [reflexivity|].
    intros k Hk. unfold with_id. cbn [dict_lookup]. rewrite Hk.
    rewrite (dict_lookup_without_id _ _ Hk).
    apply model_dump_exclude_none_lookup.
Qed.

(** C7, as stated, fails: for [UserDTO()], where no field was set and
    [client_id] is the empty string, the document that the service inserts
    still holds [client_id]. *)
Lemma create_keeps_unset_and_empty_fields :
  unset_or_empty UserDTO_default "client_id" = true /\
  exists stored,
    In stored (docs (snd (run_alone (UserService.create UserDTO_default)
                                    empty_collection))) /\
    dict_lookup "client_id" stored = Some (VStr "").
Proof.
  split; [reflexivity|].
  eexists. split; [left; reflexivity | reflexivity].
Qed.

(** ** The cache client *)

Section CacheErrors.
Context {C : Type} `{RedisClient C}.


Lemma try_except_caught : forall (A : Type) (body : @RedisCache.Method C A)
    (msg : Exn -> string) (default : A) self self' e,
  body self = (Err e, self') ->
  is_Exception e = true ->
  fst (RedisCache.try_except body
         (fun e => RedisCache.seq (RedisCache.logger ERROR (msg e))
                     (fun _ => RedisCache.ret default)) self) = Ok default.
Proof.
  intros A body msg default self self' e Hbody He.
  unfold RedisCache.try_except. now rewrite Hbody, He.
Qed.

Lemma call_connected : forall (A : Type) (command : C -> Result A * C) c lg,
  RedisCache.call command (RedisCache.mk (Some c) lg)
  = (fst (command c), RedisCache.mk (Some (snd (command c))) lg).
Proof.
  intros. unfold RedisCache.call. simpl. now destruct (command c).
Qed.
End CacheErrors.



(** ** [get_many] *)


(** ** The JSON codec: reading back what was written *)

Section JsonRoundTrip.
Import Orjson.

Lemma string_app_assoc : forall a b c : string, (a ++ b) ++ c = a ++ (b ++ c).
Proof.
  induction a as [|x a IH]; intros b c; simpl; [reflexivity | now rewrite IH].
Qed.

Lemma string_app_nil_r : forall a : string, a ++ "" = a.
Proof. induction a as [|x a IH]; simpl; [reflexivity | now rewrite IH]. Qed.

Lemma string_length_app : forall a b : string,
  String.length (a ++ b) = (String.length a + String.length b)%nat.
Proof.
  induction a as [|x a IH]; intro b; simpl; [reflexivity | now rewrite IH].
Qed.

Lemma substring_all : forall s : string, String.substring 0 (String.length s) s = s.
Proof. induction s as [|x s IH]; simpl; [reflexivity | now rewrite IH]. Qed.

(** *** Integers *)

Lemma small_cases : forall d : N,
  (d < 10)%N ->
  d = 0%N \/ d = 1%N \/ d = 2%N \/ d = 3%N \/ d = 4%N \/
  d = 5%N \/ d = 6%N \/ d = 7%N \/ d = 8%N \/ d = 9%N.
Proof. intros d H. lia. Qed.

Lemma digit_char_is_digit : forall d,
  (d < 10)%N ->
  is_digit (digit_char d) = true /\ digit_val (digit_char d) = d.
Proof.
  intros d H.
  destruct (small_cases d H) as [->|[->|[->|[->|[->|[->|[->|[->|[->| ->]]]]]]]]];
    split; reflexivity.
Qed.

Lemma digit_char_nonzero : forall d,
  (0 < d < 10)%N -> Ascii.eqb (digit_char d) "0" = false.
Proof.
  intros d [H0 H].
  destruct (small_cases d H) as [->|[->|[->|[->|[->|[->|[->|[->|[->| ->]]]]]]]]];
    try reflexivity. lia.
Qed.

(** The accumulator of [digits_acc] is only ever a suffix. *)
Lemma digits_acc_suffix : forall fuel n acc,
  digits_acc 10 fuel n acc = digits_acc 10 fuel n "" ++ acc.
Proof.
  induction fuel as [|f IH]; intros n acc; simpl; [reflexivity|].
  destruct (n / 10 =? 0)%N; [reflexivity|].
  rewrite IH, (IH _ (String _ "")), string_app_assoc. reflexivity.
Qed.

(** Reading the digits written for [n] gives [n] back. *)
Lemma read_digits_acc : forall fuel n tail,
  (n < 10 ^ N.of_nat fuel)%N ->
  read_digits (digits_acc 10 fuel n tail) 0 = read_digits tail n.
Proof.
  induction fuel as [|f IH]; intros n tail Hn.
  - simpl in *. now replace n with 0%N by lia.
  - cbn [digits_acc].
    assert (Hd : (n mod 10 < 10)%N) by (apply N.mod_lt; lia).
    destruct (digit_char_is_digit _ Hd) as [Hdig Hval].
    pose proof (N.div_mod n 10 ltac:(lia)) as Hdm.
    destruct (n / 10 =? 0)%N eqn:Hq.
    + apply N.eqb_eq in Hq. cbn [read_digits]. rewrite Hdig, Hval.
      f_equal. lia.
    + apply N.eqb_neq in Hq. rewrite IH.
      * cbn [read_digits]. rewrite Hdig, Hval. f_equal. lia.
      * rewrite Nnat.Nat2N.inj_succ, N.pow_succ_r' in Hn.
        apply N.Div0.div_lt_upper_bound. lia.
Qed.

(** The first digit written for a positive number is not a zero. *)
Lemma digits_acc_head : forall fuel n tail,
  (n < 10 ^ N.of_nat fuel)%N -> (0 < n)%N ->
  exists c r,
    digits_acc 10 fuel n tail = String c r /\
    is_digit c = true /\ Ascii.eqb c "0" = false.
Proof.
  induction fuel as [|f IH]; intros n tail Hn Hpos.
  - simpl in Hn. lia.
  - cbn [digits_acc].
    pose proof (N.div_mod n 10 ltac:(lia)) as Hdm.
    assert (Hd : (n mod 10 < 10)%N) by (apply N.mod_lt; lia).
    destruct (n / 10 =? 0)%N eqn:Hq.
    + apply N.eqb_eq in Hq. eexists _, _. split; [reflexivity|]. split.
      * now apply digit_char_is_digit.
      * apply digit_char_nonzero. lia.
    + apply N.eqb_neq in Hq. apply IH; [|lia].
      rewrite Nnat.Nat2N.inj_succ, N.pow_succ_r' in Hn.
      apply N.Div0.div_lt_upper_bound. lia.
Qed.

Lemma dec_fuel_enough : forall n, (n < 10 ^ N.of_nat (S (N.to_nat (N.size n))))%N.
Proof.
  intro n. rewrite Nnat.Nat2N.inj_succ, Nnat.N2Nat.id, N.pow_succ_r'.
  pose proof (N.size_gt n) as Hs.
  assert (Hle : (2 ^ N.size n <= 10 ^ N.size n)%N)
    by (apply N.pow_le_mono_l; lia).
  lia.
Qed.

Lemma read_digits_stop : forall rest n,
  number_stop rest = true -> read_digits rest n = (n, rest).
Proof.
  intros [|c r] n H; [reflexivity|].
  simpl in H. apply andb_true_iff in H. destruct H as [H _].
  apply negb_true_iff in H. cbn [read_digits]. now rewrite H.
Qed.

Lemma read_digits_dec : forall n rest,
  number_stop rest = true ->
  read_digits (N_to_dec n ++ rest) 0 = (n, rest).
Proof.
  intros n rest H. unfold N_to_dec.
  rewrite <- digits_acc_suffix, read_digits_acc by apply dec_fuel_enough.
  now apply read_digits_stop.
Qed.

Lemma N_to_dec_head : forall p rest,
  exists c r,
    N_to_dec (Npos p) ++ rest = String c r /\
    is_digit c = true /\ Ascii.eqb c "0" = false.
Proof.
  intros p rest. unfold N_to_dec. rewrite <- digits_acc_suffix.
  apply digits_acc_head; [apply dec_fuel_enough | lia].
Qed.

Lemma is_digit_not_minus : forall c, is_digit c = true -> Ascii.eqb c "-" = false.
Proof.
  intros c H. destruct (Ascii.eqb_spec c "-") as [->|]; [discriminate H | reflexivity].
Qed.

Lemma number_stop_fraction : forall rest,
  number_stop rest = true -> starts_fraction rest = false.
Proof.
  intros [|c r] H; [reflexivity|].
  unfold number_stop in H. apply andb_true_iff in H. destruct H as [_ H].
  now apply negb_true_iff in H.
Qed.

(** Reading a positive number that was written, with or without a sign. *)
Lemma read_number_pos : forall (negative : bool) p rest,
  number_stop rest = true ->
  int_in_range (if negative then Zneg p else Zpos p) = true ->
  read_number ((if negative then String "-" (N_to_dec (Npos p))
                else N_to_dec (Npos p)) ++ rest)
  = Ok (VInt (if negative then Zneg p else Zpos p), rest).
Proof.
  intros negative p rest Hstop Hrange.
  destruct (N_to_dec_head p rest) as (c & r & Hhead & Hdig & Hnz).
  pose proof (read_digits_dec (Npos p) rest Hstop) as Hread.
  rewrite Hhead in Hread.
  unfold read_number.
  destruct negative.
  - change (String "-" (N_to_dec (N.pos p)) ++ rest)
      with (String "-" (N_to_dec (N.pos p) ++ rest)).
    rewrite Hhead. cbn [Ascii.eqb Bool.eqb]. cbv iota.
    rewrite Hdig, Hnz. cbn [negb andb]. rewrite Hread.
    rewrite (number_stop_fraction _ Hstop).
    change (- Z.of_N (N.pos p)) with (Zneg p). now rewrite Hrange.
  - rewrite Hhead. rewrite (is_digit_not_minus _ Hdig).
    rewrite Hdig, Hnz. cbn [negb andb]. rewrite Hread.
    rewrite (number_stop_fraction _ Hstop).
    change (Z.of_N (N.pos p)) with (Zpos p). now rewrite Hrange.
Qed.

Lemma read_number_print : forall z rest,
  int_in_range z = true ->
  number_stop rest = true ->
  read_number (Z_to_dec z ++ rest) = Ok (VInt z, rest).
Proof.
  intros [|p|p] rest Hrange Hstop.
  - change (Z_to_dec 0 ++ rest) with (String "0" rest).
    unfold read_number. cbn [Ascii.eqb Bool.eqb]. cbv iota.
    change (is_digit "0") with true. cbn [negb andb].
    assert (Hnext : match rest with
                    | String c' _ => is_digit c'
                    | EmptyString => false
                    end = false).
    { destruct rest as [|c r]; [reflexivity|].
      simpl in Hstop. apply andb_true_iff in Hstop.
      now apply negb_true_iff, Hstop. }
    rewrite Hnext. cbn [read_digits]. change (is_digit "0") with true. cbv iota.
    rewrite (read_digits_stop _ _ Hstop), (number_stop_fraction _ Hstop).
    reflexivity.
  - exact (read_number_pos false p rest Hstop Hrange).
  - exact (read_number_pos true p rest Hstop Hrange).
Qed.

(** *** Strings *)

Lemma read_string_escape_char : forall c tail,
  read_string (escape_char c ++ tail) = prepend (String c "") (read_string tail).
Proof.
  intros [[] [] [] [] [] [] [] []] tail; reflexivity.
Qed.

Lemma read_string_escape : forall s rest,
  read_string (escape s ++ String dquote rest) = Some (s, rest).
Proof.
  induction s as [|c s IH]; intro rest.
  - reflexivity.
  - cbn [escape]. rewrite string_app_assoc, read_string_escape_char, IH.
    reflexivity.
Qed.

Lemma read_string_quote : forall s rest,
  quote s ++ rest = String dquote (escape s ++ String dquote rest).
Proof.
  intros s rest. unfold quote. cbn [append]. now rewrite string_app_assoc.
Qed.

(** *** Dispatch on the first character *)

Lemma skip_ws_start : forall c r, is_ws c = false -> skip_ws (String c r) = String c r.
Proof. intros c r H. cbn [skip_ws]. now rewrite H. Qed.

Lemma read_value_string : forall f r,
  read_value (S f) (String dquote r)
  = match read_string r with
    | Some (text, rest) => Ok (VStr text, rest)
    | None => Err (JSONDecodeError "invalid string")
    end.
Proof. reflexivity. Qed.

Lemma read_value_array : forall f r,
  read_value (S f) (String "[" r)
  = match skip_ws r with
    | String c' rest as r' =>
        if Ascii.eqb c' "]" then Ok (VList [], rest)
        else match read_items f r' with
             | Ok (l, rest) => Ok (VList l, rest)
             | Err e => Err e
             end
    | EmptyString => Err (JSONDecodeError "unexpected end of data")
    end.
Proof. reflexivity. Qed.

Lemma read_value_object : forall f r,
  read_value (S f) (String "{" r)
  = match skip_ws r with
    | String c' rest as r' =>
        if Ascii.eqb c' "}" then Ok (VDict [], rest)
        else match read_members f r' with
             | Ok (m, rest) => Ok (VDict (dict_of_members m), rest)
             | Err e => Err e
             end
    | EmptyString => Err (JSONDecodeError "unexpected end of data")
    end.
Proof. reflexivity. Qed.

Lemma number_start : forall c,
  c = "-"%char \/ is_digit c = true ->
  is_ws c = false /\ Ascii.eqb c "]" = false /\
  forall f r, read_value (S f) (String c r) = read_number (String c r).
Proof.
  intros [[] [] [] [] [] [] [] []] [H|H];
    try discriminate H; repeat split; reflexivity.
Qed.

Lemma Z_to_dec_head : forall z rest,
  exists c r,
    Z_to_dec z ++ rest = String c r /\ (c = "-"%char \/ is_digit c = true).
Proof.
  intros [|p|p] rest.
  - exists "0"%char, rest. split; [reflexivity | now right].
  - destruct (N_to_dec_head p rest) as (c & r & Hhead & Hdig & _).
    exists c, r. split; [exact Hhead | now right].
  - eexists _, _. split; [reflexivity | now left].
Qed.

Lemma read_value_number : forall f z rest,
  int_in_range z = true ->
  number_stop rest = true ->
  read_value (S f) (Z_to_dec z ++ rest) = Ok (VInt z, rest).
Proof.
  intros f z rest Hrange Hstop.
  destruct (Z_to_dec_head z rest) as (c & r & Hhead & Hstart).
  destruct (number_start c Hstart) as (_ & _ & Hread).
  rewrite <- (read_number_print z rest Hrange Hstop), Hhead. apply Hread.
Qed.

Lemma read_value_word : forall f rest,
  read_value (S f) ("null" ++ rest) = Ok (VNone, rest) /\
  read_value (S f) ("true" ++ rest) = Ok (VBool true, rest) /\
  read_value (S f) ("false" ++ rest) = Ok (VBool false, rest).
Proof.
  intros f rest. repeat split; cbn; unfold expect; simpl;
    rewrite Nat.sub_0_r, substring_all; now destruct rest.
Qed.

(** What is written for a value starts with a character that is neither
    white space nor a closing bracket. *)
Lemma print_head : forall v tail,
  serializable v = true ->
  exists c r,
    print v ++ tail = String c r /\ is_ws c = false /\ Ascii.eqb c "]" = false.
Proof.
  intros v tail Hs. destruct v as [|[]|z|s|oid|l|l|d];
    try discriminate Hs;
    try (eexists _, _; repeat split; reflexivity).
  destruct (Z_to_dec_head z tail) as (c & r & Hhead & Hstart).
  destruct (number_start c Hstart) as (Hws & Hclose & _).
  exists c, r. auto.
Qed.

(** *** Arrays and objects *)

Lemma join_cons : forall sep x y l,
  join sep (x :: y :: l) = x ++ sep ++ join sep (y :: l).
Proof. reflexivity. Qed.

Lemma read_items_print : forall l,
  l <> [] ->
  Forall reads_back l ->
  forallb serializable l = true ->
  forallb well_formed l = true ->
  forall fuel rest,
    (String.length (join "," (map print l)) + 1 < fuel)%nat ->
    read_items fuel (join "," (map print l) ++ String "]" rest)
    = Ok (map as_json l, rest).
Proof.
  induction l as [|x l IH]; intros Hne Hall Hser Hwf fuel rest Hfuel;
    [congruence|].
  inversion Hall as [|? ? Hx Hl]; subst.
  cbn [forallb] in Hser, Hwf.
  apply andb_true_iff in Hser. destruct Hser as [Hsx Hsl].
  apply andb_true_iff in Hwf. destruct Hwf as [Hwx Hwl].
  destruct fuel as [|f]; [lia|].
  destruct l as [|y l].
  - cbn [map join] in *. cbn [read_items].
    rewrite (Hx Hsx Hwx f (String "]" rest)) by (try reflexivity; lia).
    reflexivity.
  - cbn [map] in *. rewrite join_cons in *.
    rewrite string_length_app in Hfuel. cbn [String.length append] in Hfuel.
    rewrite !string_app_assoc. cbn [append]. cbn [read_items].
    rewrite (Hx Hsx Hwx f) by (try reflexivity; lia).
    cbn [skip_ws]. change (is_ws ",") with false. cbv iota.
    change (Ascii.eqb "," ",") with true. cbv iota.
    rewrite (IH ltac:(discriminate) Hl Hsl Hwl f rest) by lia.
    reflexivity.
Qed.

Lemma read_members_print : forall d,
  d <> [] ->
  Forall (fun kv => reads_back (snd kv)) d ->
  forallb (fun kv => serializable (snd kv)) d = true ->
  forallb (fun kv => well_formed (snd kv)) d = true ->
  forall fuel rest,
    (String.length (join "," (map print_member d)) + 1 < fuel)%nat ->
    read_members fuel (join "," (map print_member d) ++ String "}" rest)
    = Ok (map (fun kv => (fst kv, as_json (snd kv))) d, rest).
Proof.
  induction d as [|[k x] d IH]; intros Hne Hall Hser Hwf fuel rest Hfuel;
    [congruence|].
  inversion Hall as [|? ? Hx Hd]; subst. cbn [snd] in Hx.
  cbn [forallb snd] in Hser, Hwf.
  apply andb_true_iff in Hser. destruct Hser as [Hsx Hsd].
  apply andb_true_iff in Hwf. destruct Hwf as [Hwx Hwd].
  destruct fuel as [|f]; [lia|].
  assert (Hstep : forall tail,
             (String.length (print x) < f)%nat ->
             number_stop tail = true ->
             read_members (S f) (print_member (k, x) ++ tail)
             = match skip_ws tail with
               | String c' r2 =>
                   if Ascii.eqb c' ","
                   then match read_members f r2 with
                        | Ok (m, rest') => Ok ((k, as_json x) :: m, rest')
                        | Err e => Err e
                        end
                   else if Ascii.eqb c' "}" then Ok ([(k, as_json x)], r2)
                   else Err (JSONDecodeError "expected , or }")
               | EmptyString => Err (JSONDecodeError "unexpected end of data")
               end).
  { intros tail Hlen Hstop. unfold print_member. cbn [fst snd].
    rewrite string_app_assoc.
    change ((":" ++ print x) ++ tail) with (String ":" (print x ++ tail)).
    rewrite read_string_quote. cbn [read_members].
    rewrite skip_ws_start by reflexivity.
    change (negb (Ascii.eqb dquote dquote)) with false. cbv iota.
    rewrite read_string_escape.
    rewrite skip_ws_start by reflexivity.
    change (negb (Ascii.eqb ":" ":")) with false. cbv iota.
    now rewrite (Hx Hsx Hwx f tail Hlen Hstop). }
  assert (Hlen : (String.length (print_member (k, x)) = String.length (print x) +
                   (String.length (quote k) + 1))%nat).
  { unfold print_member. cbn [fst snd].
    rewrite !string_length_app. cbn [String.length]. lia. }
  destruct d as [|y d].
  - cbn [map join] in *. rewrite Hstep by (try reflexivity; lia). reflexivity.
  - cbn [map] in *. rewrite join_cons in *.
    rewrite string_length_app in Hfuel. cbn [String.length append] in Hfuel.
    rewrite !string_app_assoc. cbn [append].
    rewrite Hstep by (try reflexivity; lia).
    cbn [skip_ws]. change (is_ws ",") with false. cbv iota.
    change (Ascii.eqb "," ",") with true. cbv iota.
    rewrite (IH ltac:(discriminate) Hd Hsd Hwd f rest) by lia.
    reflexivity.
Qed.

(** *** Repeated keys *)

Lemma dict_set_fresh : forall k v acc,
  existsb (fun kv => String.eqb k (fst kv)) acc = false ->
  dict_set k v acc = (acc ++ [(k, v)])%list.
Proof.
  intros k v acc. induction acc as [|[k' v'] acc IH]; simpl; intro H;
    [reflexivity|].
  apply orb_false_iff in H. destruct H as [Hk Hacc].
  now rewrite Hk, (IH Hacc).
Qed.

Lemma fold_dict_set_unique : forall m acc,
  unique_keys m = true ->
  (forall kv, In kv m ->
              existsb (fun kv' => String.eqb (fst kv) (fst kv')) acc = false) ->
  fold_left (fun acc kv => dict_set (fst kv) (snd kv) acc) m acc
  = (acc ++ m)%list.
Proof.
  induction m as [|[k v] m IH]; intros acc Huniq Hfresh.
  - simpl. now rewrite app_nil_r.
  - cbn [unique_keys] in Huniq. apply andb_true_iff in Huniq.
    destruct Huniq as [Hk Hm]. apply negb_true_iff in Hk.
    cbn [fold_left fst snd].
    rewrite dict_set_fresh by (apply (Hfresh (k, v)); now left).
    rewrite IH; [now rewrite <- app_assoc | exact Hm |].
    intros kv Hin. rewrite existsb_app, (Hfresh kv) by now right.
    cbn [existsb fst orb]. rewrite orb_false_r.
    destruct (String.eqb_spec (fst kv) k) as [Heq|]; [|reflexivity].
    assert (Hex : existsb (fun kv' => String.eqb k (fst kv')) m = true).
    { apply existsb_exists. exists kv. split; [exact Hin|].
      rewrite Heq. apply String.eqb_refl. }
    congruence.
Qed.

Lemma unique_keys_as_json : forall d,
  unique_keys (map (fun kv => (fst kv, as_json (snd kv))) d) = unique_keys d.
Proof.
  induction d as [|[k v] d IH]; [reflexivity|].
  cbn [map unique_keys fst snd]. rewrite IH. f_equal. f_equal.
  clear IH. induction d as [|[k' v'] d IH]; [reflexivity|].
  cbn [map existsb fst snd]. now rewrite IH.
Qed.

Lemma dict_of_members_unique : forall m,
  unique_keys m = true -> dict_of_members m = m.
Proof.
  intros m H. unfold dict_of_members.
  now rewrite fold_dict_set_unique by (auto; reflexivity).
Qed.

(** *** Values *)

Lemma reads_back_array : forall l,
  Forall reads_back l ->
  forallb serializable l = true ->
  forallb well_formed l = true ->
  forall fuel rest,
    (String.length ("[" ++ join "," (map print l) ++ "]") < fuel)%nat ->
    read_value fuel (("[" ++ join "," (map print l) ++ "]") ++ rest)
    = Ok (VList (map as_json l), rest).
Proof.
  intros l Hall Hser Hwf fuel rest Hfuel.
  destruct fuel as [|f]; [lia|].
  cbn [append] in *. rewrite string_app_assoc. cbn [append].
  cbn [String.length] in Hfuel. rewrite string_length_app in Hfuel.
  cbn [String.length] in Hfuel.
  rewrite read_value_array.
  destruct l as [|x l]; [reflexivity|].
  assert (Hhead : exists c r,
             join "," (map print (x :: l)) ++ String "]" rest = String c r /\
             is_ws c = false /\ Ascii.eqb c "]" = false).
  { cbn [forallb] in Hser. apply andb_true_iff in Hser.
    destruct l as [|y l]; cbn [map].
    - apply print_head, Hser.
    - rewrite join_cons, string_app_assoc. apply print_head, Hser. }
  destruct Hhead as (c & r & Hhead & Hws & Hclose).
  rewrite Hhead, (skip_ws_start _ _ Hws), Hclose, <- Hhead.
  rewrite read_items_print; auto; [discriminate | lia].
Qed.

Theorem reads_back_all : forall v, reads_back v.
Proof.
  induction v as [|b|z|s|oid|l IH|l IH|d IH] using Value_ind;
    intros Hser Hwf fuel rest Hfuel Hstop.
  - destruct fuel as [|f]; [simpl in Hfuel; lia|]. apply read_value_word.
  - destruct fuel as [|f]; [simpl in Hfuel; lia|].
    destruct b; apply read_value_word.
  - destruct fuel as [|f]; [lia|]. now apply read_value_number.
  - destruct fuel as [|f]; [lia|]. cbn [print as_json].
    now rewrite read_string_quote, read_value_string, read_string_escape.
  - discriminate Hser.
  - now apply reads_back_array.
  - now apply reads_back_array.
  - cbn [serializable well_formed] in Hser, Hwf.
    apply andb_true_iff in Hwf. destruct Hwf as [Huniq Hwf].
    destruct fuel as [|f]; [lia|].
    cbn [print as_json] in *.
    change (map (fun kv => quote (fst kv) ++ ":" ++ print (snd kv)) d)
      with (map print_member d) in *.
    cbn [append] in *. rewrite string_app_assoc. cbn [append].
    cbn [String.length] in Hfuel. rewrite string_length_app in Hfuel.
    cbn [String.length] in Hfuel.
    rewrite read_value_object.
    destruct d as [|kv d]; [reflexivity|].
    assert (Hhead : exists r,
               join "," (map print_member (kv :: d)) ++ String "}" rest
               = String dquote r).
    { destruct d as [|kv' d]; cbn [map join]; eexists; reflexivity. }
    destruct Hhead as (r & Hhead).
    rewrite Hhead, skip_ws_start by reflexivity.
    change (Ascii.eqb dquote "}") with false. cbv iota. rewrite <- Hhead.
    rewrite read_members_print; auto; [|discriminate|lia].
    rewrite dict_of_members_unique; [reflexivity|].
    now rewrite unique_keys_as_json.
Qed.

Lemma as_json_native : forall v, json_native v = true -> as_json v = v.
Proof.
  induction v as [|b|z|s|oid|l IH|l IH|d IH] using Value_ind; intro Hn;
    try reflexivity; try discriminate Hn.
  - cbn [as_json json_native] in *. f_equal.
    induction IH as [|x l Hx _ IHl]; [reflexivity|].
    cbn [forallb] in Hn. apply andb_true_iff in Hn. destruct Hn as [Hnx Hnl].
    cbn [map]. now rewrite (Hx Hnx), (IHl Hnl).
  - cbn [as_json json_native] in *. f_equal.
    induction IH as [|[k x] d Hx _ IHd]; [reflexivity|].
    cbn [forallb snd] in Hn. apply andb_true_iff in Hn. destruct Hn as [Hnx Hnd].
    cbn [map fst snd] in *. now rewrite (Hx Hnx), (IHd Hnd).
Qed.

Lemma loads_print : forall v,
  serializable v = true ->
  well_formed v = true ->
  Orjson.loads (print v) = Ok (as_json v).
Proof.
  intros v Hser Hwf. unfold Orjson.loads.
  rewrite <- (string_app_nil_r (print v)) at 2.
  rewrite (reads_back_all v Hser Hwf) by (try reflexivity; lia).
  reflexivity.
Qed.

End JsonRoundTrip.

(** C5, as amended. For every value built from [None], booleans,
    integers, strings, lists, tuples and string-keyed dicts that the
    serializer accepts, deserializing the bytes it produced yields the
    value with its tuples turned into lists; for such a value that holds no
    tuple, that is the value itself. Values of the other types that the
    serializer accepts (dates, UUIDs, dataclasses, enums, floats) are not
    values of this model, and the statement says nothing of them. *)
Theorem serializer_round_trip : forall v data,
  well_formed v = true ->
  OrjsonSerializer.dumps v = Ok data ->
  OrjsonSerializer.loads (PBytes data) = Ok (as_json v)
  /\ OrjsonSerializer.loads (PStr data) = Ok (as_json v)
  /\ (json_native v = true -> OrjsonSerializer.loads (PBytes data) = Ok v).
Proof.
  intros v data Hwf Hdumps.
  unfold OrjsonSerializer.dumps in Hdumps.
  destruct (Orjson.serializable v) eqn:Hser.
  2:{ destruct (dumps_rejected v Hser) as [msg Hmsg]. congruence. }
  rewrite (dumps_serializable v Hser) in Hdumps.
  inversion Hdumps; subst data.
  pose proof (loads_print v Hser Hwf) as Hback.
  repeat split; try exact Hback.
  intro Hnative. unfold OrjsonSerializer.loads.
  now rewrite Hback, (as_json_native v Hnative).
Qed.

Lemma serializer_round_trip_witness :
  OrjsonSerializer.loads
    (PBytes (Orjson.print
               (VDict [("hello", VStr "world"); ("n", VList [VInt (-7); VNone])])))
  = Ok (VDict [("hello", VStr "world"); ("n", VList [VInt (-7); VNone])]).
Proof.
  apply (serializer_round_trip
           (VDict [("hello", VStr "world"); ("n", VList [VInt (-7); VNone])])
           (Orjson.print
              (VDict [("hello", VStr "world"); ("n", VList [VInt (-7); VNone])]))
           eq_refl eq_refl).
  reflexivity.
Defined.

(** C5, as stated, fails: the serializer accepts the tuple [(1, 2)], and
    what comes back is the list [[1, 2]], which is not equal to it. *)
Lemma tuple_does_not_round_trip :
  OrjsonSerializer.dumps (VTuple [VInt 1; VInt 2]) = Ok "[1,2]"
  /\ OrjsonSerializer.loads (PBytes "[1,2]") = Ok (VList [VInt 1; VInt 2])
  /\ py_eq (VList [VInt 1; VInt 2]) (VTuple [VInt 1; VInt 2]) = false
  /\ VList [VInt 1; VInt 2] <> VTuple [VInt 1; VInt 2].
Proof. repeat split; try reflexivity. discriminate. Qed.

(** * Further properties of the repository *)

Lemma run_alone_bind : forall (A B : Type) (m : Coro A) (f : A -> Coro B) st,
  run_alone (bind m f) st
  = match run_alone m st with
    | (Ok a, st') => run_alone (f a) st'
    | (Err e, st') => (Err e, st')
    end.
Proof.
  unfold run_alone. intros A B m f.
  induction m as [a|e|R c k IH]; intro st; cbn [bind run]; try reflexivity.
  cbn [tl]. destruct (handle c st) as [[r|e] st1]; [apply IH | reflexivity].
Qed.

Lemma existsb_filter_length : forall (A : Type) (f : A -> bool) l,
  existsb f l = (Z.of_nat (List.length (filter f l)) >? 0).
Proof.
  intros A f l. induction l as [|x l IH]; [reflexivity|].
  cbn [existsb filter]. destruct (f x); cbn [orb List.length]; [|exact IH].
  symmetry. apply Z.gtb_lt. lia.
Qed.

Lemma find_filter_head : forall (A : Type) (f : A -> bool) l,
  find f l = match filter f l with
             | x :: _ => Some x
             | [] => None
             end.
Proof.
  intros A f l. induction l as [|x l IH]; [reflexivity|].
  cbn [find filter]. now destruct (f x).
Qed.

(** X1. [exists] and [count] agree: alone on the store, neither changes
    it, [count(query)] is the number of stored documents matching the
    query, and [exists(query)] is true exactly when that number is positive,
    that is when some stored document matches. *)
Theorem exists_agrees_with_count : forall query st,
  run_alone (MongoDBCRUDRepository.count query) st
  = (Ok (Z.of_nat (List.length (filter (matches query) (docs st)))), st)
  /\ run_alone (MongoDBCRUDRepository.exists_ query) st
     = (Ok (Z.of_nat (List.length (filter (matches query) (docs st))) >? 0), st)
  /\ run_alone (MongoDBCRUDRepository.exists_ query) st
     = (Ok (existsb (matches query) (docs st)), st).
Proof.
  intros query st.
  assert (Hex : run_alone (MongoDBCRUDRepository.exists_ query) st
                = (Ok (Z.of_nat (List.length (filter (matches query) (docs st))) >? 0),
                   st)).
  { unfold run_alone, MongoDBCRUDRepository.exists_. cbn [run handle].
    unfold store_count_documents. change (1 <=? 0) with false. cbv iota.
    f_equal. f_equal.
    set (n := Z.of_nat (List.length (filter (matches query) (docs st)))).
    destruct (Z.gtb_spec n 0) as [Hn|Hn].
    - apply Z.gtb_lt. lia.
    - destruct (Z.gtb_spec (Z.min 1 n) 0); [lia | reflexivity]. }
  split; [reflexivity|]. split; [exact Hex|].
  now rewrite existsb_filter_length.
Qed.

(** X2. [select] is the head of [select_many]: alone on the store,
    [select_many(query)] returns all matching documents in stored order;
    [select(query)] returns [None] when that list is empty and otherwise its
    first document with [_id] replaced by its string form. *)
Theorem select_is_first_of_select_many : forall query st,
  run_alone (MongoDBCRUDRepository.select_many query None None) st
  = (Ok (filter (matches query) (docs st)), st)
  /\ (filter (matches query) (docs st) = [] ->
      run_alone (MongoDBCRUDRepository.select query) st = (Ok None, st))
  /\ (forall first rest id,
         filter (matches query) (docs st) = first :: rest ->
         dict_lookup "_id" first = Some id ->
         run_alone (MongoDBCRUDRepository.select query) st
         = (Ok (Some (dict_set "_id" (VStr (py_str id)) first)), st)).
Proof.
  intros query st. split; [reflexivity|].
  unfold run_alone, MongoDBCRUDRepository.select. cbn [run handle].
  unfold store_find_one. rewrite find_filter_head. split.
  - intros ->. reflexivity.
  - intros first rest id -> Hid.
    destruct first as [|kv first]; [discriminate Hid|].
    cbn [truthy]. cbv iota. now rewrite Hid.
Qed.

Lemma skipn_add : forall (A : Type) (a b : nat) (l : list A),
  skipn (a + b) l = skipn b (skipn a l).
Proof.
  intros A a. induction a as [|a IH]; intros b l; [reflexivity|].
  destruct l as [|x l]; cbn [Nat.add skipn]; [now destruct b | apply IH].
Qed.

(** X3. Pages of [select_many] fit together: for an offset that is not
    negative and a positive limit, the page [(offset, limit)] holds at most
    [limit] documents, and followed by everything from [offset + limit] on
    it is everything from [offset] on. *)
Theorem select_many_pages_partition : forall query st offset limit,
  0 <= offset -> 0 < limit ->
  exists page rest,
    run_alone (MongoDBCRUDRepository.select_many query (Some offset) (Some limit)) st
    = (Ok page, st)
    /\ run_alone (MongoDBCRUDRepository.select_many query (Some (offset + limit)) None) st
       = (Ok rest, st)
    /\ run_alone (MongoDBCRUDRepository.select_many query (Some offset) None) st
       = (Ok (page ++ rest)%list, st)
    /\ Z.of_nat (List.length page) <= limit
    /\ (forall d, In d page -> In d (docs st) /\ matches query d = true).
Proof.
  intros query st offset limit Hoff Hlim.
  set (found := filter (matches query) (docs st)).
  exists (firstn (Z.abs_nat limit) (skipn (Z.to_nat offset) found)),
         (skipn (Z.to_nat (offset + limit)) found).
  unfold run_alone, MongoDBCRUDRepository.select_many. cbn [run handle].
  unfold store_find. fold found.
  destruct (Z.ltb_spec offset 0) as [|_]; [lia|].
  destruct (Z.ltb_spec (offset + limit) 0) as [|_]; [lia|].
  destruct (Z.eqb_spec limit 0) as [|_]; [lia|].
  repeat split.
  - f_equal. f_equal.
    replace (Z.to_nat (offset + limit))
      with (Z.to_nat offset + Z.abs_nat limit)%nat by lia.
    rewrite skipn_add. symmetry. apply firstn_skipn.
  - pose proof (firstn_le_length (Z.abs_nat limit)
                  (skipn (Z.to_nat offset) found)). lia.
  - apply In_firstn, In_skipn in H. apply filter_In in H. tauto.
  - apply In_firstn, In_skipn in H. apply filter_In in H. tauto.
Qed.

Lemma select_many_pages_partition_witness :
  exists page rest,
    run_alone (MongoDBCRUDRepository.select_many [] (Some 1) (Some 1))
      (mkCollection [[("_id", VInt 1)]; [("_id", VInt 2)]; [("_id", VInt 3)]] 0)
    = (Ok page,
       mkCollection [[("_id", VInt 1)]; [("_id", VInt 2)]; [("_id", VInt 3)]] 0)
    /\ run_alone (MongoDBCRUDRepository.select_many [] (Some (1 + 1)) None)
         (mkCollection [[("_id", VInt 1)]; [("_id", VInt 2)]; [("_id", VInt 3)]] 0)
       = (Ok rest,
          mkCollection [[("_id", VInt 1)]; [("_id", VInt 2)]; [("_id", VInt 3)]] 0)
    /\ run_alone (MongoDBCRUDRepository.select_many [] (Some 1) None)
         (mkCollection [[("_id", VInt 1)]; [("_id", VInt 2)]; [("_id", VInt 3)]] 0)
       = (Ok (page ++ rest)%list,
          mkCollection [[("_id", VInt 1)]; [("_id", VInt 2)]; [("_id", VInt 3)]] 0)
    /\ Z.of_nat (List.length page) <= 1
    /\ (forall d, In d page ->
                  In d [[("_id", VInt 1)]; [("_id", VInt 2)]; [("_id", VInt 3)]]
                  /\ matches [] d = true).
Proof.
  apply (select_many_pages_partition []
           (mkCollection [[("_id", VInt 1)]; [("_id", VInt 2)]; [("_id", VInt 3)]] 0)
           1 1); lia.
Defined.

(** X7. After [delete(query)], alone on the store, nothing matches the
    query any more: [exists] is false, [count] is 0, [select] finds nothing
    and a second [delete] returns the empty list; the documents that did not
    match are all still there, in their order. *)
Theorem delete_leaves_no_match : forall query st,
  let st' := snd (run_alone (MongoDBCRUDRepository.delete query) st) in
  docs st' = filter (fun d => negb (matches query d)) (docs st)
  /\ run_alone (MongoDBCRUDRepository.exists_ query) st' = (Ok false, st')
  /\ run_alone (MongoDBCRUDRepository.count query) st' = (Ok 0, st')
  /\ run_alone (MongoDBCRUDRepository.select query) st' = (Ok None, st')
  /\ run_alone (MongoDBCRUDRepository.delete query) st' = (Ok [], st').
Proof.
  intros query st.
  assert (Hnone : forall l, filter (matches query)
                              (filter (fun d => negb (matches query d)) l) = []).
  { induction l as [|d l IH]; [reflexivity|]. cbn [filter].
    destruct (matches query d) eqn:Hm; cbn [negb filter]; [exact IH|].
    now rewrite Hm. }
  assert (Hsame : forall l,
             filter (fun d => negb (matches query d))
                    (filter (fun d => negb (matches query d)) l)
             = filter (fun d => negb (matches query d)) l).
  { induction l as [|d l IH]; [reflexivity|]. cbn [filter].
    destruct (matches query d) eqn:Hm; cbn [negb filter]; [exact IH|].
    rewrite Hm. cbn [negb]. now rewrite IH. }
  cbv zeta.
  change (snd (run_alone (MongoDBCRUDRepository.delete query) st))
    with (mkCollection (filter (fun d => negb (matches query d)) (docs st))
                       (next_oid st)).
  split; [reflexivity|].
  unfold run_alone, MongoDBCRUDRepository.exists_, MongoDBCRUDRepository.count,
    MongoDBCRUDRepository.select, MongoDBCRUDRepository.delete,
    MongoDBCRUDRepository.select_many.
  cbn [run handle bind tl]. unfold store_count_documents, store_find_one,
    store_find, store_delete_many. cbn [docs next_oid].
  rewrite find_filter_head, Hnone, Hsame. repeat split.
Qed.

(** ** Batch insertion *)

Lemma existsb_app_false : forall (A : Type) (f : A -> bool) l1 l2,
  existsb f (l1 ++ l2)%list = false -> existsb f l1 = false.
Proof.
  intros A f l1 l2 H. rewrite existsb_app in H.
  now apply orb_false_iff in H.
Qed.

(** What a successful ordered batch insert leaves: one document per input,
    appended in order, each under an identifier no earlier document had. *)
Lemma insert_each_ok : forall data st ids st1,
  insert_each data st = (Ok ids, st1) ->
  List.length ids = List.length data /\
  docs st1 = (docs st ++ stored_as ids data)%list /\
  Forall (fun id => existsb (has_id id) (docs st) = false) ids.
Proof.
  induction data as [|values rest IH]; intros st ids st1 H.
  - inversion H; subst. unfold stored_as. cbn. now rewrite app_nil_r.
  - cbn [insert_each] in H.
    destruct (store_insert_one values st) as [[r|e] st0] eqn:Hone;
      [|discriminate H].
    destruct (insert_each rest st0) as [[ids'|e] st2] eqn:Hrest;
      inversion H; subst; clear H.
    destruct (store_insert_one_ok _ _ _ _ Hone) as (_ & Hfresh & Hdocs0).
    destruct (IH _ _ _ Hrest) as (Hlen & Hdocs & Hall).
    split; [cbn [List.length]; now rewrite Hlen|]. split.
    + rewrite Hdocs, Hdocs0, <- app_assoc. reflexivity.
    + constructor; [exact Hfresh|].
      eapply Forall_impl; [|exact Hall].
      intros id Hid. rewrite Hdocs0 in Hid. now apply existsb_app_false in Hid.
Qed.

Lemma matches_id_in : forall ids d,
  matches [("_id", VDict [("$in", VList ids)])] d
  = existsb (Value_eqb (dict_get "_id" d)) ids.
Proof.
  intros ids d. unfold matches, dict_get. cbn. now rewrite andb_true_r.
Qed.

Lemma in_combine_fst : forall (A B : Type) (l : list A) (l' : list B) a b,
  In (a, b) (combine l l') -> In a l.
Proof. intros. eapply in_combine_l. eassumption. Qed.

(** X4. [create_many(data)], alone on the store, after a batch insert that
    succeeded: it returns exactly the documents it inserted, one per input
    and in the order given, each as stored (its [_id] in the store's own
    form); the documents stored before are neither returned nor changed. *)
Theorem create_many_returns_inserted : forall data st ids st1,
  data <> [] ->
  insert_each data st = (Ok ids, st1) ->
  run_alone (MongoDBCRUDRepository.create_many data) st
  = (Ok (stored_as ids data), st1)
  /\ docs st1 = (docs st ++ stored_as ids data)%list
  /\ List.length (stored_as ids data) = List.length data.
Proof.
  intros data st ids st1 Hne Hins.
  destruct (insert_each_ok _ _ _ _ Hins) as (Hlen & Hdocs & Hfresh).
  split; [|split; [exact Hdocs|]].
  - unfold run_alone, MongoDBCRUDRepository.create_many,
      MongoDBCRUDRepository.select_many. cbn [run handle].
    unfold store_insert_many.
    destruct data as [|values rest]; [congruence|]. rewrite Hins.
    cbn [run handle tl inserted_ids]. unfold store_find. f_equal. f_equal.
    rewrite Hdocs, filter_app.
    assert (Hold : filter (matches [("_id", VDict [("$in", VList ids)])]) (docs st)
                   = []).
    { clear -Hfresh. induction (docs st) as [|d ds IH]; [reflexivity|].
      cbn [filter]. rewrite matches_id_in.
      assert (Hd : existsb (Value_eqb (dict_get "_id" d)) ids = false).
      { clear IH. induction Hfresh as [|id ids Hid _ IHids]; [reflexivity|].
        cbn [existsb] in *. apply orb_false_iff in Hid.
        destruct Hid as [Hid _]. unfold has_id in Hid. now rewrite Hid, IHids. }
      rewrite Hd. apply IH.
      eapply Forall_impl; [|exact Hfresh].
      intros id Hid. cbn [existsb] in Hid. now apply orb_false_iff in Hid. }
    rewrite Hold. cbn [app].
    apply forallb_filter_id. apply forallb_forall.
    intros d Hd. unfold stored_as in Hd. apply in_map_iff in Hd.
    destruct Hd as ([id values'] & <- & Hin). cbn [fst snd].
    rewrite matches_id_in. apply existsb_exists. exists id.
    split; [eapply in_combine_fst; exact Hin|].
    unfold dict_get, with_id. cbn. apply Value_eqb_refl.
  - unfold stored_as. rewrite length_map, length_combine, Hlen. apply Nat.min_id.
Qed.

Lemma create_many_returns_inserted_witness :
  run_alone (MongoDBCRUDRepository.create_many
               [[("client_id", VStr "a")]; [("client_id", VStr "b")]])
            empty_collection
  = (Ok (stored_as [VObjectId 0; VObjectId 1]
                   [[("client_id", VStr "a")]; [("client_id", VStr "b")]]),
     mkCollection [[("_id", VObjectId 0); ("client_id", VStr "a")];
                   [("_id", VObjectId 1); ("client_id", VStr "b")]] 2).
Proof.
  apply (create_many_returns_inserted
           [[("client_id", VStr "a")]; [("client_id", VStr "b")]]
           empty_collection [VObjectId 0; VObjectId 1]
           (mkCollection [[("_id", VObjectId 0); ("client_id", VStr "a")];
                          [("_id", VObjectId 1); ("client_id", VStr "b")]] 2)).
  - discriminate.
  - reflexivity.
Defined.

(** ** Creating a user and looking it up *)

(** The insert made for a user: the driver assigns the next ObjectId. *)
Lemma insert_user_fresh : forall user st,
  existsb (has_id (VObjectId (next_oid st))) (docs st) = false ->
  store_insert_one (model_dump_exclude_none user) st
  = (Ok {| inserted_id := VObjectId (next_oid st) |},
     mkCollection
       (docs st ++ [with_id (VObjectId (next_oid st)) (model_dump_exclude_none user)])
       (N.succ (next_oid st))).
Proof.
  intros user st Hfresh. unfold store_insert_one.
  rewrite model_dump_exclude_none_lookup.
  change (dict_lookup "_id" (model_dump user)) with (@None Value). cbv iota.
  cbn [valid_id negb]. now rewrite Hfresh.
Qed.

Lemma user_document_matches : forall user id,
  matches [("client_id", VStr (client_id user))]
          (with_id id (model_dump_exclude_none user)) = true.
Proof.
  intros user id. unfold matches. cbn [forallb fst snd]. rewrite andb_true_r.
  unfold with_id. cbn [dict_lookup]. change (String.eqb "client_id" "_id") with false.
  cbv iota. rewrite dict_lookup_without_id by reflexivity.
  rewrite model_dump_exclude_none_lookup.
  change (dict_lookup "client_id" (model_dump user))
    with (Some (VStr (client_id user))).
  cbn. apply String.eqb_refl.
Qed.

(** X5. A created user is found by its natural key: when no stored
    document has the user's [client_id] (and the next ObjectId is unused),
    [create(user)] followed by [get_user(client_id)] returns the same
    document both times, carrying that [client_id] and the new identifier as
    a string. *)
Theorem created_user_is_found : forall user st,
  existsb (has_id (VObjectId (next_oid st))) (docs st) = false ->
  existsb (matches [("client_id", VStr (client_id user))]) (docs st) = false ->
  exists document st1,
    run_alone (created <- UserService.create user ;;
               found <- UserService.get_user (client_id user) ;;
               Return (created, found)) st
    = (Ok (Some document, Some document), st1)
    /\ dict_lookup "client_id" document = Some (VStr (client_id user))
    /\ dict_lookup "_id" document = Some (VStr (ObjectId_str (next_oid st))).
Proof.
  intros user st Hfresh Hnew.
  pose proof (insert_user_fresh user st Hfresh) as Hins.
  set (stored := with_id (VObjectId (next_oid st)) (model_dump_exclude_none user)) in *.
  exists (dict_set "_id" (VStr (ObjectId_str (next_oid st))) stored).
  eexists. split; [|split].
  - rewrite run_alone_bind.
    unfold UserService.create, UserRepository.create.
    rewrite (run_create_ok _ _ _ _ Hins eq_refl). cbn [inserted_id py_str].
    rewrite run_alone_bind.
    unfold UserService.get_user, UserRepository.get_by_client_id,
      MongoDBCRUDRepository.select, run_alone.
    cbn [run handle tl]. unfold store_find_one. cbn [docs].
    rewrite (find_app_fresh _ _ _ stored Hnew (user_document_matches user _)).
    reflexivity.
  - unfold stored, with_id. cbn [dict_set]. change (String.eqb "_id" "_id") with true.
    cbv iota. cbn [dict_lookup]. change (String.eqb "client_id" "_id") with false.
    cbv iota. rewrite dict_lookup_without_id by reflexivity.
    now rewrite model_dump_exclude_none_lookup.
  - apply dict_lookup_set_same.
Qed.

Lemma created_user_is_found_witness :
  exists document st1,
    run_alone (created <- UserService.create
                            (mkUserDTO "acme" "https://x" "" "" "" (Some true) None
                                       ["client_id"; "crm_url"; "active"]) ;;
               found <- UserService.get_user "acme" ;;
               Return (created, found)) empty_collection
    = (Ok (Some document, Some document), st1)
    /\ dict_lookup "client_id" document = Some (VStr "acme")
    /\ dict_lookup "_id" document = Some (VStr (ObjectId_str 0)).
Proof.
  exact (created_user_is_found
           (mkUserDTO "acme" "https://x" "" "" "" (Some true) None
                      ["client_id"; "crm_url"; "active"])
           empty_collection eq_refl eq_refl).
Defined.

Lemma find_app_found : forall (A : Type) (f : A -> bool) l l' x,
  find f l = Some x -> find f (l ++ l')%list = Some x.
Proof.
  intros A f l l' x. induction l as [|y l IH]; cbn [find app]; [discriminate|].
  destruct (f y); [auto | exact IH].
Qed.

(** X6. [client_id] is not kept unique: when a stored document already has
    the user's [client_id], [create(user)] still inserts a second document
    with it and returns that new document, while [get_user(client_id)]
    afterwards answers as it did before, with the older document. *)
Theorem client_id_is_not_unique : forall user st earlier,
  existsb (has_id (VObjectId (next_oid st))) (docs st) = false ->
  find (matches [("client_id", VStr (client_id user))]) (docs st) = Some earlier ->
  exists created st1,
    run_alone (UserService.create user) st = (Ok (Some created), st1)
    /\ dict_lookup "client_id" created = Some (VStr (client_id user))
    /\ List.length (docs st1) = S (List.length (docs st))
    /\ store_find_one [("client_id", VStr (client_id user))] st1 = Some earlier
    /\ fst (run_alone (UserService.get_user (client_id user)) st1)
       = fst (run_alone (UserService.get_user (client_id user)) st).
Proof.
  intros user st earlier Hfresh Hold.
  pose proof (insert_user_fresh user st Hfresh) as Hins.
  eexists. eexists. split; [|split; [|split; [|split]]].
  - unfold UserService.create, UserRepository.create.
    apply (run_create_ok _ _ _ _ Hins eq_refl).
  - cbn [inserted_id py_str]. unfold with_id. cbn [dict_set].
    change (String.eqb "_id" "_id") with true. cbv iota. cbn [dict_lookup].
    change (String.eqb "client_id" "_id") with false. cbv iota.
    rewrite dict_lookup_without_id by reflexivity.
    now rewrite model_dump_exclude_none_lookup.
  - cbn [docs]. rewrite length_app. cbn [List.length]. lia.
  - unfold store_find_one. cbn [docs]. now apply find_app_found.
  - unfold UserService.get_user, UserRepository.get_by_client_id,
      MongoDBCRUDRepository.select, run_alone.
    cbn [run handle tl]. unfold store_find_one. cbn [docs].
    rewrite (find_app_found _ _ _ _ _ Hold), Hold.
    destruct (truthy (VDict earlier)); [|reflexivity].
    now destruct (dict_lookup "_id" earlier).
Qed.

Lemma client_id_is_not_unique_witness :
  exists created st1,
    run_alone (UserService.create UserDTO_default)
              (mkCollection [[("_id", VInt 5); ("client_id", VStr "")]] 0)
    = (Ok (Some created), st1)
    /\ dict_lookup "client_id" created = Some (VStr "")
    /\ List.length (docs st1) = 2%nat
    /\ store_find_one [("client_id", VStr "")] st1
       = Some [("_id", VInt 5); ("client_id", VStr "")]
    /\ fst (run_alone (UserService.get_user "") st1)
       = fst (run_alone (UserService.get_user "")
                (mkCollection [[("_id", VInt 5); ("client_id", VStr "")]] 0)).
Proof.
  exact (client_id_is_not_unique UserDTO_default
           (mkCollection [[("_id", VInt 5); ("client_id", VStr "")]] 0)
           [("_id", VInt 5); ("client_id", VStr "")] eq_refl eq_refl).
Defined.

(** ** The store's invariant *)

Lemma Value_eqb_sym : forall a b, Value_eqb a b = Value_eqb b a.
Proof.
  intros a b.
  destruct (Value_eqb a b) eqn:Hab.
  - apply Value_eqb_sound in Hab. subst b. symmetry. apply Value_eqb_refl.
  - destruct (Value_eqb b a) eqn:Hba; [|reflexivity].
    apply Value_eqb_sound in Hba. subst b.
    rewrite Value_eqb_refl in Hab. discriminate Hab.
Qed.

(** The invariant depends on the identifiers only. *)
Lemma ids_unique_by_ids : forall ds ds',
  map (dict_lookup "_id") ds = map (dict_lookup "_id") ds' ->
  forallb well_identified ds = forallb well_identified ds' /\
  ids_unique ds = ids_unique ds'.
Proof.
  assert (Hex : forall id ds ds',
             map (dict_lookup "_id") ds = map (dict_lookup "_id") ds' ->
             existsb (has_id id) ds = existsb (has_id id) ds').
  { intros id. induction ds as [|d ds IH]; intros [|d' ds'] H;
      try discriminate H; [reflexivity|].
    cbn [map] in H. injection H as Hd Hds. cbn [existsb].
    unfold has_id at 1 3, dict_get. now rewrite Hd, (IH _ Hds). }
  induction ds as [|d ds IH]; intros [|d' ds'] H; try discriminate H;
    [split; reflexivity|].
  pose proof H as Hall. cbn [map] in H. injection H as Hd Hds.
  destruct (IH _ Hds) as [IH1 IH2].
  cbn [forallb ids_unique]. unfold well_identified at 1 3, dict_get.
  rewrite Hd, IH1, IH2, (Hex _ _ _ Hds). split; reflexivity.
Qed.

Lemma last_binding_unique : forall p k,
  unique_keys p = true -> last_binding k p = dict_lookup k p.
Proof.
  unfold last_binding.
  induction p as [|[k0 v0] p IH]; intros k Hu; [reflexivity|].
  cbn [unique_keys] in Hu. apply andb_true_iff in Hu. destruct Hu as [Hk0 Hu].
  apply negb_true_iff in Hk0.
  cbn [rev dict_lookup]. rewrite dict_lookup_app, (IH _ Hu). cbn [dict_lookup].
  destruct (String.eqb_spec k k0) as [->|Hne]; [|now destruct (dict_lookup k p)].
  assert (Hnone : dict_lookup k0 p = None).
  { clear -Hk0. induction p as [|[k1 v1] p IH]; [reflexivity|].
    cbn [existsb fst] in Hk0. apply orb_false_iff in Hk0.
    destruct Hk0 as [H1 H2]. cbn [dict_lookup]. rewrite H1. now apply IH. }
  now rewrite Hnone.
Qed.

(** A [$set] that the store accepts leaves the identifier as it is. *)
Lemma apply_set_keeps_id : forall p d d',
  unique_keys p = true ->
  apply_set p d = Ok d' ->
  well_identified d = true ->
  dict_lookup "_id" d' = dict_lookup "_id" d.
Proof.
  intros p d d' Hu Hset Hid.
  pose proof (apply_set_ok _ _ _ Hset) as ->.
  rewrite dict_lookup_merge, (last_binding_unique _ _ Hu).
  unfold apply_set in Hset.
  destruct (dict_lookup "_id" p) as [id|]; [|reflexivity].
  destruct (has_id id d) eqn:Hhas; [|discriminate Hset].
  unfold has_id, dict_get in Hhas. unfold well_identified in Hid.
  destruct (dict_lookup "_id" d) as [id'|]; [|discriminate Hid].
  apply Value_eqb_sound in Hhas. now subst.
Qed.

Lemma update_docs_keeps_ids : forall multi q p ds,
  unique_keys p = true ->
  forallb well_identified ds = true ->
  map (dict_lookup "_id") (fst (update_docs multi q p ds))
  = map (dict_lookup "_id") ds.
Proof.
  intros multi q p ds Hu. induction ds as [|d r IH]; intro Hall; [reflexivity|].
  cbn [forallb] in Hall. apply andb_true_iff in Hall. destruct Hall as [Hd Hr].
  specialize (IH Hr).
  cbn [update_docs]. destruct (matches q d).
  - destruct (apply_set p d) as [d'|e] eqn:Hset; [|reflexivity].
    pose proof (apply_set_keeps_id _ _ _ Hu Hset Hd) as Hkeep.
    destruct multi.
    + destruct (update_docs true q p r) as [r' res].
      cbn [fst map] in *. now rewrite Hkeep, IH.
    + cbn [fst map]. now rewrite Hkeep.
  - destruct (update_docs multi q p r) as [r' res].
    cbn [fst map] in *. now rewrite IH.
Qed.

Lemma store_ok_same_ids : forall ds next st,
  store_ok st = true ->
  map (dict_lookup "_id") ds = map (dict_lookup "_id") (docs st) ->
  store_ok (mkCollection ds next) = true.
Proof.
  intros ds next st Hok Hids. unfold store_ok in *. cbn [docs].
  destruct (ids_unique_by_ids _ _ Hids) as [-> ->]. exact Hok.
Qed.

Lemma store_update_ok : forall multi q p st,
  unique_keys p = true ->
  store_ok st = true ->
  store_ok (snd (store_update multi (VDict q) [("$set", VDict p)] st)) = true.
Proof.
  intros multi q p st Hu Hok. rewrite store_update_set. cbn [snd].
  apply (store_ok_same_ids _ _ st Hok).
  apply update_docs_keeps_ids; [exact Hu|].
  unfold store_ok in Hok. now apply andb_true_iff in Hok.
Qed.

Lemma ids_unique_app_fresh : forall ds d,
  ids_unique ds = true ->
  existsb (has_id (dict_get "_id" d)) ds = false ->
  ids_unique (ds ++ [d]) = true.
Proof.
  induction ds as [|x ds IH]; intros d Hu Hfresh; [reflexivity|].
  cbn [ids_unique existsb app] in *.
  apply andb_true_iff in Hu. destruct Hu as [Hx Hu].
  apply orb_false_iff in Hfresh. destruct Hfresh as [Hdx Hfresh].
  rewrite existsb_app. cbn [existsb]. rewrite orb_false_r.
  apply negb_true_iff in Hx. rewrite Hx. cbn [orb].
  unfold has_id in Hdx |- *. rewrite Value_eqb_sym, Hdx. cbn [negb andb].
  now apply IH.
Qed.

Lemma store_insert_one_keeps_ok : forall values st,
  store_ok st = true ->
  store_ok (snd (store_insert_one values st)) = true.
Proof.
  intros values st Hok.
  destruct (store_insert_one values st) as [[res|e] st1] eqn:Hins.
  - destruct (store_insert_one_ok _ _ _ _ Hins) as (_ & Hfresh & Hdocs).
    unfold store_ok in *. cbn [snd]. rewrite Hdocs.
    apply andb_true_iff in Hok. destruct Hok as [Hall Hu].
    rewrite forallb_app, Hall. cbn [forallb]. unfold well_identified at 1.
    unfold with_id at 1. cbn [dict_lookup]. change (String.eqb "_id" "_id") with true.
    cbv iota. cbn [andb].
    apply ids_unique_app_fresh; [exact Hu|].
    unfold dict_get, with_id. cbn [dict_lookup].
    change (String.eqb "_id" "_id") with true. cbv iota. exact Hfresh.
  - unfold store_insert_one in Hins. unfold store_ok in *. cbn [snd].
    destruct (dict_lookup "_id" values) as [id|];
      (match type of Hins with
       | (if negb (valid_id ?i) then _ else _) = _ =>
           destruct (valid_id i); cbn [negb] in Hins;
           [destruct (existsb (has_id i) (docs st))|];
           inversion Hins; subst; exact Hok
       end).
Qed.

Lemma insert_each_keeps_ok : forall data st,
  store_ok st = true -> store_ok (snd (insert_each data st)) = true.
Proof.
  induction data as [|values rest IH]; intros st Hok; [exact Hok|].
  cbn [insert_each].
  pose proof (store_insert_one_keeps_ok values st Hok) as Hone.
  destruct (store_insert_one values st) as [[r|e] st0]; [|exact Hone].
  specialize (IH st0 Hone).
  now destruct (insert_each rest st0) as [[ids|e] st2].
Qed.

Lemma filter_keeps_ok : forall (f : Document -> bool) st,
  store_ok st = true ->
  store_ok (mkCollection (filter f (docs st)) (next_oid st)) = true.
Proof.
  intros f st Hok. unfold store_ok in *. cbn [docs].
  apply andb_true_iff in Hok. destruct Hok as [Hall Hu].
  apply andb_true_iff. split.
  - apply forallb_forall. intros d Hd. apply filter_In in Hd.
    rewrite forallb_forall in Hall. now apply Hall.
  - clear Hall. induction (docs st) as [|d ds IH]; [reflexivity|].
    cbn [ids_unique] in Hu. apply andb_true_iff in Hu. destruct Hu as [Hd Hu].
    cbn [filter]. destruct (f d); [|now apply IH].
    cbn [ids_unique]. rewrite (IH Hu), andb_true_r.
    apply negb_true_iff in Hd. apply negb_true_iff.
    destruct (existsb (has_id (dict_get "_id" d)) (filter f ds)) eqn:Hex;
      [|reflexivity].
    apply existsb_exists in Hex. destruct Hex as (x & Hx & Hhas).
    apply filter_In in Hx.
    assert (existsb (has_id (dict_get "_id" d)) ds = true)
      by (apply existsb_exists; exists x; tauto).
    congruence.
Qed.

Lemma snd_run_select : forall q st,
  snd (run_alone (MongoDBCRUDRepository.select q) st) = st.
Proof.
  intros q st. unfold run_alone, MongoDBCRUDRepository.select. cbn [run handle tl].
  destruct (store_find_one q st) as [d|]; [|reflexivity].
  destruct (truthy (VDict d)); [|reflexivity].
  now destruct (dict_lookup "_id" d).
Qed.

Lemma snd_run_create : forall values st,
  snd (run_alone (MongoDBCRUDRepository.create values) st)
  = snd (store_insert_one values st).
Proof.
  intros values st.
  unfold run_alone, MongoDBCRUDRepository.create, MongoDBCRUDRepository.select.
  cbn [run handle tl bind].
  destruct (store_insert_one values st) as [[res|e] st1]; [|reflexivity].
  destruct (truthy (inserted_id res)); [|reflexivity].
  cbn [run handle tl bind].
  destruct (store_find_one [("_id", inserted_id res)] st1) as [d|];
    [|reflexivity].
  destruct (truthy (VDict d)); [|reflexivity].
  destruct (dict_lookup "_id" d) as [id|]; [|reflexivity].
  cbn [bind]. now rewrite dict_lookup_set_same.
Qed.

Lemma store_update_item_keeps_ok : forall multi query update st,
  match update with VDict p => unique_keys p | _ => true end = true ->
  store_ok st = true ->
  store_ok (snd (store_update multi query [("$set", update)] st)) = true.
Proof.
  intros multi query update st Hu Hok.
  destruct query as [| | | | | | |q];
    try (unfold store_update; exact Hok).
  destruct update as [| | | | | | |p];
    try (unfold store_update; exact Hok).
  now apply store_update_ok.
Qed.

Lemma update_many_from_keeps_ok : forall data acc st,
  forallb patch_ok data = true ->
  store_ok st = true ->
  store_ok (snd (run_alone (MongoDBCRUDRepository.update_many_from acc data) st))
  = true.
Proof.
  unfold run_alone.
  induction data as [|item rest IH]; intros acc st Hp Hok; [exact Hok|].
  cbn [forallb] in Hp. apply andb_true_iff in Hp. destruct Hp as [Hitem Hrest].
  cbn [MongoDBCRUDRepository.update_many_from].
  destruct (truthy (dict_get "query" item) && truthy (dict_get "update" item));
    [|now apply IH].
  cbn [run handle tl].
  pose proof (store_update_item_keeps_ok true (dict_get "query" item)
                (dict_get "update" item) st Hitem Hok) as Hstep.
  destruct (store_update true (dict_get "query" item)
              [("$set", dict_get "update" item)] st) as [[r|e] st1];
    cbn [snd] in Hstep; [now apply IH | exact Hstep].
Qed.

(** X8. The repository keeps the store well formed: if every stored
    document has an [_id] and no two share one, the same holds after
    [create], [create_many], [update], [update_many] and [delete], run alone
    on the store, whether the call returns or raises (a batch that fails half
    way included). Patches are Python dicts, so no key is repeated in
    them. *)
Theorem repository_keeps_ids_unique : forall st,
  store_ok st = true ->
  (forall values,
      store_ok (snd (run_alone (MongoDBCRUDRepository.create values) st)) = true)
  /\ (forall data,
         store_ok (snd (run_alone (MongoDBCRUDRepository.create_many data) st))
         = true)
  /\ (forall query patch,
         unique_keys patch = true ->
         store_ok (snd (run_alone (MongoDBCRUDRepository.update query patch) st))
         = true)
  /\ (forall data,
         forallb patch_ok data = true ->
         store_ok (snd (run_alone (MongoDBCRUDRepository.update_many data) st))
         = true)
  /\ (forall query,
         store_ok (snd (run_alone (MongoDBCRUDRepository.delete query) st)) = true).
Proof.
  intros st Hok. repeat apply conj.
  - intro values. rewrite snd_run_create. now apply store_insert_one_keeps_ok.
  - intro data. unfold run_alone, MongoDBCRUDRepository.create_many,
      MongoDBCRUDRepository.select_many. cbn [run handle tl].
    unfold store_insert_many.
    destruct data as [|values rest]; [exact Hok|].
    pose proof (insert_each_keeps_ok (values :: rest) st Hok) as Hins.
    destruct (insert_each (values :: rest) st) as [[ids|e] st1];
      cbn [snd] in Hins; [|exact Hins].
    cbn [run handle tl].
    now destruct (store_find _ None None st1).
  - intros query patch Hu.
    unfold run_alone, MongoDBCRUDRepository.update. cbn [run handle tl].
    pose proof (store_update_ok false query patch st Hu Hok) as Hup.
    destruct (store_update false (VDict query) [("$set", VDict patch)] st)
      as [[r|e] st1]; cbn [snd] in Hup; [|exact Hup].
    fold (run_alone (MongoDBCRUDRepository.select query) st1).
    now rewrite snd_run_select.
  - intros data Hp. now apply update_many_from_keeps_ok.
  - intro query. now apply filter_keeps_ok.
Qed.

Lemma repository_keeps_ids_unique_witness :
  store_ok (snd (run_alone
                   (MongoDBCRUDRepository.update [("n", VInt 1)]
                      [("_id", VInt 7); ("n", VInt 2)])
                   (mkCollection [[("_id", VInt 7); ("n", VInt 1)];
                                  [("_id", VInt 8); ("n", VInt 1)]] 0)))
  = true.
Proof.
  apply (repository_keeps_ids_unique
           (mkCollection [[("_id", VInt 7); ("n", VInt 1)];
                          [("_id", VInt 8); ("n", VInt 1)]] 0) eq_refl).
  reflexivity.
Defined.

(** * Further properties of the cache client *)

(** X9. Before [connect], every operation of the cache raises
    [RuntimeError] and does nothing else: nothing is logged and the object
    is unchanged. This holds for the empty batches too, which a connected
    client answers without asking the store. *)
Theorem operations_need_connect :
  forall (C : Type) (R : RedisClient C) (lg : list (Level * string))
         (key pattern : string) (value : Value) (ttl : option Z) (seconds : Z)
         (keys : list string) (data : Dict),
    RedisCache.get key (RedisCache.mk (@None C) lg)
    = (Err not_connected, RedisCache.mk None lg)
    /\ RedisCache.set key value ttl (RedisCache.mk (@None C) lg)
       = (Err not_connected, RedisCache.mk None lg)
    /\ RedisCache.delete key (RedisCache.mk (@None C) lg)
       = (Err not_connected, RedisCache.mk None lg)
    /\ RedisCache.exists_ key (RedisCache.mk (@None C) lg)
       = (Err not_connected, RedisCache.mk None lg)
    /\ RedisCache.expire key seconds (RedisCache.mk (@None C) lg)
       = (Err not_connected, RedisCache.mk None lg)
    /\ RedisCache.get_many keys (RedisCache.mk (@None C) lg)
       = (Err not_connected, RedisCache.mk None lg)
    /\ RedisCache.set_many data ttl (RedisCache.mk (@None C) lg)
       = (Err not_connected, RedisCache.mk None lg)
    /\ RedisCache.delete_many keys (RedisCache.mk (@None C) lg)
       = (Err not_connected, RedisCache.mk None lg)
    /\ RedisCache.clear_pattern pattern (RedisCache.mk (@None C) lg)
       = (Err not_connected, RedisCache.mk None lg)
    /\ RedisCache.ttl key (RedisCache.mk (@None C) lg)
       = (Err not_connected, RedisCache.mk None lg)
    /\ RedisCache.ping (RedisCache.mk (@None C) lg)
       = (Err not_connected, RedisCache.mk None lg).
Proof. intros. repeat split. Qed.

(** X10. Empty batches are answered without the store: on a connected
    client, whatever the state of the server, [get_many([])] returns the
    empty mapping, [set_many({})] returns [True] and [delete_many([])]
    returns 0, with the client untouched and nothing logged. *)
Theorem empty_batches_skip_the_store :
  forall (C : Type) (R : RedisClient C) (c : C) (lg : list (Level * string))
         (ttl : option Z),
    RedisCache.get_many [] (RedisCache.mk (Some c) lg)
    = (Ok [], RedisCache.mk (Some c) lg)
    /\ RedisCache.set_many [] ttl (RedisCache.mk (Some c) lg)
       = (Ok true, RedisCache.mk (Some c) lg)
    /\ RedisCache.delete_many [] (RedisCache.mk (Some c) lg)
       = (Ok 0, RedisCache.mk (Some c) lg).
Proof. intros. repeat split. Qed.

Section CacheDefaults.
Context {C : Type} `{RedisClient C}.

(** What a caught error leaves: the default, and one more line in the log. *)
Lemma try_except_caught_state : forall (A : Type) (body : @RedisCache.Method C A)
    (msg : Exn -> string) (default : A) self self' e,
  body self = (Err e, self') ->
  is_Exception e = true ->
  RedisCache.try_except body
    (fun e => RedisCache.seq (RedisCache.logger ERROR (msg e))
                (fun _ => RedisCache.ret default)) self
  = (Ok default,
     RedisCache.mk (RedisCache._client self')
                   (RedisCache.log self' ++ [(ERROR, msg e)])).
Proof.
  intros A body msg default self self' e Hbody He.
  unfold RedisCache.try_except. now rewrite Hbody, He.
Qed.

End CacheDefaults.

(** X11. The other operations have safe defaults too: on a connected
    client, when the store command raises an [Exception], [exists] returns
    [False], [set_many] returns [False], [delete_many] and [clear_pattern]
    return 0, [ttl] returns -2 and [ping] returns [False]; in
    [clear_pattern] that holds whether the scan or the deletion fails. *)
Theorem other_cache_errors_become_defaults :
  forall (C : Type) (R : RedisClient C) (c : C) (lg : list (Level * string))
         (e : Exn),
    is_Exception e = true ->
    (forall key c',
        redis_exists key c = (Err e, c') ->
        fst (RedisCache.exists_ key (RedisCache.mk (Some c) lg)) = Ok false)
    /\ (forall data ttl serialized c',
           data <> [] ->
           RedisCache.serialize_items data = Ok serialized ->
           match RedisCache.ttl_given ttl with
           | Some t => redis_pipeline_setex serialized t c
           | None => redis_mset serialized c
           end = (Err e, c') ->
           fst (RedisCache.set_many data ttl (RedisCache.mk (Some c) lg)) = Ok false)
    /\ (forall keys c',
           redis_delete keys c = (Err e, c') ->
           fst (RedisCache.delete_many keys (RedisCache.mk (Some c) lg)) = Ok 0)
    /\ (forall pattern c',
           redis_scan_iter pattern c = (Err e, c') ->
           fst (RedisCache.clear_pattern pattern (RedisCache.mk (Some c) lg)) = Ok 0)
    /\ (forall pattern keys c1 c',
           redis_scan_iter pattern c = (Ok keys, c1) ->
           keys <> [] ->
           redis_delete keys c1 = (Err e, c') ->
           fst (RedisCache.clear_pattern pattern (RedisCache.mk (Some c) lg)) = Ok 0)
    /\ (forall key c',
           redis_ttl key c = (Err e, c') ->
           fst (RedisCache.ttl key (RedisCache.mk (Some c) lg)) = Ok (-2))
    /\ (forall c',
           redis_ping c = (Err e, c') ->
           fst (RedisCache.ping (RedisCache.mk (Some c) lg)) = Ok false).
Proof.
  intros C R c lg e He. repeat apply conj.
  - intros key c' Hcmd.
    unfold RedisCache.exists_, RedisCache.seq at 1.
    cbn [RedisCache._ensure_connected RedisCache._client].
    eapply try_except_caught; [|exact He].
    unfold RedisCache.seq. rewrite call_connected, Hcmd. reflexivity.
  - intros data ttl serialized c' Hne Hser Hcmd.
    unfold RedisCache.set_many, RedisCache.seq at 1.
    cbn [RedisCache._ensure_connected RedisCache._client].
    destruct data as [|kv data]; [congruence|].
    eapply try_except_caught; [|exact He].
    unfold RedisCache.seq at 1, RedisCache.lift. rewrite Hser.
    unfold RedisCache.seq.
    destruct (RedisCache.ttl_given ttl); rewrite call_connected, Hcmd; reflexivity.
  - intros keys c' Hcmd.
    unfold RedisCache.delete_many, RedisCache.seq at 1.
    cbn [RedisCache._ensure_connected RedisCache._client].
    destruct keys as [|k keys]; [reflexivity|].
    eapply try_except_caught; [|exact He].
    unfold RedisCache.seq. rewrite call_connected, Hcmd. reflexivity.
  - intros pattern c' Hcmd.
    unfold RedisCache.clear_pattern, RedisCache.seq at 1.
    cbn [RedisCache._ensure_connected RedisCache._client].
    eapply try_except_caught; [|exact He].
    unfold RedisCache.seq. rewrite call_connected, Hcmd. reflexivity.
  - intros pattern keys c1 c' Hscan Hne Hcmd.
    unfold RedisCache.clear_pattern, RedisCache.seq at 1.
    cbn [RedisCache._ensure_connected RedisCache._client].
    eapply try_except_caught; [|exact He].
    unfold RedisCache.seq. rewrite call_connected, Hscan. cbn [fst snd].
    destruct keys as [|k keys]; [congruence|].
    rewrite call_connected, Hcmd. reflexivity.
  - intros key c' Hcmd.
    unfold RedisCache.ttl, RedisCache.seq at 1.
    cbn [RedisCache._ensure_connected RedisCache._client].
    eapply try_except_caught; [|exact He].
    rewrite call_connected, Hcmd. reflexivity.
  - intros c' Hcmd.
    unfold RedisCache.ping, RedisCache.seq at 1.
    cbn [RedisCache._ensure_connected RedisCache._client].
    eapply try_except_caught; [|exact He].
    unfold RedisCache.seq. rewrite call_connected, Hcmd. reflexivity.
Qed.

Lemma other_cache_errors_become_defaults_witness :
  fst (RedisCache.exists_ "user:1"
         (RedisCache.mk (Some (mkDownRedis (RedisError "connection refused"))) []))
  = Ok false
  /\ fst (RedisCache.ttl "user:1"
            (RedisCache.mk (Some (mkDownRedis (RedisError "connection refused"))) []))
     = Ok (-2)
  /\ fst (RedisCache.ping
            (RedisCache.mk (Some (mkDownRedis (RedisError "connection refused"))) []))
     = Ok false
  /\ fst (RedisCache.clear_pattern "user:*"
            (RedisCache.mk (Some (mkDownRedis (RedisError "connection refused"))) []))
     = Ok 0.
Proof.
  destruct (other_cache_errors_become_defaults
              DownRedis DownRedis_client
              (mkDownRedis (RedisError "connection refused")) []
              (RedisError "connection refused") eq_refl)
    as (Hexists & _ & _ & Hscan & _ & Httl & Hping).
  repeat apply conj.
  - exact (Hexists "user:1" _ eq_refl).
  - exact (Httl "user:1" _ eq_refl).
  - exact (Hping _ eq_refl).
  - exact (Hscan "user:*" _ eq_refl).
Defined.

Lemma unserializable_field : forall d k oid,
  In (k, VObjectId oid) d -> Orjson.serializable (VDict d) = false.
Proof.
  intros d k oid Hin. cbn [Orjson.serializable].
  destruct (forallb (fun kv => Orjson.serializable (snd kv)) d) eqn:Hall;
    [|reflexivity].
  rewrite forallb_forall in Hall. specialize (Hall _ Hin). discriminate Hall.
Qed.

(** X12. A value that the serializer rejects is never sent to the store:
    on a connected client [set] returns [False], leaves the client as it was
    and logs one error line, the prefix for the key followed by the text of
    the serializer's error. A document that still holds an [ObjectId], as
    the documents returned by [select_many] do for store-assigned
    identifiers, is such a value. *)
Theorem set_rejected_value_is_not_stored :
  forall (C : Type) (R : RedisClient C) (c : C) (lg : list (Level * string))
         (key : string) (ttl : option Z),
    (forall value,
        Orjson.serializable value = false ->
        exists msg,
          OrjsonSerializer.dumps value = Err (JSONEncodeError msg)
          /\ RedisCache.set key value ttl (RedisCache.mk (Some c) lg)
             = (Ok false,
                RedisCache.mk (Some c)
                  (lg ++ [(ERROR, "Redis SET error for key '" ++ key
                                  ++ "': " ++ msg)])))
    /\ (forall document field oid,
           In (field, VObjectId oid) document ->
           exists msg,
             RedisCache.set key (VDict document) ttl (RedisCache.mk (Some c) lg)
             = (Ok false,
                RedisCache.mk (Some c)
                  (lg ++ [(ERROR, "Redis SET error for key '" ++ key
                                  ++ "': " ++ msg)]))).
Proof.
  intros C R c lg key ttl.
  assert (Hset : forall value,
             Orjson.serializable value = false ->
             exists msg,
               OrjsonSerializer.dumps value = Err (JSONEncodeError msg)
               /\ RedisCache.set key value ttl (RedisCache.mk (Some c) lg)
                  = (Ok false,
                     RedisCache.mk (Some c)
                       (lg ++ [(ERROR, "Redis SET error for key '" ++ key
                                       ++ "': " ++ msg)]))).
  { intros value Hbad.
    destruct (dumps_rejected value Hbad) as [msg Hmsg].
    exists msg. split; [exact Hmsg|].
    unfold RedisCache.set, RedisCache.seq at 1.
    cbn [RedisCache._ensure_connected RedisCache._client].
    unfold RedisCache.try_except, RedisCache.seq at 1, RedisCache.lift,
      OrjsonSerializer.dumps.
    rewrite Hmsg. reflexivity. }
  split; [exact Hset|].
  intros document field oid Hin.
  destruct (Hset (VDict document)) as (msg & _ & Hlog).
  - now apply (unserializable_field document field oid).
  - now exists msg.
Qed.




(** X14. A failed [connect] leaves the client installed: when the ping
    raises, [connect] logs the failure and raises the same error, but
    [self._client] stays set, so later operations are not refused as not
    connected. *)
Theorem failed_connect_leaves_client :
  forall (C : Type) (R : RedisClient C) (client c' : C)
         (self : RedisCache.t C) (e : Exn),
    is_Exception e = true ->
    redis_ping client = (Err e, c') ->
    RedisCache.connect client self
    = (Err e,
       RedisCache.mk (Some c')
         (RedisCache.log self
          ++ [(ERROR, "Failed to connect to Redis: " ++ exn_str e)]))
    /\ RedisCache._ensure_connected
         (snd (RedisCache.connect client self))
       = (Ok tt, snd (RedisCache.connect client self)).
Proof.
  intros C R client c' self e He Hping.
  assert (Hconn : RedisCache.connect client self
                  = (Err e,
                     RedisCache.mk (Some c')
                       (RedisCache.log self
                        ++ [(ERROR, "Failed to connect to Redis: " ++ exn_str e)]))).
  { unfold RedisCache.connect, RedisCache.try_except, RedisCache.seq,
      RedisCache.call. cbn [RedisCache._client RedisCache.log].
    rewrite Hping, He. reflexivity. }
  split; [exact Hconn|]. rewrite Hconn. reflexivity.
Qed.

Lemma failed_connect_leaves_client_witness :
  RedisCache.connect (mkDownRedis (RedisError "connection refused"))
    (RedisCache.mk None [])
  = (Err (RedisError "connection refused"),
     RedisCache.mk (Some (mkDownRedis (RedisError "connection refused")))
       ([] ++ [(ERROR, "Failed to connect to Redis: "
                       ++ exn_str (RedisError "connection refused"))])).
Proof.
  apply (failed_connect_leaves_client DownRedis DownRedis_client
           (mkDownRedis (RedisError "connection refused"))
           (mkDownRedis (RedisError "connection refused"))
           (RedisCache.mk None []) (RedisError "connection refused")
           eq_refl eq_refl).
Defined.

(** ** On the in-memory server *)

Lemma entry_lookup_remove : forall k k' es,
  entry_lookup k' (entry_remove k es)
  = if String.eqb k' k then None else entry_lookup k' es.
Proof.
  intros k k' es. unfold entry_remove.
  induction es as [|[k0 e0] es IH]; cbn [filter fst entry_lookup].
  - now destruct (String.eqb k' k).
  - destruct (String.eqb_spec k k0) as [<-|Hne]; cbn [negb].
    + rewrite IH. now destruct (String.eqb k' k).
    + cbn [entry_lookup]. rewrite IH.
      destruct (String.eqb_spec k' k) as [->|_]; [|reflexivity].
      destruct (String.eqb_spec k k0); [contradiction | reflexivity].
Qed.

Lemma mem_find_put : forall k k' e m,
  mem_find k' (mem_put k e m)
  = if String.eqb k' k
    then (if live (now m) e then Some e else None)
    else mem_find k' m.
Proof.
  intros k k' e m. unfold mem_find, mem_put. cbn [entries now entry_lookup].
  destruct (String.eqb k' k) eqn:E; [reflexivity|].
  now rewrite entry_lookup_remove, E.
Qed.

Lemma mem_find_drop : forall k k' m,
  mem_find k' (mem_drop k m)
  = if String.eqb k' k then None else mem_find k' m.
Proof.
  intros k k' m. unfold mem_find, mem_drop. cbn [entries now].
  rewrite entry_lookup_remove. now destruct (String.eqb k' k).
Qed.

Lemma loads_entry : forall m value expiry,
  Orjson.serializable value = true ->
  well_formed value = true ->
  OrjsonSerializer.loads (mem_reply m (mkEntry (Orjson.print value) expiry))
  = Ok (as_json value).
Proof.
  intros m value expiry Hser Hwf. unfold mem_reply, OrjsonSerializer.loads.
  cbn [entry_data]. destruct (decode_responses m); now apply loads_print.
Qed.

(** What [get], [exists] and [ttl] answer on the in-memory server. *)
Lemma get_present : forall m lg key e v,
  mem_find key m = Some e ->
  OrjsonSerializer.loads (mem_reply m e) = Ok v ->
  RedisCache.get key (RedisCache.mk (Some m) lg)
  = (Ok v, RedisCache.mk (Some m) lg).
Proof.
  intros m lg key e v Hfind Hloads.
  unfold RedisCache.get, RedisCache.seq, RedisCache.try_except, RedisCache.call,
    RedisCache.lift.
  cbn [RedisCache._ensure_connected RedisCache._client RedisCache.log
       redis_get MemRedis_client].
  unfold mem_get. rewrite Hfind. cbn [option_map]. now rewrite Hloads.
Qed.

Lemma get_absent : forall m lg key,
  mem_find key m = None ->
  RedisCache.get key (RedisCache.mk (Some m) lg)
  = (Ok VNone, RedisCache.mk (Some m) lg).
Proof.
  intros m lg key Hfind.
  unfold RedisCache.get, RedisCache.seq, RedisCache.try_except, RedisCache.call,
    RedisCache.lift.
  cbn [RedisCache._ensure_connected RedisCache._client RedisCache.log
       redis_get MemRedis_client].
  unfold mem_get. now rewrite Hfind.
Qed.

Lemma exists_on_server : forall m lg key,
  RedisCache.exists_ key (RedisCache.mk (Some m) lg)
  = (Ok (match mem_find key m with Some _ => true | None => false end),
     RedisCache.mk (Some m) lg).
Proof.
  intros m lg key.
  unfold RedisCache.exists_, RedisCache.seq, RedisCache.try_except,
    RedisCache.call, RedisCache.ret.
  cbn [RedisCache._ensure_connected RedisCache._client RedisCache.log
       redis_exists MemRedis_client].
  now destruct (mem_find key m).
Qed.

Lemma ttl_on_server : forall m lg key,
  RedisCache.ttl key (RedisCache.mk (Some m) lg)
  = (Ok (match mem_find key m with
         | Some e => match expires_at e with
                     | Some x => x - now m
                     | None => -1
                     end
         | None => -2
         end),
     RedisCache.mk (Some m) lg).
Proof. reflexivity. Qed.

Lemma set_on_server : forall m lg key value ttl,
  Orjson.serializable value = true ->
  (forall t, RedisCache.ttl_given ttl = Some t -> 0 < t) ->
  RedisCache.set key value ttl (RedisCache.mk (Some m) lg)
  = (Ok true,
     RedisCache.mk
       (Some (mem_put key
                (mkEntry (Orjson.print value)
                   (option_map (fun t => now m + t) (RedisCache.ttl_given ttl)))
                m))
       lg).
Proof.
  intros m lg key value ttl Hser Hpos.
  unfold RedisCache.set, RedisCache.seq, RedisCache.try_except, RedisCache.call,
    RedisCache.lift, RedisCache.ret, OrjsonSerializer.dumps.
  cbn [RedisCache._ensure_connected RedisCache._client RedisCache.log].
  rewrite (dumps_serializable value Hser).
  destruct (RedisCache.ttl_given ttl) as [t|] eqn:Httl; cbn [option_map].
  - cbn [RedisCache._client redis_setex MemRedis_client]. unfold mem_setex.
    specialize (Hpos t eq_refl).
    destruct (Z.leb_spec t 0) as [|_]; [lia|]. reflexivity.
  - reflexivity.
Qed.








(** ** Deleting keys *)

Lemma mem_delete_find : forall keys m k,
  mem_find k (snd (mem_delete keys m))
  = if existsb (String.eqb k) keys then None else mem_find k m.
Proof.
  induction keys as [|k0 keys IH]; intros m k; [reflexivity|].
  cbn [mem_delete existsb].
  specialize (IH (mem_drop k0 m) k).
  destruct (mem_delete keys (mem_drop k0 m)) as [n m'].
  cbn [snd] in *. rewrite IH, mem_find_drop.
  destruct (String.eqb k k0); [now destruct (existsb (String.eqb k) keys)|].
  reflexivity.
Qed.

Lemma mem_delete_bounds : forall keys m,
  0 <= fst (mem_delete keys m) <= Z.of_nat (List.length keys).
Proof.
  induction keys as [|k0 keys IH]; intro m; [cbn; lia|].
  cbn [mem_delete]. specialize (IH (mem_drop k0 m)).
  destruct (mem_delete keys (mem_drop k0 m)) as [n m'].
  cbn [fst List.length] in *. destruct (mem_find k0 m); lia.
Qed.

Lemma mem_delete_count : forall keys m,
  NoDup keys ->
  fst (mem_delete keys m) = Z.of_nat (List.length (filter (present m) keys)).
Proof.
  induction keys as [|k0 keys IH]; intros m Hnd; [reflexivity|].
  inversion Hnd as [|? ? Hnotin Hnd']; subst.
  cbn [mem_delete filter]. specialize (IH (mem_drop k0 m) Hnd').
  destruct (mem_delete keys (mem_drop k0 m)) as [n m'].
  cbn [fst] in *. rewrite IH.
  assert (Hsame : filter (present (mem_drop k0 m)) keys = filter (present m) keys).
  { apply filter_ext_in. intros k Hk. unfold present. rewrite mem_find_drop.
    destruct (String.eqb_spec k k0); [subst; contradiction | reflexivity]. }
  rewrite Hsame. unfold present at 2.
  destruct (mem_find k0 m); cbn [List.length]; lia.
Qed.

Lemma delete_many_on_server : forall m lg keys,
  RedisCache.delete_many keys (RedisCache.mk (Some m) lg)
  = (Ok (fst (mem_delete keys m)),
     RedisCache.mk (Some (snd (mem_delete keys m))) lg).
Proof.
  intros m lg keys. destruct keys as [|k keys]; [reflexivity|].
  unfold RedisCache.delete_many, RedisCache.seq, RedisCache.try_except,
    RedisCache.call, RedisCache.ret.
  cbn [RedisCache._ensure_connected RedisCache._client RedisCache.log
       redis_delete MemRedis_client].
  now destruct (mem_delete (k :: keys) m).
Qed.

(** X18. [delete] removes the key and says whether it was there: on the
    in-memory server it returns [True] exactly when the key was present;
    afterwards [get] returns [None], [exists] is false, a second [delete]
    returns [False], and every other key holds what it held. *)
Theorem delete_removes_key : forall m lg key,
  RedisCache.delete key (RedisCache.mk (Some m) lg)
  = (Ok (present m key), RedisCache.mk (Some (mem_drop key m)) lg)
  /\ fst (RedisCache.get key (RedisCache.mk (Some (mem_drop key m)) lg)) = Ok VNone
  /\ fst (RedisCache.exists_ key (RedisCache.mk (Some (mem_drop key m)) lg))
     = Ok false
  /\ fst (RedisCache.delete key (RedisCache.mk (Some (mem_drop key m)) lg))
     = Ok false
  /\ (forall k, k <> key -> mem_find k (mem_drop key m) = mem_find k m).
Proof.
  intros m lg key.
  assert (Hdel : forall m0,
             RedisCache.delete key (RedisCache.mk (Some m0) lg)
             = (Ok (present m0 key), RedisCache.mk (Some (mem_drop key m0)) lg)).
  { intro m0.
    unfold RedisCache.delete, RedisCache.seq, RedisCache.try_except,
      RedisCache.call, RedisCache.ret, present.
    cbn [RedisCache._ensure_connected RedisCache._client RedisCache.log
         redis_delete MemRedis_client mem_delete].
    now destruct (mem_find key m0). }
  assert (Hgone : mem_find key (mem_drop key m) = None)
    by now rewrite mem_find_drop, String.eqb_refl.
  repeat split.
  - apply Hdel.
  - now rewrite (get_absent _ _ _ Hgone).
  - now rewrite exists_on_server, Hgone.
  - rewrite Hdel. unfold present. now rewrite Hgone.
  - intros k Hk. rewrite mem_find_drop. now destruct (String.eqb_spec k key).
Qed.

(** X19. [delete_many] removes every listed key and counts the ones that
    were there: on the in-memory server, afterwards none of the listed keys
    is present and every other key holds what it held; the returned number
    lies between 0 and the number of keys given, and when no key is listed
    twice it is the number of listed keys that were present. *)
Theorem delete_many_removes_keys : forall m lg keys,
  exists n m',
    RedisCache.delete_many keys (RedisCache.mk (Some m) lg)
    = (Ok n, RedisCache.mk (Some m') lg)
    /\ (forall k,
           mem_find k m'
           = if existsb (String.eqb k) keys then None else mem_find k m)
    /\ 0 <= n <= Z.of_nat (List.length keys)
    /\ (NoDup keys -> n = Z.of_nat (List.length (filter (present m) keys))).
Proof.
  intros m lg keys.
  exists (fst (mem_delete keys m)), (snd (mem_delete keys m)).
  split; [apply delete_many_on_server|]. split; [|split].
  - intro k. apply mem_delete_find.
  - apply mem_delete_bounds.
  - apply mem_delete_count.
Qed.

(** ** Clearing by pattern *)

Lemma entry_lookup_in : forall k e es,
  entry_lookup k es = Some e -> In (k, e) es.
Proof.
  intros k e es. induction es as [|[k0 e0] es IH]; cbn [entry_lookup];
    [discriminate|].
  destruct (String.eqb_spec k k0) as [->|_].
  - intro H. inversion H. now left.
  - intro H. right. now apply IH.
Qed.

Lemma in_entry_lookup : forall k e es,
  NoDup (map fst es) -> In (k, e) es -> entry_lookup k es = Some e.
Proof.
  intros k e es. induction es as [|[k0 e0] es IH]; intros Hnd Hin;
    [destruct Hin|].
  cbn [map fst] in Hnd. inversion Hnd as [|? ? Hnotin Hnd']; subst.
  cbn [entry_lookup]. destruct Hin as [Heq|Hin].
  - inversion Heq; subst. now rewrite String.eqb_refl.
  - destruct (String.eqb_spec k k0) as [->|_]; [|now apply IH].
    exfalso. apply Hnotin. apply in_map_iff. now exists (k0, e).
Qed.

Lemma NoDup_map_filter : forall (A B : Type) (g : A -> B) (f : A -> bool) l,
  NoDup (map g l) -> NoDup (map g (filter f l)).
Proof.
  intros A B g f l. induction l as [|x l IH]; intro Hnd; [constructor|].
  cbn [map] in Hnd. inversion Hnd as [|? ? Hnotin Hnd']; subst.
  cbn [filter]. destruct (f x); [|now apply IH].
  cbn [map]. constructor; [|now apply IH].
  intro Hin. apply Hnotin. apply in_map_iff in Hin.
  destruct Hin as (y & Hy & Hin). apply filter_In in Hin.
  apply in_map_iff. exists y. tauto.
Qed.

Lemma existsb_eqb_in : forall k keys,
  existsb (String.eqb k) keys = true <-> In k keys.
Proof.
  intros k keys. rewrite existsb_exists. split.
  - intros (x & Hx & Heq). apply String.eqb_eq in Heq. now subst.
  - intro Hin. exists k. split; [exact Hin | apply String.eqb_refl].
Qed.

Lemma clear_pattern_on_server : forall m lg pattern,
  RedisCache.clear_pattern pattern (RedisCache.mk (Some m) lg)
  = (Ok (fst (mem_delete (scanned pattern m) m)),
     RedisCache.mk (Some (snd (mem_delete (scanned pattern m) m))) lg).
Proof.
  intros m lg pattern.
  unfold RedisCache.clear_pattern, RedisCache.seq, RedisCache.try_except,
    RedisCache.call, RedisCache.ret.
  cbn [RedisCache._ensure_connected RedisCache._client RedisCache.log
       redis_scan_iter MemRedis_client].
  fold (scanned pattern m).
  destruct (scanned pattern m) as [|k keys] eqn:Hscan; [reflexivity|].
  cbn [RedisCache._client RedisCache.log redis_delete MemRedis_client].
  now destruct (mem_delete (k :: keys) m).
Qed.

(** X20. [clear_pattern] removes exactly the keys that match: on the
    in-memory server, afterwards no key matching the pattern is present and
    every key that does not match holds what it held; when the server holds
    one entry per key, the returned number is the number of unexpired
    entries whose key matches. *)
Theorem clear_pattern_removes_matching : forall m lg pattern,
  exists n m',
    RedisCache.clear_pattern pattern (RedisCache.mk (Some m) lg)
    = (Ok n, RedisCache.mk (Some m') lg)
    /\ (forall k,
           mem_find k m' = if glob pattern k then None else mem_find k m)
    /\ (NoDup (map fst (entries m)) ->
        n = Z.of_nat
              (List.length
                 (filter (fun ke => live (now m) (snd ke) && glob pattern (fst ke))
                         (entries m)))).
Proof.
  intros m lg pattern.
  exists (fst (mem_delete (scanned pattern m) m)),
         (snd (mem_delete (scanned pattern m) m)).
  split; [apply clear_pattern_on_server|]. split.
  - intro k. rewrite mem_delete_find.
    destruct (existsb (String.eqb k) (scanned pattern m)) eqn:Hex.
    + apply existsb_eqb_in in Hex. unfold scanned in Hex.
      apply in_map_iff in Hex. destruct Hex as ([k' e] & Hk & Hin).
      cbn [fst] in Hk. subst k'. apply filter_In in Hin.
      destruct Hin as [_ Hok]. apply andb_true_iff in Hok.
      cbn [fst] in Hok. destruct Hok as [_ Hglob]. now rewrite Hglob.
    + destruct (glob pattern k) eqn:Hglob; [|reflexivity].
      destruct (mem_find k m) as [e|] eqn:Hfind; [|reflexivity].
      exfalso. unfold mem_find in Hfind.
      destruct (entry_lookup k (entries m)) as [e'|] eqn:Hlook; [|discriminate].
      destruct (live (now m) e') eqn:Hlive; [|discriminate].
      assert (Hin : In k (scanned pattern m)).
      { unfold scanned. apply in_map_iff. exists (k, e'). split; [reflexivity|].
        apply filter_In. split; [now apply entry_lookup_in|].
        cbn [fst snd]. now rewrite Hlive, Hglob. }
      apply existsb_eqb_in in Hin. congruence.
  - intro Hnd.
    rewrite mem_delete_count
      by (unfold scanned; now apply NoDup_map_filter).
    f_equal.
    assert (Hall : filter (present m) (scanned pattern m) = scanned pattern m).
    { apply forallb_filter_id. apply forallb_forall. intros k Hk.
      unfold scanned in Hk. apply in_map_iff in Hk.
      destruct Hk as ([k' e] & Hk & Hin). cbn [fst] in Hk. subst k'.
      apply filter_In in Hin. destruct Hin as [Hin Hok].
      apply andb_true_iff in Hok. cbn [snd] in Hok. destruct Hok as [Hlive _].
      unfold present, mem_find.
      now rewrite (in_entry_lookup _ _ _ Hnd Hin), Hlive. }
    rewrite Hall. unfold scanned. now rewrite length_map.
Qed.

Lemma clear_pattern_removes_matching_witness :
  exists n m',
    RedisCache.clear_pattern "session:*"
      (RedisCache.mk
         (Some (mkMemRedis [("session:1", mkEntry "1" None);
                            ("session:2", mkEntry "2" None);
                            ("user:1", mkEntry "3" None)] 0 false)) [])
    = (Ok n, RedisCache.mk (Some m') [])
    /\ n = 2
    /\ mem_find "user:1" m' = Some (mkEntry "3" None)
    /\ mem_find "session:1" m' = None.
Proof.
  destruct (clear_pattern_removes_matching
              (mkMemRedis [("session:1", mkEntry "1" None);
                           ("session:2", mkEntry "2" None);
                           ("user:1", mkEntry "3" None)] 0 false)
              [] "session:*") as (n & m' & Hrun & Hfind & Hcount).
  exists n, m'. split; [exact Hrun|]. split; [|split].
  - rewrite Hcount; [reflexivity|].
    cbn. repeat constructor; cbn; intuition discriminate.
  - now rewrite Hfind.
  - now rewrite Hfind.
Defined.

(** ** Expiry on an existing key, and cached [None] *)

(** X21. [expire] works on keys that exist: on the in-memory server, for a
    positive [ttl], a present key gets that time to live and keeps its
    value, and [expire] returns [True]; for an absent key [expire] returns
    [False] and changes nothing. *)
Theorem expire_sets_ttl_of_present_key : forall m lg key t,
  0 < t ->
  (forall e,
      mem_find key m = Some e ->
      exists m',
        RedisCache.expire key t (RedisCache.mk (Some m) lg)
        = (Ok true, RedisCache.mk (Some m') lg)
        /\ mem_find key m' = Some (mkEntry (entry_data e) (Some (now m + t)))
        /\ fst (RedisCache.ttl key (RedisCache.mk (Some m') lg)) = Ok t
        /\ (forall k, k <> key -> mem_find k m' = mem_find k m))
  /\ (mem_find key m = None ->
      RedisCache.expire key t (RedisCache.mk (Some m) lg)
      = (Ok false, RedisCache.mk (Some m) lg)).
Proof.
  intros m lg key t Ht. split.
  - intros e Hfind.
    exists (mem_put key (mkEntry (entry_data e) (Some (now m + t))) m).
    assert (Hnew : mem_find key
                     (mem_put key (mkEntry (entry_data e) (Some (now m + t))) m)
                   = Some (mkEntry (entry_data e) (Some (now m + t)))).
    { rewrite mem_find_put, String.eqb_refl. unfold live. cbn [expires_at].
      destruct (Z.ltb_spec (now m) (now m + t)); [reflexivity | lia]. }
    split; [|split; [exact Hnew | split]].
    + unfold RedisCache.expire, RedisCache.seq, RedisCache.try_except,
        RedisCache.call, RedisCache.ret.
      cbn [RedisCache._ensure_connected RedisCache._client RedisCache.log
           redis_expire MemRedis_client].
      rewrite Hfind. destruct (Z.leb_spec t 0); [lia | reflexivity].
    + rewrite ttl_on_server, Hnew. unfold mem_put. cbn [expires_at now fst].
      f_equal. lia.
    + intros k Hk. rewrite mem_find_put. now destruct (String.eqb_spec k key).
  - intro Hfind.
    unfold RedisCache.expire, RedisCache.seq, RedisCache.try_except,
      RedisCache.call, RedisCache.ret.
    cbn [RedisCache._ensure_connected RedisCache._client RedisCache.log
         redis_expire MemRedis_client].
    rewrite Hfind. now destruct m.
Qed.

Lemma expire_sets_ttl_of_present_key_witness :
  (exists m',
     RedisCache.expire "k" 60
       (RedisCache.mk (Some (mkMemRedis [("k", mkEntry "1" None)] 0 false)) [])
     = (Ok true, RedisCache.mk (Some m') [])
     /\ mem_find "k" m' = Some (mkEntry "1" (Some 60))
     /\ fst (RedisCache.ttl "k" (RedisCache.mk (Some m') [])) = Ok 60)
  /\ RedisCache.expire "k" 60 (RedisCache.mk (Some (mkMemRedis [] 0 false)) [])
     = (Ok false, RedisCache.mk (Some (mkMemRedis [] 0 false)) []).
Proof.
  split.
  - destruct (expire_sets_ttl_of_present_key
                (mkMemRedis [("k", mkEntry "1" None)] 0 false) [] "k" 60
                eq_refl) as (Hpresent & _).
    destruct (Hpresent (mkEntry "1" None) eq_refl)
      as (m' & Hrun & Hfind & Httl & _).
    exists m'. split; [exact Hrun|]. split; [exact Hfind | exact Httl].
  - destruct (expire_sets_ttl_of_present_key (mkMemRedis [] 0 false) [] "k" 60
                eq_refl) as (_ & Habsent).
    exact (Habsent eq_refl).
Defined.

(** X22. [get] cannot tell a cached [None] from a miss: on the in-memory
    server, for a key that is absent [get] returns [None]; after
    [set(key, None)] the key is present ([exists] is true) and [get] still
    returns [None]. *)
Theorem get_does_not_tell_None_from_miss : forall m lg key,
  mem_find key m = None ->
  exists m',
    RedisCache.get key (RedisCache.mk (Some m) lg)
    = (Ok VNone, RedisCache.mk (Some m) lg)
    /\ RedisCache.exists_ key (RedisCache.mk (Some m) lg)
       = (Ok false, RedisCache.mk (Some m) lg)
    /\ RedisCache.set key VNone None (RedisCache.mk (Some m) lg)
       = (Ok true, RedisCache.mk (Some m') lg)
    /\ RedisCache.get key (RedisCache.mk (Some m') lg)
       = (Ok VNone, RedisCache.mk (Some m') lg)
    /\ RedisCache.exists_ key (RedisCache.mk (Some m') lg)
       = (Ok true, RedisCache.mk (Some m') lg).
Proof.
  intros m lg key Hmiss.
  exists (mem_put key (mkEntry (Orjson.print VNone) None) m).
  assert (Hfind : mem_find key (mem_put key (mkEntry (Orjson.print VNone) None) m)
                  = Some (mkEntry (Orjson.print VNone) None))
    by now rewrite mem_find_put, String.eqb_refl.
  split; [now apply get_absent|].
  split; [now rewrite exists_on_server, Hmiss|].
  split; [|split].
  - rewrite set_on_server; [reflexivity | reflexivity |].
    intros t Ht. discriminate Ht.
  - apply (get_present _ _ _ _ VNone Hfind).
    now apply (loads_entry _ VNone None).
  - now rewrite exists_on_server, Hfind.
Qed.

Lemma get_does_not_tell_None_from_miss_witness :
  exists m',
    RedisCache.get "k" (RedisCache.mk (Some (mkMemRedis [] 0 false)) [])
    = (Ok VNone, RedisCache.mk (Some (mkMemRedis [] 0 false)) [])
    /\ RedisCache.exists_ "k" (RedisCache.mk (Some (mkMemRedis [] 0 false)) [])
       = (Ok false, RedisCache.mk (Some (mkMemRedis [] 0 false)) [])
    /\ RedisCache.set "k" VNone None (RedisCache.mk (Some (mkMemRedis [] 0 false)) [])
       = (Ok true, RedisCache.mk (Some m') [])
    /\ RedisCache.get "k" (RedisCache.mk (Some m') [])
       = (Ok VNone, RedisCache.mk (Some m') [])
    /\ RedisCache.exists_ "k" (RedisCache.mk (Some m') [])
       = (Ok true, RedisCache.mk (Some m') []).
Proof.
  exact (get_does_not_tell_None_from_miss (mkMemRedis [] 0 false) [] "k" eq_refl).
Defined.

(** ** Writing and reading a batch *)






(** ** [get_many] on what the serializer wrote *)











(** * Further properties of the serializer *)

(** X24. Among the values built from [None], booleans, integers, strings,
    lists, tuples and string-keyed dicts (the values of this model; dates,
    UUIDs, dataclasses, enums and floats are not among them): the text that
    [dumps_str] returns for such a value is read back by [loads] as the
    value with its tuples turned into lists; and if [dumps] gives the same
    data for a second such value, the two differ at most in tuples against
    lists, so that they are the same value when neither holds a tuple. *)
Theorem dumps_tells_values_apart : forall v1 v2 data,
  well_formed v1 = true ->
  well_formed v2 = true ->
  OrjsonSerializer.dumps_str v1 = Ok data ->
  OrjsonSerializer.dumps v2 = Ok data ->
  OrjsonSerializer.loads (PStr data) = Ok (as_json v1)
  /\ as_json v1 = as_json v2
  /\ (json_native v1 = true -> json_native v2 = true -> v1 = v2).
Proof.
  intros v1 v2 data Hwf1 Hwf2 H1 H2.
  unfold OrjsonSerializer.dumps_str, OrjsonSerializer.dumps in *.
  destruct (Orjson.serializable v1) eqn:Hs1.
  2:{ destruct (dumps_rejected v1 Hs1) as [msg Hmsg]. rewrite Hmsg in H1.
      discriminate H1. }
  destruct (Orjson.serializable v2) eqn:Hs2.
  2:{ destruct (dumps_rejected v2 Hs2) as [msg Hmsg]. congruence. }
  rewrite (dumps_serializable v1 Hs1) in H1.
  rewrite (dumps_serializable v2 Hs2) in H2.
  injection H1 as Hd1. injection H2 as Hd2.
  pose proof (loads_print v1 Hs1 Hwf1) as Hb1.
  pose proof (loads_print v2 Hs2 Hwf2) as Hb2.
  rewrite Hd2, <- Hd1 in Hb2. rewrite Hb1 in Hb2. injection Hb2 as Heq.
  subst data.
  split; [|split].
  - exact Hb1.
  - exact Heq.
  - intros Hn1 Hn2.
    now rewrite <- (as_json_native v1 Hn1), <- (as_json_native v2 Hn2).
Qed.

Lemma dumps_tells_values_apart_witness :
  OrjsonSerializer.loads (PStr "[1,2]") = Ok (VList [VInt 1; VInt 2])
  /\ as_json (VTuple [VInt 1; VInt 2]) = as_json (VList [VInt 1; VInt 2])
  /\ (json_native (VTuple [VInt 1; VInt 2]) = true ->
      json_native (VList [VInt 1; VInt 2]) = true ->
      VTuple [VInt 1; VInt 2] = VList [VInt 1; VInt 2]).
Proof.
  apply (dumps_tells_values_apart (VTuple [VInt 1; VInt 2])
           (VList [VInt 1; VInt 2]) "[1,2]");
    reflexivity.
Defined.

(** * Further properties of the connection helper *)

(** X25. [async_mongo_client(uri, **kwargs)], for keyword arguments that
    name neither [uri] nor [host], calls the client with the URI as [host],
    every keyword argument of the caller with the caller's value, and each
    of the four pool defaults that the caller did not name. A caller who
    passes [uri] again as a keyword, or [host], gets a [TypeError] and no
    client. *)
Theorem async_mongo_client_arguments : forall uri kwargs,
  unique_keys kwargs = true ->
  (dict_lookup "uri" kwargs = None ->
   dict_lookup "host" kwargs = None ->
   exists args,
     async_mongo_client uri kwargs = Ok args
     /\ dict_lookup "host" args = Some (VStr uri)
     /\ (forall k v, dict_lookup k kwargs = Some v -> dict_lookup k args = Some v)
     /\ (forall k, k <> "host" -> dict_lookup k kwargs = None ->
         dict_lookup k args = dict_lookup k default_kwargs))
  /\ (forall v, dict_lookup "host" kwargs = Some v ->
      exists msg, async_mongo_client uri kwargs = Err (TypeError msg))
  /\ (forall v, dict_lookup "uri" kwargs = Some v ->
      exists msg, async_mongo_client uri kwargs = Err (TypeError msg)).
Proof.
  intros uri kwargs Hu.
  assert (Hmerged : forall k,
            dict_lookup k (merged_kwargs kwargs)
            = match dict_lookup k kwargs with
              | Some v => Some v
              | None => dict_lookup k default_kwargs
              end).
  { intro k. unfold merged_kwargs.
    now rewrite dict_lookup_merge, (last_binding_unique _ _ Hu). }
  split; [|split].
  - intros Huri Hhost. unfold async_mongo_client.
    rewrite Huri, (Hmerged "host"), Hhost.
    cbn [default_kwargs dict_lookup String.eqb Ascii.eqb Bool.eqb].
    eexists. split; [reflexivity|]. split; [reflexivity|]. split.
    + intros k v Hk. cbn [dict_lookup].
      destruct (String.eqb_spec k "host") as [->|Hne]; [congruence|].
      now rewrite Hmerged, Hk.
    + intros k Hne Hk. cbn [dict_lookup].
      destruct (String.eqb_spec k "host") as [->|_]; [contradiction|].
      now rewrite Hmerged, Hk.
  - intros v Hhost. unfold async_mongo_client.
    destruct (dict_lookup "uri" kwargs); [eexists; reflexivity|].
    rewrite (Hmerged "host"), Hhost. eexists. reflexivity.
  - intros v Huri. unfold async_mongo_client. rewrite Huri.
    eexists. reflexivity.
Qed.

Lemma async_mongo_client_arguments_witness :
  (exists args,
     async_mongo_client "mongodb://localhost" [("maxPoolSize", VInt 50)] = Ok args
     /\ dict_lookup "maxPoolSize" args = Some (VInt 50)
     /\ dict_lookup "minPoolSize" args = Some (VInt 5))
  /\ (exists msg,
        async_mongo_client "mongodb://localhost" [("host", VStr "other")]
        = Err (TypeError msg))
  /\ (exists msg,
        async_mongo_client "mongodb://localhost" [("uri", VStr "other")]
        = Err (TypeError msg)).
Proof.
  split; [|split].
  - destruct (async_mongo_client_arguments "mongodb://localhost"
                [("maxPoolSize", VInt 50)] eq_refl) as [Hok _].
    destruct (Hok eq_refl eq_refl) as (args & Hargs & _ & Hgiven & Hdefault).
    exists args. split; [exact Hargs|]. split.
    + apply Hgiven. reflexivity.
    + rewrite Hdefault; [reflexivity|discriminate|reflexivity].
  - destruct (async_mongo_client_arguments "mongodb://localhost"
                [("host", VStr "other")] eq_refl) as (_ & Herr & _).
    exact (Herr (VStr "other") eq_refl).
  - destruct (async_mongo_client_arguments "mongodb://localhost"
                [("uri", VStr "other")] eq_refl) as (_ & _ & Herr).
    exact (Herr (VStr "other") eq_refl).
Defined.

(** * Further properties of the model base class *)

Lemma as_dict_model : forall cls attrs,
  as_dict (Model cls attrs)
  = map (fun kv => (fst kv, as_dict_value (snd kv)))
        (filter (fun kv => negb (is_private (fst kv))) attrs).
Proof.
  intros cls attrs. cbn [as_dict].
  induction attrs as [|[attr value] rest IH]; [reflexivity|].
  cbn [filter fst]. destruct (is_private attr); cbn [negb map fst snd].
  - exact IH.
  - rewrite <- IH. reflexivity.
Qed.

Lemma as_dict_element_plain : forall items,
  forallb (fun v => negb (is_model v)) items = true ->
  map as_dict_element items = items.
Proof.
  induction items as [|v items IH]; intro H; [reflexivity|].
  cbn [forallb] in H. apply andb_true_iff in H. destruct H as [Hv H].
  cbn [map]. rewrite (IH H). f_equal. now destruct v.
Qed.

(** X26. [as_dict] has no key that starts with an underscore, and under any
    other attribute name it has what the object holds there, converted: a
    model object by its own [as_dict], a list or tuple element by element.
    The conversion goes one level deep: a list or tuple none of whose
    elements is itself a model object comes back as it is, whatever its
    elements hold, and so does a dict; a model object inside a list inside
    a list stays a model object. *)
Theorem as_dict_attributes : forall cls attrs,
  (forall k,
     attr_lookup k (as_dict (Model cls attrs))
     = if is_private k then None
       else option_map as_dict_value (attr_lookup k attrs))
  /\ (forall items,
        forallb (fun v => negb (is_model v)) items = true ->
        as_dict_value (ListOf items) = ListOf items
        /\ as_dict_value (TupleOf items) = TupleOf items)
  /\ (forall d, as_dict_value (DictOf d) = DictOf d)
  /\ (forall c a,
        model_free (as_dict_value (ListOf [ListOf [Model c a]])) = false).
Proof.
  intros cls attrs. split; [|split; [|split]].
  - intro k. rewrite as_dict_model.
    induction attrs as [|[attr value] rest IH].
    + now destruct (is_private k).
    + cbn [filter fst attr_lookup].
      destruct (String.eqb_spec k attr) as [->|Hne].
      * destruct (is_private attr) eqn:Hp; cbn [negb].
        -- exact IH.
        -- cbn [map attr_lookup fst snd]. now rewrite String.eqb_refl.
      * destruct (is_private attr); cbn [negb]; [exact IH|].
        cbn [map attr_lookup fst snd].
        apply String.eqb_neq in Hne. now rewrite Hne.
  - intros items H. cbn [as_dict_value].
    now rewrite (as_dict_element_plain items H).
  - reflexivity.
  - reflexivity.
Qed.

(** How [within_reach] reads one element of a list or tuple. *)
Lemma within_reach_elements : forall items,
  Forall (fun o =>
            within_reach o = true ->
            forallb (fun kv => model_free (snd kv)) (as_dict o) = true) items ->
  forallb (fun v => match v with
                    | Model _ _ => within_reach v
                    | _ => model_free v
                    end) items = true ->
  forallb model_free (map as_dict_element items) = true.
Proof.
  induction 1 as [|v items Hv _ IH]; intro H; [reflexivity|].
  cbn [forallb] in H. apply andb_true_iff in H. destruct H as [Hhead H].
  cbn [map forallb]. rewrite (IH H), andb_true_r.
  destruct v; try exact Hhead.
  cbn [as_dict_element model_free]. exact (Hv Hhead).
Qed.

Lemma as_dict_model_free : forall o,
  (within_reach o = true ->
   forallb (fun kv => model_free (snd kv)) (as_dict o) = true)
  /\ match o with
     | ListOf items | TupleOf items =>
         forallb (fun v => match v with
                           | Model _ _ => within_reach v
                           | _ => model_free v
                           end) items = true ->
         forallb model_free (map as_dict_element items) = true
     | _ => True
     end.
Proof.
  induction o as [v|cls attrs IH|items IH|items IH|d IH] using PyObject_ind.
  - split; [reflexivity|exact I].
  - split; [|exact I]. intro H. rewrite as_dict_model.
    cbn [within_reach] in H.
    induction IH as [|[attr value] rest Hvalue _ IHrest]; [reflexivity|].
    cbn [forallb snd] in H. apply andb_true_iff in H. destruct H as [Hhead H].
    cbn [filter fst]. destruct (is_private attr); cbn [negb]; [exact (IHrest H)|].
    cbn [map forallb fst snd]. rewrite (IHrest H), andb_true_r.
    cbn [snd] in Hvalue. destruct Hvalue as [Hmodel Hitems].
    destruct value as [v|c a|items|items|d]; cbn [as_dict_value model_free].
    + reflexivity.
    + exact (Hmodel Hhead).
    + exact (Hitems Hhead).
    + exact (Hitems Hhead).
    + exact Hhead.
  - split; [reflexivity|].
    apply within_reach_elements.
    eapply Forall_impl; [|exact IH]. intros a Ha. exact (proj1 Ha).
  - split; [reflexivity|].
    apply within_reach_elements.
    eapply Forall_impl; [|exact IH]. intros a Ha. exact (proj1 Ha).
  - split; [reflexivity|exact I].
Qed.

(** X27. When the attributes of a model object hold plain values, model
    objects of the same kind, and lists or tuples whose elements are such
    model objects or hold no model object, the dict that [as_dict] returns
    holds no model object at any depth. *)
Theorem as_dict_leaves_no_model : forall o,
  within_reach o = true ->
  model_free (DictOf (as_dict o)) = true.
Proof.
  intros o H. cbn [model_free]. exact (proj1 (as_dict_model_free o) H).
Qed.

Lemma as_dict_leaves_no_model_witness :
  model_free
    (DictOf (as_dict
       (Model "Order"
          [("_cache", Plain VNone);
           ("owner", Model "User" [("client_id", Plain (VStr "acme"))]);
           ("items", ListOf [Model "Item" [("sku", Plain (VInt 7))];
                             Plain (VInt 1)])]))) = true.
Proof.
  apply as_dict_leaves_no_model. reflexivity.
Defined.
